(** * bebouncepadel: the transaction / booking consistency core

    A shallow embedding of the handlers of
      src/controllers/transaction.controller.ts
      src/controllers/booking.controller.ts
      src/controllers/order-request.controller.ts
      src/controllers/inventory.controller.ts
    over an explicit relational store.

    Conventions of the embedding.
    - A table is the list of its rows, in insertion order.  [findFirst]
      is [find], [update ... where p] rewrites every row that satisfies
      [p], [insert] appends.
    - uuid keys are integers drawn from the store's [nextId] counter.
    - Integer columns (stock, quantity) are [Z].  decimal(10,2) columns
      (prices, amounts) are [Z] counts of hundredths, and the handlers'
      arithmetic on JavaScript numbers is taken to be exact on them.
      Where a handler divides (the hours of a booking) the intermediate
      value is a [Q] and [toFixed2] rounds it for the column.
    - Timestamps are [Z] milliseconds; every handler receives the wall
      clock as its [now] argument.
    - [throw] inside [db_transaction] leaves the unit with the store as
      it was at the throw; [db_transaction] then restores the store the
      unit started from.  Storage-level constraint failures (unique
      numbers, foreign keys, column overflow) are outside the model. *)

From Stdlib Require Import ZArith QArith Qround List Bool String Lia.
Import ListNotations.
Local Open Scope Z_scope.

Definition Id := Z.
Definition Timestamp := Z.
Definition Money := Z.

(** ** Enumerations of db/schema.ts *)

Inductive ProductType := SELL | RENT.
Inductive TableStatus := EMPTY | OCCUPIED.
Inductive TransactionType := POS | RENTAL | BOOKING.
Inductive PaymentMethod := CASH | QRIS | TRANSFER | OTHER.
Inductive TransactionStatus :=
  TxPENDING | TxPAID | TxCANCELLED | TxCOMPLETED.
Inductive ItemType := ItemPRODUCT | ItemMENU | ItemBOOKING.
Inductive ProductSellStatus := SellACTIVE | SellCANCELLED.
Inductive ProductRentStatus := RentACTIVE | RentRETURNED | RentCANCELLED.
Inductive CourtStatus := CourtACTIVE | CourtMAINTENANCE | CourtINACTIVE.
Inductive BookingStatus :=
  BkPENDING | BkCONFIRMED | BkCANCELLED | BkCOMPLETED.
Inductive PaymentStatus := UNPAID | PARTIAL | PAID.
Inductive OrderRequestStatus :=
  PENDING | APPROVED | PREPARING | SERVED | REJECTED | CANCELLED.
Inductive AdjustmentType := ADD | REMOVE | CORRECTION.
Inductive NotificationType := NtTRANSACTION | NtBOOKING | NtORDER_REQUEST.

Scheme Equality for ProductType.
Scheme Equality for TransactionType.
Scheme Equality for TransactionStatus.
Scheme Equality for ItemType.
Scheme Equality for CourtStatus.
Scheme Equality for BookingStatus.
Scheme Equality for OrderRequestStatus.
Scheme Equality for AdjustmentType.

(** JavaScript's [x || d] on an optional string: the empty string is
    falsy. *)
Definition orNull (s : option string) : option string :=
  match s with
  | Some EmptyString => None
  | other => other
  end.

(** ** Rows *)

Module Product.
Record t := mk {
  id : Id; name : string; price : Money; stock : Z;
  type : ProductType; isActive : bool; updatedAt : Timestamp }.
Definition set_stock (s : Z) (now : Timestamp) (p : t) : t :=
  mk (id p) (name p) (price p) s (type p) (isActive p) now.
End Product.

Module Menu.
(** [stock = None] is the NULL column: unlimited. *)
Record t := mk {
  id : Id; name : string; price : Money; stock : option Z;
  isActive : bool; updatedAt : Timestamp }.
Definition set_stock (s : Z) (now : Timestamp) (m : t) : t :=
  mk (id m) (name m) (price m) (Some s) (isActive m) now.
End Menu.

Module Table.
Record t := mk {
  id : Id; code : string; status : TableStatus;
  currentCustomerName : option string;
  currentCustomerPhone : option string;
  occupiedAt : option Timestamp;
  isActive : bool; updatedAt : Timestamp }.
Definition occupy (customer : option string) (now : Timestamp) (r : t) : t :=
  mk (id r) (code r) OCCUPIED customer (currentCustomerPhone r)
     (Some now) (isActive r) now.
Definition clear (now : Timestamp) (r : t) : t :=
  mk (id r) (code r) EMPTY None None None (isActive r) now.
End Table.

Module InvoiceNumber.
(** INV-YYYYMMDD-NNNN: the day and the sequence within the day. *)
Record t := mk { day : Z; sequence : Z }.
End InvoiceNumber.

Module Transaction.
Record t := mk {
  id : Id; invoiceNumber : InvoiceNumber.t; type : TransactionType;
  tableId : option Id; customerName : option string;
  totalAmount : Money; paidAmount : Money; changeAmount : Money;
  depositAmount : Money; fineAmount : Money;
  paymentMethod : PaymentMethod; status : TransactionStatus;
  createdBy : option Id; createdAt : Timestamp; updatedAt : Timestamp }.
Definition set_status (s : TransactionStatus) (now : Timestamp) (r : t) : t :=
  mk (id r) (invoiceNumber r) (type r) (tableId r) (customerName r)
     (totalAmount r) (paidAmount r) (changeAmount r) (depositAmount r)
     (fineAmount r) (paymentMethod r) s (createdBy r) (createdAt r) now.
Definition set_paid (m : PaymentMethod) (paid change : Money)
    (now : Timestamp) (r : t) : t :=
  mk (id r) (invoiceNumber r) (type r) (tableId r) (customerName r)
     (totalAmount r) paid change (depositAmount r)
     (fineAmount r) m TxPAID (createdBy r) (createdAt r) now.
End Transaction.

Module TransactionItem.
Record t := mk {
  id : Id; transactionId : Id; itemType : ItemType;
  productId : option Id; menuId : option Id;
  quantity : Z; unitPrice : Money; subtotal : Money;
  expectedReturnAt : option Timestamp; notes : option string }.
End TransactionItem.

Module ProductSellRecord.
Record t := mk {
  id : Id; transactionId : Id; productId : Id;
  quantity : Z; unitPrice : Money; subtotal : Money;
  status : ProductSellStatus }.
Definition set_status (s : ProductSellStatus) (r : t) : t :=
  mk (id r) (transactionId r) (productId r) (quantity r) (unitPrice r)
     (subtotal r) s.
End ProductSellRecord.

Module ProductRentRecord.
Record t := mk {
  id : Id; transactionId : Id; productId : Id;
  quantity : Z; unitPrice : Money; subtotal : Money;
  status : ProductRentStatus;
  expectedReturnAt : option Timestamp; returnedAt : option Timestamp;
  notes : option string }.
Definition set_status (s : ProductRentStatus) (r : t) : t :=
  mk (id r) (transactionId r) (productId r) (quantity r) (unitPrice r)
     (subtotal r) s (expectedReturnAt r) (returnedAt r) (notes r).
Definition set_returned (now : Timestamp) (r : t) : t :=
  mk (id r) (transactionId r) (productId r) (quantity r) (unitPrice r)
     (subtotal r) RentRETURNED (expectedReturnAt r) (Some now) (notes r).
End ProductRentRecord.

Module Court.
Record t := mk {
  id : Id; name : string; status : CourtStatus; pricePerHour : Money }.
End Court.

Module Booking.
(** [durationHours] is the decimal(10,2) column: hundredths of an hour. *)
Record t := mk {
  id : Id; bookingNumber : InvoiceNumber.t; courtId : Id;
  customerName : string; customerPhone : string;
  startTime : Timestamp; endTime : Timestamp;
  durationHours : Z; pricePerHour : Money; totalPrice : Money;
  paymentStatus : PaymentStatus; bookingStatus : BookingStatus;
  transactionId : option Id; createdBy : option Id;
  createdAt : Timestamp; updatedAt : Timestamp }.
Definition set_bookingStatus (s : BookingStatus) (now : Timestamp) (r : t) : t :=
  mk (id r) (bookingNumber r) (courtId r) (customerName r) (customerPhone r)
     (startTime r) (endTime r) (durationHours r) (pricePerHour r)
     (totalPrice r) (paymentStatus r) s (transactionId r) (createdBy r)
     (createdAt r) now.
End Booking.

Module OrderRequest.
Record t := mk {
  id : Id; tableId : Id; customerName : string; totalAmount : Money;
  status : OrderRequestStatus;
  approvedBy : option Id; approvedAt : option Timestamp;
  rejectedReason : option string; transactionId : option Id;
  updatedAt : Timestamp }.
End OrderRequest.

Module OrderRequestItem.
Record t := mk {
  id : Id; orderRequestId : Id; menuId : Id;
  quantity : Z; unitPrice : Money; subtotal : Money;
  notes : option string }.
End OrderRequestItem.

Module Inventory.
Record t := mk {
  id : Id; name : string; quantity : Z; updatedAt : Timestamp }.
Definition set_quantity (q : Z) (now : Timestamp) (r : t) : t :=
  mk (id r) (name r) q now.
End Inventory.

Module InventoryAdjustment.
Record t := mk {
  id : Id; inventoryId : Id; changeType : AdjustmentType;
  quantityBefore : Z; quantityAfter : Z; changeAmount : Z;
  reason : string; createdBy : Id }.
End InventoryAdjustment.

Module Notification.
Record t := mk { id : Id; type : NotificationType; subject : Id }.
End Notification.

(** ** The store *)

Record Store := mkStore {
  products : list Product.t;
  menus : list Menu.t;
  tables : list Table.t;
  transactions : list Transaction.t;
  transactionItems : list TransactionItem.t;
  productSellRecords : list ProductSellRecord.t;
  productRentRecords : list ProductRentRecord.t;
  courts : list Court.t;
  bookings : list Booking.t;
  orderRequests : list OrderRequest.t;
  orderRequestItems : list OrderRequestItem.t;
  inventories : list Inventory.t;
  inventoryAdjustments : list InventoryAdjustment.t;
  notifications : list Notification.t;
  nextId : Id }.

Definition on_products (f : list Product.t -> list Product.t) (s : Store) :=
  mkStore (f (products s)) (menus s) (tables s) (transactions s)
    (transactionItems s) (productSellRecords s) (productRentRecords s)
    (courts s) (bookings s) (orderRequests s) (orderRequestItems s)
    (inventories s) (inventoryAdjustments s) (notifications s) (nextId s).
Definition on_menus (f : list Menu.t -> list Menu.t) (s : Store) :=
  mkStore (products s) (f (menus s)) (tables s) (transactions s)
    (transactionItems s) (productSellRecords s) (productRentRecords s)
    (courts s) (bookings s) (orderRequests s) (orderRequestItems s)
    (inventories s) (inventoryAdjustments s) (notifications s) (nextId s).
Definition on_tables (f : list Table.t -> list Table.t) (s : Store) :=
  mkStore (products s) (menus s) (f (tables s)) (transactions s)
    (transactionItems s) (productSellRecords s) (productRentRecords s)
    (courts s) (bookings s) (orderRequests s) (orderRequestItems s)
    (inventories s) (inventoryAdjustments s) (notifications s) (nextId s).
Definition on_transactions
    (f : list Transaction.t -> list Transaction.t) (s : Store) :=
  mkStore (products s) (menus s) (tables s) (f (transactions s))
    (transactionItems s) (productSellRecords s) (productRentRecords s)
    (courts s) (bookings s) (orderRequests s) (orderRequestItems s)
    (inventories s) (inventoryAdjustments s) (notifications s) (nextId s).
Definition on_transactionItems
    (f : list TransactionItem.t -> list TransactionItem.t) (s : Store) :=
  mkStore (products s) (menus s) (tables s) (transactions s)
    (f (transactionItems s)) (productSellRecords s) (productRentRecords s)
    (courts s) (bookings s) (orderRequests s) (orderRequestItems s)
    (inventories s) (inventoryAdjustments s) (notifications s) (nextId s).
Definition on_productSellRecords
    (f : list ProductSellRecord.t -> list ProductSellRecord.t) (s : Store) :=
  mkStore (products s) (menus s) (tables s) (transactions s)
    (transactionItems s) (f (productSellRecords s)) (productRentRecords s)
    (courts s) (bookings s) (orderRequests s) (orderRequestItems s)
    (inventories s) (inventoryAdjustments s) (notifications s) (nextId s).
Definition on_productRentRecords
    (f : list ProductRentRecord.t -> list ProductRentRecord.t) (s : Store) :=
  mkStore (products s) (menus s) (tables s) (transactions s)
    (transactionItems s) (productSellRecords s) (f (productRentRecords s))
    (courts s) (bookings s) (orderRequests s) (orderRequestItems s)
    (inventories s) (inventoryAdjustments s) (notifications s) (nextId s).
Definition on_bookings (f : list Booking.t -> list Booking.t) (s : Store) :=
  mkStore (products s) (menus s) (tables s) (transactions s)
    (transactionItems s) (productSellRecords s) (productRentRecords s)
    (courts s) (f (bookings s)) (orderRequests s) (orderRequestItems s)
    (inventories s) (inventoryAdjustments s) (notifications s) (nextId s).
Definition on_orderRequests
    (f : list OrderRequest.t -> list OrderRequest.t) (s : Store) :=
  mkStore (products s) (menus s) (tables s) (transactions s)
    (transactionItems s) (productSellRecords s) (productRentRecords s)
    (courts s) (bookings s) (f (orderRequests s)) (orderRequestItems s)
    (inventories s) (inventoryAdjustments s) (notifications s) (nextId s).
Definition on_inventories
    (f : list Inventory.t -> list Inventory.t) (s : Store) :=
  mkStore (products s) (menus s) (tables s) (transactions s)
    (transactionItems s) (productSellRecords s) (productRentRecords s)
    (courts s) (bookings s) (orderRequests s) (orderRequestItems s)
    (f (inventories s)) (inventoryAdjustments s) (notifications s) (nextId s).
Definition on_inventoryAdjustments
    (f : list InventoryAdjustment.t -> list InventoryAdjustment.t)
    (s : Store) :=
  mkStore (products s) (menus s) (tables s) (transactions s)
    (transactionItems s) (productSellRecords s) (productRentRecords s)
    (courts s) (bookings s) (orderRequests s) (orderRequestItems s)
    (inventories s) (f (inventoryAdjustments s)) (notifications s) (nextId s).
Definition on_notifications
    (f : list Notification.t -> list Notification.t) (s : Store) :=
  mkStore (products s) (menus s) (tables s) (transactions s)
    (transactionItems s) (productSellRecords s) (productRentRecords s)
    (courts s) (bookings s) (orderRequests s) (orderRequestItems s)
    (inventories s) (inventoryAdjustments s) (f (notifications s)) (nextId s).
Definition bump_nextId (s : Store) :=
  mkStore (products s) (menus s) (tables s) (transactions s)
    (transactionItems s) (productSellRecords s) (productRentRecords s)
    (courts s) (bookings s) (orderRequests s) (orderRequestItems s)
    (inventories s) (inventoryAdjustments s) (notifications s) (nextId s + 1).

(** [update(t).set(f).where(p)] *)
Definition update_where {A} (p : A -> bool) (f : A -> A) (rows : list A) :=
  map (fun r => if p r then f r else r) rows.

(** [insert(t).values(r)] *)
Definition insert_row {A} (r : A) (rows : list A) := rows ++ [r].

(** ** Messages and responses (lib/response.ts) *)

Inductive Message :=
| ValidationError
| Unauthorized
| TableNotFound
| TableNotActive
| ProductNotFound (id : Id)
| ProductNotActive (name : string)
| MenuNotFound (id : Id)
| MenuNotActive (name : string)
| InsufficientStock (name : string) (available : Z)
| InsufficientPayment
| TransactionNotFound
| TransactionAlreadyCancelled
| OnlyRentalCanBeCompleted
| TransactionAlreadyCompleted
| CannotCompleteCancelled
| TransactionAlreadyPaid
| CannotPayCancelled
| InsufficientPaidAmount
| FailedTo (what : string)
| CourtNotFound
| CourtNotAvailable
| TimeSlotAlreadyBooked
| BookingNotFound
| BookingAlreadyCancelled
| OrderRequestNotFound
| CannotTransition (current requested : OrderRequestStatus)
| InventoryNotFound
| CannotRemoveMoreThanStock
| QuantityCannotBeNegative.

Inductive Response (A : Type) :=
| success (data : A) (code : Z)
| errorResponse (message : Message) (code : Z).
Arguments success {A} data code.
Arguments errorResponse {A} message code.

Definition is_success {A} (r : Response A) : bool :=
  match r with success _ _ => true | errorResponse _ _ => false end.

(** ** Units of work *)

Inductive Outcome (A : Type) :=
| Return (a : A)
| Throw (e : Message).
Arguments Return {A} a.
Arguments Throw {A} e.

Definition Tx (A : Type) := Store -> Outcome A * Store.

Definition ret {A} (a : A) : Tx A := fun s => (Return a, s).
Definition throw {A} (e : Message) : Tx A := fun s => (Throw e, s).
Definition bind {A B} (m : Tx A) (k : A -> Tx B) : Tx B :=
  fun s =>
    match m s with
    | (Return a, s') => k a s'
    | (Throw e, s') => (Throw e, s')
    end.
Definition query {A} (f : Store -> A) : Tx A := fun s => (Return (f s), s).
Definition exec (f : Store -> Store) : Tx unit := fun s => (Return tt, f s).
Definition fresh : Tx Id := fun s => (Return (nextId s), bump_nextId s).

Notation "x <- m ;; k" := (bind m (fun x => k))
  (at level 61, m at next level, right associativity).
Notation "m ;;; k" := (bind m (fun _ => k))
  (at level 61, right associativity).

(** [for (const x of xs) body(x)] *)
Fixpoint forEach {A} (xs : list A) (body : A -> Tx unit) : Tx unit :=
  match xs with
  | [] => ret tt
  | x :: rest => body x ;;; forEach rest body
  end.

(** [db.transaction(body)]: commit on return, roll back on throw. *)
Definition db_transaction {A} (body : Tx A) (s : Store) : Outcome A * Store :=
  match body s with
  | (Return a, s') => (Return a, s')
  | (Throw e, _) => (Throw e, s)
  end.

(** ** Notifications (notification.controller.ts)

    [createNotification] inserts one row and swallows its own failures;
    the fan-out to live listeners is outside the store. *)
Definition createNotification (type : NotificationType) (subject : Id)
    (s : Store) : Store :=
  bump_nextId
    (on_notifications (insert_row (Notification.mk (nextId s) type subject)) s).

(** ** Invoice and booking numbers

    The date part is the UTC day of [now]; the sequence counts the rows
    created between the start and the end of the day, both inclusive, on
    the committed store, plus one.  The server's zone is taken to be
    UTC. *)
Definition msPerDay : Z := 86400000.
Definition dayOf (now : Timestamp) : Z := now / msPerDay.
Definition startOfDay (now : Timestamp) : Timestamp := dayOf now * msPerDay.
Definition endOfDay (now : Timestamp) : Timestamp :=
  (dayOf now + 1) * msPerDay.

Definition countToday {A} (createdAt : A -> Timestamp) (now : Timestamp)
    (rows : list A) : Z :=
  Z.of_nat (List.length (filter
    (fun r => (startOfDay now <=? createdAt r) && (createdAt r <=? endOfDay now))
    rows)).

Definition generateInvoiceNumber (now : Timestamp) (committed : Store)
    : InvoiceNumber.t :=
  InvoiceNumber.mk (dayOf now)
    (countToday Transaction.createdAt now (transactions committed) + 1).

Definition generateBookingNumber (now : Timestamp) (committed : Store)
    : InvoiceNumber.t :=
  InvoiceNumber.mk (dayOf now)
    (countToday Booking.createdAt now (bookings committed) + 1).

(** ** Transaction engine (transaction.controller.ts) *)

Module ItemInput.
Record t := mk {
  itemType : ItemType; id : Id; quantity : Z;
  expectedReturnAt : option Timestamp; notes : option string }.
End ItemInput.

Module CreateTransactionBody.
Record t := mk {
  type : TransactionType; tableId : option Id;
  customerName : option string; paymentMethod : PaymentMethod;
  paidAmount : Money; depositAmount : option Money;
  items : list ItemInput.t }.
End CreateTransactionBody.

(** validators/transaction.validator.ts *)
Definition transactionItemSchema (i : ItemInput.t) : bool :=
  match ItemInput.itemType i with
  | ItemPRODUCT | ItemMENU => 0 <? ItemInput.quantity i
  | ItemBOOKING => false
  end.

Definition createTransactionSchema (b : CreateTransactionBody.t) : bool :=
  match CreateTransactionBody.type b with
  | POS | RENTAL => true
  | BOOKING => false
  end
  && (0 <=? CreateTransactionBody.paidAmount b)
  && match CreateTransactionBody.depositAmount b with
     | Some d => 0 <=? d
     | None => true
     end
  && forallb transactionItemSchema (CreateTransactionBody.items b)
  && (1 <=? Z.of_nat (List.length (CreateTransactionBody.items b))).

Definition findProduct (id : Id) (s : Store) : option Product.t :=
  find (fun p => Product.id p =? id) (products s).
Definition findMenu (id : Id) (s : Store) : option Menu.t :=
  find (fun m => Menu.id m =? id) (menus s).
Definition findTable (id : Id) (s : Store) : option Table.t :=
  find (fun r => Table.id r =? id) (tables s).
Definition findTransaction (id : Id) (s : Store) : option Transaction.t :=
  find (fun r => Transaction.id r =? id) (transactions s).

Definition setProductStock (id : Id) (stock : Z) (now : Timestamp) : Tx unit :=
  exec (on_products
    (update_where (fun p => Product.id p =? id) (Product.set_stock stock now))).
Definition setMenuStock (id : Id) (stock : Z) (now : Timestamp) : Tx unit :=
  exec (on_menus
    (update_where (fun m => Menu.id m =? id) (Menu.set_stock stock now))).

(** An entry of [processedItems]: a transaction item before it has its
    keys. *)
Module ProcessedItem.
Record t := mk {
  itemType : ItemType; productId : option Id; menuId : option Id;
  quantity : Z; unitPrice : Money; subtotal : Money;
  expectedReturnAt : option Timestamp; notes : option string }.
Definition row (id transactionId : Id) (i : t) : TransactionItem.t :=
  TransactionItem.mk id transactionId (itemType i) (productId i) (menuId i)
    (quantity i) (unitPrice i) (subtotal i) (expectedReturnAt i) (notes i).
End ProcessedItem.

(** An entry of [productSellItems] or [productRentItems]. *)
Module MovementItem.
Record t := mk {
  productId : Id; quantity : Z; unitPrice : Money; subtotal : Money;
  expectedReturnAt : option Timestamp; notes : option string }.
End MovementItem.

(** The variables the item loop of [createTransaction] accumulates. *)
Module Locals.
Record t := mk {
  totalAmount : Money;
  processedItems : list ProcessedItem.t;
  productSellItems : list MovementItem.t;
  productRentItems : list MovementItem.t }.
Definition init : t := mk 0 [] [] [].
End Locals.

(** One turn of [for (const item of items)]. *)
Definition processItem (type : TransactionType) (now : Timestamp)
    (item : ItemInput.t) (acc : Locals.t) : Tx Locals.t :=
  match ItemInput.itemType item with
  | ItemPRODUCT =>
      found <- query (findProduct (ItemInput.id item)) ;;
      match found with
      | None => throw (ProductNotFound (ItemInput.id item))
      | Some product =>
          if negb (Product.isActive product)
          then throw (ProductNotActive (Product.name product))
          else
            (if ProductType_beq (Product.type product) SELL
                || TransactionType_beq type RENTAL
             then
               if Product.stock product <? ItemInput.quantity item
               then throw (InsufficientStock (Product.name product)
                                             (Product.stock product))
               else setProductStock (ItemInput.id item)
                      (Product.stock product - ItemInput.quantity item) now
             else ret tt) ;;;
            let unitPrice := Product.price product in
            let subtotal := unitPrice * ItemInput.quantity item in
            let movement :=
              MovementItem.mk (ItemInput.id item) (ItemInput.quantity item)
                unitPrice subtotal (ItemInput.expectedReturnAt item)
                (ItemInput.notes item) in
            ret (Locals.mk
              (Locals.totalAmount acc + subtotal)
              (Locals.processedItems acc ++
                 [ProcessedItem.mk ItemPRODUCT (Some (ItemInput.id item)) None
                    (ItemInput.quantity item) unitPrice subtotal
                    (ItemInput.expectedReturnAt item)
                    (orNull (ItemInput.notes item))])
              (match Product.type product with
               | SELL => Locals.productSellItems acc ++ [movement]
               | RENT => Locals.productSellItems acc
               end)
              (match Product.type product with
               | SELL => Locals.productRentItems acc
               | RENT => Locals.productRentItems acc ++ [movement]
               end))
      end
  | ItemMENU =>
      found <- query (findMenu (ItemInput.id item)) ;;
      match found with
      | None => throw (MenuNotFound (ItemInput.id item))
      | Some menu =>
          if negb (Menu.isActive menu)
          then throw (MenuNotActive (Menu.name menu))
          else
            match Menu.stock menu with
            | Some stock =>
                if stock <? ItemInput.quantity item
                then throw (InsufficientStock (Menu.name menu) stock)
                else setMenuStock (ItemInput.id item)
                       (stock - ItemInput.quantity item) now
            | None => ret tt
            end ;;;
            let unitPrice := Menu.price menu in
            let subtotal := unitPrice * ItemInput.quantity item in
            ret (Locals.mk
              (Locals.totalAmount acc + subtotal)
              (Locals.processedItems acc ++
                 [ProcessedItem.mk ItemMENU None (Some (ItemInput.id item))
                    (ItemInput.quantity item) unitPrice subtotal None None])
              (Locals.productSellItems acc)
              (Locals.productRentItems acc))
      end
  | ItemBOOKING => ret acc
  end.

Fixpoint processItems (type : TransactionType) (now : Timestamp)
    (items : list ItemInput.t) (acc : Locals.t) : Tx Locals.t :=
  match items with
  | [] => ret acc
  | item :: rest =>
      acc' <- processItem type now item acc ;;
      processItems type now rest acc'
  end.

(** [for (const item of processedItems) insertedItems.push(insert ...)] *)
Fixpoint insertItems (transactionId : Id) (items : list ProcessedItem.t)
    : Tx (list TransactionItem.t) :=
  match items with
  | [] => ret []
  | item :: rest =>
      id <- fresh ;;
      let insertedItem := ProcessedItem.row id transactionId item in
      exec (on_transactionItems (insert_row insertedItem)) ;;;
      inserted <- insertItems transactionId rest ;;
      ret (insertedItem :: inserted)
  end.

Definition orZero (m : option Money) : Money :=
  match m with Some d => d | None => 0 end.

(** The callback of [db.transaction] in [createTransaction], after its
    item loop: the payment check and the rows it persists. *)
Definition persistTransaction (user : Id) (now : Timestamp)
    (committed : Store) (b : CreateTransactionBody.t) (acc : Locals.t)
    : Tx (Transaction.t * list TransactionItem.t) :=
  let type := CreateTransactionBody.type b in
  let tableId := CreateTransactionBody.tableId b in
  let customerName := CreateTransactionBody.customerName b in
  let paidAmount := CreateTransactionBody.paidAmount b in
  let totalAmount := Locals.totalAmount acc in
  let changeAmount := paidAmount - totalAmount in
  if changeAmount <? 0 then throw InsufficientPayment
  else
    let invoiceNumber := generateInvoiceNumber now committed in
    id <- fresh ;;
    let transaction :=
      Transaction.mk id invoiceNumber type tableId (orNull customerName)
        totalAmount paidAmount changeAmount
        (orZero (CreateTransactionBody.depositAmount b)) 0
        (CreateTransactionBody.paymentMethod b) TxPAID (Some user) now now in
    exec (on_transactions (insert_row transaction)) ;;;
    insertedItems <- insertItems id (Locals.processedItems acc) ;;
    forEach (Locals.productSellItems acc) (fun sellItem =>
      rid <- fresh ;;
      exec (on_productSellRecords (insert_row
        (ProductSellRecord.mk rid id (MovementItem.productId sellItem)
           (MovementItem.quantity sellItem) (MovementItem.unitPrice sellItem)
           (MovementItem.subtotal sellItem) SellACTIVE)))) ;;;
    forEach (Locals.productRentItems acc) (fun rentItem =>
      rid <- fresh ;;
      exec (on_productRentRecords (insert_row
        (ProductRentRecord.mk rid id (MovementItem.productId rentItem)
           (MovementItem.quantity rentItem) (MovementItem.unitPrice rentItem)
           (MovementItem.subtotal rentItem) RentACTIVE
           (MovementItem.expectedReturnAt rentItem) None
           (MovementItem.notes rentItem))))) ;;;
    match tableId with
    | Some tid =>
        exec (on_tables (update_where (fun r => Table.id r =? tid)
                (Table.occupy (orNull customerName) now)))
    | None => ret tt
    end ;;;
    ret (transaction, insertedItems).

(** The callback of [db.transaction] in [createTransaction]. *)
Definition createTransactionUnit (user : Id) (now : Timestamp)
    (committed : Store) (b : CreateTransactionBody.t)
    : Tx (Transaction.t * list TransactionItem.t) :=
  acc <- processItems (CreateTransactionBody.type b) now
           (CreateTransactionBody.items b) Locals.init ;;
  persistTransaction user now committed b acc.

(** [if (tableId) { ... }]: the early returns that guard the unit. *)
Definition validateTable (tableId : option Id) (s : Store)
    : option (Message * Z) :=
  match tableId with
  | Some tid =>
      match findTable tid s with
      | None => Some (TableNotFound, 404)
      | Some table =>
          if negb (Table.isActive table)
          then Some (TableNotActive, 400) else None
      end
  | None => None
  end.

(** POST /transactions *)
Definition createTransaction (user : Id) (now : Timestamp)
    (b : CreateTransactionBody.t) (s : Store)
    : Response (Transaction.t * list TransactionItem.t) * Store :=
  if negb (createTransactionSchema b)
  then (errorResponse ValidationError 400, s)
  else
    match validateTable (CreateTransactionBody.tableId b) s with
    | Some (message, code) => (errorResponse message code, s)
    | None =>
        match db_transaction (createTransactionUnit user now s b) s with
        | (Return result, s') =>
            (success result 201,
             createNotification NtTRANSACTION (Transaction.id (fst result)) s')
        | (Throw e, s') => (errorResponse e 500, s')
        end
    end.

Definition itemsOf (transactionId : Id) (s : Store) : list TransactionItem.t :=
  filter (fun i => TransactionItem.transactionId i =? transactionId)
         (transactionItems s).

Definition clearTable (tableId : option Id) (now : Timestamp) : Tx unit :=
  match tableId with
  | Some tid =>
      exec (on_tables (update_where (fun r => Table.id r =? tid)
              (Table.clear now)))
  | None => ret tt
  end.

(** One turn of the restore loop of [cancelTransaction]. *)
Definition restoreItem (now : Timestamp) (item : TransactionItem.t) : Tx unit :=
  match TransactionItem.itemType item, TransactionItem.productId item,
        TransactionItem.menuId item with
  | ItemPRODUCT, Some productId, _ =>
      found <- query (findProduct productId) ;;
      match found with
      | Some product =>
          setProductStock productId
            (Product.stock product + TransactionItem.quantity item) now
      | None => ret tt
      end
  | ItemMENU, _, Some menuId =>
      found <- query (findMenu menuId) ;;
      match found with
      | Some menu =>
          match Menu.stock menu with
          | Some stock =>
              setMenuStock menuId (stock + TransactionItem.quantity item) now
          | None => ret tt
          end
      | None => ret tt
      end
  | _, _, _ => ret tt
  end.

Definition cancelTransactionUnit (now : Timestamp) (id : Id)
    (transaction : Transaction.t) (items : list TransactionItem.t) : Tx unit :=
  forEach items (restoreItem now) ;;;
  exec (on_productSellRecords
    (update_where (fun r => ProductSellRecord.transactionId r =? id)
       (ProductSellRecord.set_status SellCANCELLED))) ;;;
  exec (on_productRentRecords
    (update_where (fun r => ProductRentRecord.transactionId r =? id)
       (ProductRentRecord.set_status RentCANCELLED))) ;;;
  exec (on_transactions
    (update_where (fun r => Transaction.id r =? id)
       (Transaction.set_status TxCANCELLED now))) ;;;
  clearTable (Transaction.tableId transaction) now.

(** PATCH /transactions/:id/cancel *)
Definition cancelTransaction (now : Timestamp) (id : Id) (s : Store)
    : Response Id * Store :=
  match findTransaction id s with
  | None => (errorResponse TransactionNotFound 404, s)
  | Some transaction =>
      if TransactionStatus_beq (Transaction.status transaction) TxCANCELLED
      then (errorResponse TransactionAlreadyCancelled 400, s)
      else
        match db_transaction
                (cancelTransactionUnit now id transaction (itemsOf id s)) s with
        | (Return _, s') => (success id 200, s')
        | (Throw _, s') =>
            (errorResponse (FailedTo "cancel transaction") 500, s')
        end
  end.

(** One turn of the restore loop of [completeTransaction]: rental
    products only. *)
Definition returnItem (now : Timestamp) (item : TransactionItem.t) : Tx unit :=
  match TransactionItem.itemType item, TransactionItem.productId item with
  | ItemPRODUCT, Some productId =>
      found <- query (findProduct productId) ;;
      match found with
      | Some product =>
          match Product.type product with
          | RENT =>
              setProductStock productId
                (Product.stock product + TransactionItem.quantity item) now
          | SELL => ret tt
          end
      | None => ret tt
      end
  | _, _ => ret tt
  end.

Definition completeTransactionUnit (now : Timestamp) (id : Id)
    (transaction : Transaction.t) : Tx unit :=
  items <- query (itemsOf id) ;;
  forEach items (returnItem now) ;;;
  exec (on_productRentRecords
    (update_where (fun r => ProductRentRecord.transactionId r =? id)
       (ProductRentRecord.set_returned now))) ;;;
  exec (on_transactions
    (update_where (fun r => Transaction.id r =? id)
       (Transaction.set_status TxCOMPLETED now))) ;;;
  clearTable (Transaction.tableId transaction) now.

(** PATCH /transactions/:id/complete *)
Definition completeTransaction (now : Timestamp) (id : Id) (s : Store)
    : Response Id * Store :=
  match findTransaction id s with
  | None => (errorResponse TransactionNotFound 404, s)
  | Some transaction =>
      if negb (TransactionType_beq (Transaction.type transaction) RENTAL)
      then (errorResponse OnlyRentalCanBeCompleted 400, s)
      else if TransactionStatus_beq (Transaction.status transaction) TxCOMPLETED
      then (errorResponse TransactionAlreadyCompleted 400, s)
      else if TransactionStatus_beq (Transaction.status transaction) TxCANCELLED
      then (errorResponse CannotCompleteCancelled 400, s)
      else
        match db_transaction (completeTransactionUnit now id transaction) s with
        | (Return _, s') => (success id 200, s')
        | (Throw _, s') =>
            (errorResponse (FailedTo "complete transaction") 500, s')
        end
  end.

(** PATCH /transactions/:id/pay *)
Definition payTransaction (now : Timestamp) (id : Id)
    (paymentMethod : PaymentMethod) (paidAmount : Money) (s : Store)
    : Response (option Transaction.t) * Store :=
  if negb (0 <=? paidAmount) then (errorResponse ValidationError 400, s)
  else
    match findTransaction id s with
    | None => (errorResponse TransactionNotFound 404, s)
    | Some transaction =>
        if TransactionStatus_beq (Transaction.status transaction) TxPAID
        then (errorResponse TransactionAlreadyPaid 400, s)
        else if TransactionStatus_beq (Transaction.status transaction) TxCANCELLED
        then (errorResponse CannotPayCancelled 400, s)
        else
          let changeAmount := paidAmount - Transaction.totalAmount transaction in
          if changeAmount <? 0
          then (errorResponse InsufficientPaidAmount 400, s)
          else
            let s' := on_transactions
              (update_where (fun r => Transaction.id r =? id)
                 (Transaction.set_paid paymentMethod paidAmount changeAmount now))
              s in
            (success (findTransaction id s') 200, s')
    end.

(** ** Booking engine (booking.controller.ts) *)

Module CreateBookingBody.
Record t := mk {
  courtId : Id; customerName : string; customerPhone : string;
  startTime : Timestamp; endTime : Timestamp;
  paymentStatus : option PaymentStatus; paidAmount : option Money }.
End CreateBookingBody.

Definition msPerHour : Z := 1000 * 60 * 60.

(** The duration in hours, as the handler and the validator compute it. *)
Definition hoursBetween (start finish : Timestamp) : Q :=
  (inject_Z (finish - start) / inject_Z msPerHour)%Q.

Definition nonEmpty (s : string) : bool :=
  match s with EmptyString => false | _ => true end.

(** validators/booking.validator.ts, without the defaults. *)
Definition createBookingSchema (b : CreateBookingBody.t) : bool :=
  nonEmpty (CreateBookingBody.customerName b)
  && nonEmpty (CreateBookingBody.customerPhone b)
  && match CreateBookingBody.paidAmount b with
     | Some p => 0 <=? p
     | None => true
     end
  && (CreateBookingBody.startTime b <? CreateBookingBody.endTime b)
  && Qle_bool 1 (hoursBetween (CreateBookingBody.startTime b)
                              (CreateBookingBody.endTime b)).

(** The schema's defaults: [paymentStatus] UNPAID, [paidAmount] 0. *)
Definition defaultPaymentStatus (p : option PaymentStatus) : PaymentStatus :=
  match p with Some v => v | None => UNPAID end.

(** [Number.prototype.toFixed] at the scale of the column: the nearest
    integer, a tie going away from zero. *)
Definition toFixed2 (x : Q) : Z :=
  if Qle_bool 0 x then Qfloor (x + (1 # 2))%Q
  else - Qfloor (- x + (1 # 2))%Q.

Definition findCourt (id : Id) (s : Store) : option Court.t :=
  find (fun c => Court.id c =? id) (courts s).
Definition findBooking (id : Id) (s : Store) : option Booking.t :=
  find (fun b => Booking.id b =? id) (bookings s).

(** The [where] clause of the availability query. *)
Definition overlaps (courtId : Id) (start finish : Timestamp)
    (b : Booking.t) : bool :=
  (Booking.courtId b =? courtId)
  && negb (BookingStatus_beq (Booking.bookingStatus b) BkCANCELLED)
  && ((Booking.startTime b <? finish) && (Booking.endTime b >? start)).

Definition createBookingUnit (user : option Id) (now : Timestamp)
    (committed : Store) (court : Court.t) (b : CreateBookingBody.t)
    (bookingNumber : InvoiceNumber.t) (durationHours totalPrice : Q)
    (paidAmount : Money) (paymentStatus : PaymentStatus)
    (bookingStatus : BookingStatus) : Tx (Booking.t * Transaction.t) :=
  let invoiceNumber := generateInvoiceNumber now committed in
  tid <- fresh ;;
  let transaction :=
    Transaction.mk tid invoiceNumber BOOKING None
      (Some (CreateBookingBody.customerName b))
      (toFixed2 totalPrice) paidAmount
      (toFixed2 (if Qle_bool 0 (inject_Z paidAmount - totalPrice)
                 then inject_Z paidAmount - totalPrice else 0)%Q)
      0 0 CASH
      (if Qle_bool totalPrice (inject_Z paidAmount) then TxPAID else TxPENDING)
      user now now in
  exec (on_transactions (insert_row transaction)) ;;;
  bid <- fresh ;;
  let booking :=
    Booking.mk bid bookingNumber (CreateBookingBody.courtId b)
      (CreateBookingBody.customerName b) (CreateBookingBody.customerPhone b)
      (CreateBookingBody.startTime b) (CreateBookingBody.endTime b)
      (toFixed2 (durationHours * 100)%Q) (Court.pricePerHour court)
      (toFixed2 totalPrice) paymentStatus bookingStatus (Some tid) user
      now now in
  exec (on_bookings (insert_row booking)) ;;;
  iid <- fresh ;;
  exec (on_transactionItems (insert_row
    (TransactionItem.mk iid tid ItemBOOKING None None 1
       (toFixed2 totalPrice) (toFixed2 totalPrice) None
       (Some (String.append "Court Booking: " (Court.name court)))))) ;;;
  ret (booking, transaction).

(** POST /bookings *)
Definition createBooking (user : option Id) (now : Timestamp)
    (b : CreateBookingBody.t) (s : Store)
    : Response (Booking.t * Transaction.t) * Store :=
  if negb (createBookingSchema b)
  then (errorResponse ValidationError 400, s)
  else
    let courtId := CreateBookingBody.courtId b in
    let initialPaymentStatus :=
      defaultPaymentStatus (CreateBookingBody.paymentStatus b) in
    let paidAmount := orZero (CreateBookingBody.paidAmount b) in
    match findCourt courtId s with
    | None => (errorResponse CourtNotFound 404, s)
    | Some court =>
        if negb (CourtStatus_beq (Court.status court) CourtACTIVE)
        then (errorResponse CourtNotAvailable 400, s)
        else
          let start := CreateBookingBody.startTime b in
          let finish := CreateBookingBody.endTime b in
          match find (overlaps courtId start finish) (bookings s) with
          | Some _ => (errorResponse TimeSlotAlreadyBooked 409, s)
          | None =>
              let durationHours := hoursBetween start finish in
              let pricePerHour := inject_Z (Court.pricePerHour court) in
              let totalPrice := (durationHours * pricePerHour)%Q in
              let fullyPaid := Qle_bool totalPrice (inject_Z paidAmount) in
              let bookingStatus := if fullyPaid then BkCONFIRMED else BkPENDING in
              let paymentStatus :=
                if fullyPaid then PAID
                else if 0 <? paidAmount then PARTIAL
                else initialPaymentStatus in
              let bookingNumber := generateBookingNumber now s in
              match db_transaction
                      (createBookingUnit user now s court b bookingNumber
                         durationHours totalPrice paidAmount paymentStatus
                         bookingStatus) s with
              | (Return result, s') =>
                  (success result 201,
                   createNotification NtBOOKING (Booking.id (fst result)) s')
              | (Throw _, s') =>
                  (errorResponse (FailedTo "create booking") 500, s')
              end
          end
    end.

(** PATCH /bookings/:id/cancel *)
Definition cancelBooking (now : Timestamp) (id : Id) (s : Store)
    : Response Id * Store :=
  match findBooking id s with
  | None => (errorResponse BookingNotFound 404, s)
  | Some booking =>
      if BookingStatus_beq (Booking.bookingStatus booking) BkCANCELLED
      then (errorResponse BookingAlreadyCancelled 400, s)
      else
        let work : Tx unit :=
          exec (on_bookings (update_where (fun r => Booking.id r =? id)
                  (Booking.set_bookingStatus BkCANCELLED now))) ;;;
          match Booking.transactionId booking with
          | Some tid =>
              exec (on_transactions
                (update_where (fun r => Transaction.id r =? tid)
                   (Transaction.set_status TxCANCELLED now)))
          | None => ret tt
          end in
        match db_transaction work s with
        | (Return _, s') => (success id 200, s')
        | (Throw _, s') => (errorResponse (FailedTo "cancel booking") 500, s')
        end
  end.

(** PATCH /bookings/:id/complete *)
Definition completeBooking (now : Timestamp) (id : Id) (s : Store)
    : Response Booking.t * Store :=
  let s' := on_bookings (update_where (fun r => Booking.id r =? id)
              (Booking.set_bookingStatus BkCOMPLETED now)) s in
  match findBooking id s' with
  | None => (errorResponse BookingNotFound 404, s')
  | Some updated => (success updated 200, s')
  end.

(** ** Order-request workflow (order-request.controller.ts) *)

Module UpdateStatusBody.
Record t := mk {
  status : OrderRequestStatus; rejectedReason : option string }.
End UpdateStatusBody.

(** validators/order-request.validator.ts: the five statuses a request
    may name. *)
Definition updateOrderRequestStatusSchema (b : UpdateStatusBody.t) : bool :=
  match UpdateStatusBody.status b with
  | APPROVED | PREPARING | SERVED | REJECTED | CANCELLED => true
  | PENDING => false
  end.

Definition validTransitions (current : OrderRequestStatus)
    : list OrderRequestStatus :=
  match current with
  | PENDING => [APPROVED; REJECTED; CANCELLED]
  | APPROVED => [PREPARING; CANCELLED]
  | PREPARING => [SERVED; CANCELLED]
  | SERVED => []
  | REJECTED => []
  | CANCELLED => []
  end.

Definition includes (allowed : list OrderRequestStatus)
    (status : OrderRequestStatus) : bool :=
  existsb (OrderRequestStatus_beq status) allowed.

Definition findOrderRequest (id : Id) (s : Store) : option OrderRequest.t :=
  find (fun r => OrderRequest.id r =? id) (orderRequests s).
Definition orderItemsOf (id : Id) (s : Store) : list OrderRequestItem.t :=
  filter (fun i => OrderRequestItem.orderRequestId i =? id)
         (orderRequestItems s).

(** [updateValues] applied to a row: the columns the handler put in it
    are overwritten, the others kept. *)
Definition applyUpdateValues (status : OrderRequestStatus) (now : Timestamp)
    (user : Id) (rejectedReason : option string) (transactionId : option Id)
    (r : OrderRequest.t) : OrderRequest.t :=
  OrderRequest.mk (OrderRequest.id r) (OrderRequest.tableId r)
    (OrderRequest.customerName r) (OrderRequest.totalAmount r) status
    (match status with APPROVED => Some user | _ => OrderRequest.approvedBy r end)
    (match status with APPROVED => Some now | _ => OrderRequest.approvedAt r end)
    (match status with
     | REJECTED => orNull rejectedReason
     | _ => OrderRequest.rejectedReason r
     end)
    (match transactionId with
     | Some t => Some t
     | None => OrderRequest.transactionId r
     end)
    now.

(** One turn of the item loop of the SERVED branch. *)
Definition serveItem (now : Timestamp) (transactionId : Id)
    (item : OrderRequestItem.t) : Tx unit :=
  found <- query (findMenu (OrderRequestItem.menuId item)) ;;
  match found with
  | Some menu =>
      match Menu.stock menu with
      | Some stock =>
          if stock <? OrderRequestItem.quantity item
          then throw (InsufficientStock (Menu.name menu) stock)
          else setMenuStock (OrderRequestItem.menuId item)
                 (stock - OrderRequestItem.quantity item) now
      | None => ret tt
      end
  | None => ret tt
  end ;;;
  iid <- fresh ;;
  exec (on_transactionItems (insert_row
    (TransactionItem.mk iid transactionId ItemMENU None
       (Some (OrderRequestItem.menuId item)) (OrderRequestItem.quantity item)
       (OrderRequestItem.unitPrice item) (OrderRequestItem.subtotal item)
       None (OrderRequestItem.notes item)))).

Definition servedTransaction (id : Id) (invoiceNumber : InvoiceNumber.t)
    (existing : OrderRequest.t) (user : Id) (now : Timestamp) : Transaction.t :=
  Transaction.mk id invoiceNumber POS (Some (OrderRequest.tableId existing))
    (Some (OrderRequest.customerName existing))
    (OrderRequest.totalAmount existing) 0 0 0 0 OTHER TxPENDING
    (Some user) now now.

Definition updateOrderRequestStatusUnit (user : Id) (now : Timestamp)
    (committed : Store) (id : Id) (existing : OrderRequest.t)
    (items : list OrderRequestItem.t) (b : UpdateStatusBody.t)
    : Tx (option OrderRequest.t * option Transaction.t) :=
  let status := UpdateStatusBody.status b in
  created <-
    match status with
    | SERVED =>
        let invoiceNumber := generateInvoiceNumber now committed in
        tid <- fresh ;;
        let transaction :=
          servedTransaction tid invoiceNumber existing user now in
        exec (on_transactions (insert_row transaction)) ;;;
        forEach items (serveItem now tid) ;;;
        ret (Some transaction)
    | _ => ret None
    end ;;
  exec (on_orderRequests
    (update_where (fun r => OrderRequest.id r =? id)
       (applyUpdateValues status now user (UpdateStatusBody.rejectedReason b)
          (option_map Transaction.id created)))) ;;;
  updated <- query (findOrderRequest id) ;;
  ret (updated, created).

(** PATCH /order-requests/:id/status *)
Definition updateOrderRequestStatus (user : option Id) (now : Timestamp)
    (id : Id) (b : UpdateStatusBody.t) (s : Store)
    : Response (option OrderRequest.t * option Transaction.t) * Store :=
  if negb (updateOrderRequestStatusSchema b)
  then (errorResponse ValidationError 400, s)
  else
    match user with
    | None => (errorResponse Unauthorized 401, s)
    | Some userId =>
        match findOrderRequest id s with
        | None => (errorResponse OrderRequestNotFound 404, s)
        | Some existing =>
            let status := UpdateStatusBody.status b in
            let allowedTransitions :=
              validTransitions (OrderRequest.status existing) in
            if negb (includes allowedTransitions status)
            then (errorResponse
                    (CannotTransition (OrderRequest.status existing) status)
                    400, s)
            else
              match db_transaction
                      (updateOrderRequestStatusUnit userId now s id existing
                         (orderItemsOf id s) b) s with
              | (Return result, s') => (success result 200, s')
              | (Throw _, s') =>
                  (errorResponse (FailedTo "update order request status") 500,
                   s')
              end
        end
    end.

(** ** Inventory adjustment ledger (inventory.controller.ts) *)

Module AdjustmentBody.
Record t := mk { changeType : AdjustmentType; amount : Z; reason : string }.
End AdjustmentBody.

(** validators/inventory.validator.ts *)
Definition inventoryAdjustmentSchema (b : AdjustmentBody.t) : bool :=
  (0 <? AdjustmentBody.amount b) && nonEmpty (AdjustmentBody.reason b).

Definition findInventory (id : Id) (s : Store) : option Inventory.t :=
  find (fun r => Inventory.id r =? id) (inventories s).

Definition adjustInventoryUnit (user : Id) (now : Timestamp) (id : Id)
    (b : AdjustmentBody.t) (quantityBefore quantityAfter changeAmount : Z)
    : Tx unit :=
  aid <- fresh ;;
  exec (on_inventoryAdjustments (insert_row
    (InventoryAdjustment.mk aid id (AdjustmentBody.changeType b)
       quantityBefore quantityAfter changeAmount (AdjustmentBody.reason b)
       user))) ;;;
  exec (on_inventories
    (update_where (fun r => Inventory.id r =? id)
       (Inventory.set_quantity quantityAfter now))).

(** PATCH /inventories/:id/adjust *)
Definition adjustInventoryStock (user : Id) (now : Timestamp) (id : Id)
    (b : AdjustmentBody.t) (s : Store)
    : Response (option Inventory.t) * Store :=
  if negb (inventoryAdjustmentSchema b)
  then (errorResponse ValidationError 400, s)
  else
    match findInventory id s with
    | None => (errorResponse InventoryNotFound 404, s)
    | Some inventory =>
        let amount := AdjustmentBody.amount b in
        let quantityBefore := Inventory.quantity inventory in
        let computed : Z + Message :=
          match AdjustmentBody.changeType b with
          | ADD => inl (quantityBefore + amount)
          | REMOVE =>
              let quantityAfter := quantityBefore - amount in
              if quantityAfter <? 0 then inr CannotRemoveMoreThanStock
              else inl quantityAfter
          | CORRECTION =>
              let quantityAfter := amount in
              if quantityAfter <? 0 then inr QuantityCannotBeNegative
              else inl quantityAfter
          end in
        match computed with
        | inr message => (errorResponse message 409, s)
        | inl quantityAfter =>
            let changeAmount := quantityAfter - quantityBefore in
            match db_transaction
                    (adjustInventoryUnit user now id b quantityBefore
                       quantityAfter changeAmount) s with
            | (Return _, s') => (success (findInventory id s') 200, s')
            | (Throw _, s') =>
                (errorResponse (FailedTo "adjust inventory stock") 500, s')
            end
        end
    end.

(** * Vocabulary of the properties *)

Definition sumZ (l : list Z) : Z := fold_right Z.add 0 l.

(** ** Stock read-outs *)

Definition productStock (id : Id) (s : Store) : option Z :=
  option_map Product.stock (findProduct id s).

(** The stock rule applies to a product: it is for sale, or the
    transaction is a rental. *)
Definition stockChecked (type : TransactionType) (p : Product.t) : bool :=
  ProductType_beq (Product.type p) SELL || TransactionType_beq type RENTAL.

Definition isProductItem (id : Id) (i : ItemInput.t) : bool :=
  ItemType_beq (ItemInput.itemType i) ItemPRODUCT && (ItemInput.id i =? id).
Definition isMenuItem (id : Id) (i : ItemInput.t) : bool :=
  ItemType_beq (ItemInput.itemType i) ItemMENU && (ItemInput.id i =? id).

(** What the items of one request ask of one product, of one menu. *)
Definition productDemand (id : Id) (items : list ItemInput.t) : Z :=
  sumZ (map ItemInput.quantity (filter (isProductItem id) items)).
Definition menuDemand (id : Id) (items : list ItemInput.t) : Z :=
  sumZ (map ItemInput.quantity (filter (isMenuItem id) items)).

(** The catalog price of the record an item names. *)
Definition catalogPrice (s : Store) (i : ItemInput.t) : option Money :=
  match ItemInput.itemType i with
  | ItemPRODUCT => option_map Product.price (findProduct (ItemInput.id i) s)
  | ItemMENU => option_map Menu.price (findMenu (ItemInput.id i) s)
  | ItemBOOKING => None
  end.

(** ** The order-request state table, as the specification words it *)

Inductive SpecTransition : OrderRequestStatus -> OrderRequestStatus -> Prop :=
| PendingApproved : SpecTransition PENDING APPROVED
| PendingRejected : SpecTransition PENDING REJECTED
| PendingCancelled : SpecTransition PENDING CANCELLED
| ApprovedPreparing : SpecTransition APPROVED PREPARING
| ApprovedCancelled : SpecTransition APPROVED CANCELLED
| PreparingServed : SpecTransition PREPARING SERVED
| PreparingCancelled : SpecTransition PREPARING CANCELLED.

Definition orderStatus (id : Id) (s : Store) : option OrderRequestStatus :=
  option_map OrderRequest.status (findOrderRequest id s).

(** ** Inventory adjustments *)


(** ** Sample data *)

Module Sample.
Definition racket : Product.t :=
  Product.mk 1 "Racket"%string 5000000 5 RENT true 0.
Definition balls : Product.t :=
  Product.mk 2 "Balls"%string 7500000 10 SELL true 0.
Definition coffee : Menu.t :=
  Menu.mk 3 "Coffee"%string 2500000 (Some 4) true 0.
Definition water : Menu.t :=
  Menu.mk 4 "Water"%string 500000 None true 0.
Definition table1 : Table.t :=
  Table.mk 5 "T1"%string EMPTY None None None true 0.
Definition courtA : Court.t :=
  Court.mk 6 "Court A"%string CourtACTIVE 10000000.
Definition towels : Inventory.t :=
  Inventory.mk 7 "Towels"%string 12 0.
Definition order1 : OrderRequest.t :=
  OrderRequest.mk 8 5 "Dewi"%string 5500000 PREPARING None None None None 0.
Definition order1Items : list OrderRequestItem.t :=
  [OrderRequestItem.mk 9 8 3 2 2500000 5000000 None;
   OrderRequestItem.mk 10 8 4 1 500000 500000 None].
Definition order2 : OrderRequest.t :=
  OrderRequest.mk 11 5 "Budi"%string 500000 SERVED None None None None 0.
Definition store : Store :=
  mkStore [racket; balls] [coffee; water] [table1] [] [] [] []
    [courtA] [] [order1; order2] order1Items [towels] [] [] 100.
Definition user : Id := 50.
End Sample.

(** ** Bookings *)

(** Two bookings hold the same court over intersecting half-open
    intervals, neither being cancelled. *)
Definition conflict (a b : Booking.t) : Prop :=
  Booking.courtId a = Booking.courtId b
  /\ Booking.bookingStatus a <> BkCANCELLED
  /\ Booking.bookingStatus b <> BkCANCELLED
  /\ Booking.startTime a < Booking.endTime b
  /\ Booking.endTime a > Booking.startTime b.

(** No two rows of the bookings table are in conflict. *)
Definition noDoubleBooking (s : Store) : Prop :=
  forall (i j : nat) (a b : Booking.t),
    i <> j ->
    nth_error (bookings s) i = Some a ->
    nth_error (bookings s) j = Some b ->
    ~ conflict a b.

(** What the overlap query of a request looks for. *)
Definition clashesWith (b : CreateBookingBody.t) (existing : Booking.t)
    : Prop :=
  Booking.courtId existing = CreateBookingBody.courtId b
  /\ Booking.bookingStatus existing <> BkCANCELLED
  /\ Booking.startTime existing < CreateBookingBody.endTime b
  /\ Booking.endTime existing > CreateBookingBody.startTime b.

Module BookingCall.
Record t := mk {
  user : option Id; now : Timestamp; body : CreateBookingBody.t }.
End BookingCall.



Module Scenario.
(** 10:00-12:00 and 11:00-13:00 of day 0 on court A. *)
Definition first : CreateBookingBody.t :=
  CreateBookingBody.mk 6 "Ani" "0811" 36000000 43200000 None None.
Definition second : CreateBookingBody.t :=
  CreateBookingBody.mk 6 "Budi" "0812" 39600000 46800000 None None.
Definition s1 : Store := snd (createBooking None 1000 first Sample.store).
Definition s2 : Store := snd (cancelBooking 2000 101 s1).
Definition s3 : Store := snd (createBooking None 3000 second s2).
Definition s4 : Store := snd (completeBooking 4000 101 s3).
End Scenario.

(** ** The locals of the item loop after one turn *)
Definition productEntry (item : ItemInput.t) (p : Product.t) (acc : Locals.t)
    : Locals.t :=
  let unitPrice := Product.price p in
  let subtotal := unitPrice * ItemInput.quantity item in
  let movement :=
    MovementItem.mk (ItemInput.id item) (ItemInput.quantity item)
      unitPrice subtotal (ItemInput.expectedReturnAt item)
      (ItemInput.notes item) in
  Locals.mk
    (Locals.totalAmount acc + subtotal)
    (Locals.processedItems acc ++
       [ProcessedItem.mk ItemPRODUCT (Some (ItemInput.id item)) None
          (ItemInput.quantity item) unitPrice subtotal
          (ItemInput.expectedReturnAt item) (orNull (ItemInput.notes item))])
    (match Product.type p with
     | SELL => Locals.productSellItems acc ++ [movement]
     | RENT => Locals.productSellItems acc
     end)
    (match Product.type p with
     | SELL => Locals.productRentItems acc
     | RENT => Locals.productRentItems acc ++ [movement]
     end).

Definition menuEntry (item : ItemInput.t) (m : Menu.t) (acc : Locals.t)
    : Locals.t :=
  let unitPrice := Menu.price m in
  let subtotal := unitPrice * ItemInput.quantity item in
  Locals.mk
    (Locals.totalAmount acc + subtotal)
    (Locals.processedItems acc ++
       [ProcessedItem.mk ItemMENU None (Some (ItemInput.id item))
          (ItemInput.quantity item) unitPrice subtotal None None])
    (Locals.productSellItems acc)
    (Locals.productRentItems acc).

(** ** The catalog across a unit of work *)

(** Two catalog rows that differ at most in stock and time stamp. *)
Definition sameProduct (p p' : Product.t) : Prop :=
  Product.id p' = Product.id p /\ Product.name p' = Product.name p
  /\ Product.price p' = Product.price p /\ Product.type p' = Product.type p
  /\ Product.isActive p' = Product.isActive p.
Definition sameMenu (m m' : Menu.t) : Prop :=
  Menu.id m' = Menu.id m /\ Menu.name m' = Menu.name m
  /\ Menu.price m' = Menu.price m /\ Menu.isActive m' = Menu.isActive m.

(** The catalog of [s'] is the catalog of [s] with the stock the items
    asked for taken out: of the products the stock rule applies to, of
    the menus whose stock is tracked. *)
Definition productsAfter (type : TransactionType) (items : list ItemInput.t)
    (s s' : Store) : Prop :=
  forall id,
    match findProduct id s with
    | Some p =>
        exists p', findProduct id s' = Some p' /\ sameProduct p p'
          /\ Product.stock p'
             = Product.stock p
               - (if stockChecked type p then productDemand id items else 0)
    | None => findProduct id s' = None
    end.
Definition menusAfter (items : list ItemInput.t) (s s' : Store) : Prop :=
  forall id,
    match findMenu id s with
    | Some m =>
        exists m', findMenu id s' = Some m' /\ sameMenu m m'
          /\ Menu.stock m'
             = option_map (fun stock => stock - menuDemand id items)
                 (Menu.stock m)
    | None => findMenu id s' = None
    end.

(** [s'] has the catalog and the ledger tables of [s]. *)
Definition sameCatalogAndLedger (s s' : Store) : Prop :=
  products s' = products s /\ menus s' = menus s
  /\ transactions s' = transactions s
  /\ transactionItems s' = transactionItems s.



(** Six tubes of balls, then five more, in one request. *)
Definition elevenBalls : CreateTransactionBody.t :=
  CreateTransactionBody.mk POS None (Some "Ani"%string) CASH 100000000 None
    [ItemInput.mk ItemPRODUCT 2 6 None None;
     ItemInput.mk ItemPRODUCT 2 5 None None].


(** The request of the scenario "paidAmount less than total": two tubes
    of balls, nothing paid. *)
Definition unpaidBalls : CreateTransactionBody.t :=
  CreateTransactionBody.mk POS (Some 5) (Some "Ani"%string) CASH 0 None
    [ItemInput.mk ItemPRODUCT 2 2 None None].


(** ** Order requests served *)






(** ** Transactions cancelled *)

Module Rental.
(** Two rackets rented, paid exactly; the catalog has five. *)
Definition request : CreateTransactionBody.t :=
  CreateTransactionBody.mk RENTAL None (Some "Ani"%string) CASH 10000000 None
    [ItemInput.mk ItemPRODUCT 1 2 None None].
Definition created : Store :=
  snd (createTransaction Sample.user 1000 request Sample.store).
Definition completed : Store := snd (completeTransaction 2000 100 created).
Definition cancelled : Store := snd (cancelTransaction 3000 100 completed).
(** The same transaction cancelled without having been completed. *)
Definition cancelledAtOnce : Store := snd (cancelTransaction 3000 100 created).
End Rental.

Module Counter.
(** Two rackets put on a POS transaction: the stock rule does not apply
    to a RENT product there. *)
Definition request : CreateTransactionBody.t :=
  CreateTransactionBody.mk POS None (Some "Ani"%string) CASH 10000000 None
    [ItemInput.mk ItemPRODUCT 1 2 None None].
Definition created : Store :=
  snd (createTransaction Sample.user 1000 request Sample.store).
Definition cancelled : Store := snd (cancelTransaction 3000 100 created).
End Counter.

(** * Further handlers and their routers

    The handlers below answer with messages of their own; they reply
    through [Reply], which is [Response] over the handler's own error
    type. *)

Inductive Reply (E A : Type) :=
| replied (data : A) (code : Z)
| refused (error : E) (code : Z).
Arguments replied {E A} data code.
Arguments refused {E A} error code.

Definition is_replied {E A} (r : Reply E A) : bool :=
  match r with replied _ _ => true | refused _ _ => false end.

(** ** Rent returns (product-rent.controller.ts) *)

Inductive RentError := RentRecordNotFound | RentRecordNotActive.

Module ReturnRentBody.
(** [returnedAt] is optional in the schema: now when absent. *)
Record t := mk { returnedAt : option Timestamp }.
End ReturnRentBody.

Definition findRentRecord (id : Id) (s : Store) : option ProductRentRecord.t :=
  find (fun r => ProductRentRecord.id r =? id) (productRentRecords s).

(** PATCH /product-rents/:id/return.  The record is read together with
    its product; the two updates run one after the other, outside any
    unit of work. *)
Definition returnRentRecord (now : Timestamp) (id : Id)
    (b : ReturnRentBody.t) (s : Store)
    : Reply RentError (option ProductRentRecord.t) * Store :=
  match findRentRecord id s with
  | None => (refused RentRecordNotFound 404, s)
  | Some record =>
      match ProductRentRecord.status record with
      | RentACTIVE =>
          let product := findProduct (ProductRentRecord.productId record) s in
          let returnedAt :=
            match ReturnRentBody.returnedAt b with
            | Some t => t
            | None => now
            end in
          let s1 := on_productRentRecords
            (update_where (fun r => ProductRentRecord.id r =? id)
               (ProductRentRecord.set_returned returnedAt)) s in
          let updatedRecord := findRentRecord id s1 in
          let s2 :=
            match product with
            | Some p =>
                on_products
                  (update_where
                     (fun r => Product.id r =? ProductRentRecord.productId record)
                     (Product.set_stock
                        (Product.stock p + ProductRentRecord.quantity record)
                        now)) s1
            | None => s1
            end in
          (replied updatedRecord 200, s2)
      | _ => (refused RentRecordNotActive 400, s)
      end
  end.

(** ** Court availability (booking.controller.ts) *)

Module BookedSlot.
Record t := mk {
  startTime : Timestamp; endTime : Timestamp; bookingStatus : BookingStatus }.
End BookedSlot.

(** The [where] clause of the availability query. *)
Definition bookedOn (courtId : Id) (dayStart dayEnd : Timestamp)
    (b : Booking.t) : bool :=
  (Booking.courtId b =? courtId)
  && negb (BookingStatus_beq (Booking.bookingStatus b) BkCANCELLED)
  && ((dayStart <=? Booking.startTime b) && (Booking.startTime b <? dayEnd)).

(** GET /bookings/availability/:id.  [date] is the parsed query
    parameter, today's UTC date when absent; the day ends one calendar
    day later.  The court itself is not looked up. *)
Definition getCourtAvailability (now : Timestamp) (courtId : Id)
    (date : option Timestamp) (s : Store) : Response (list BookedSlot.t) :=
  let dayStart :=
    match date with
    | Some d => d
    | None => startOfDay now
    end in
  let dayEnd := dayStart + msPerDay in
  success
    (map (fun b => BookedSlot.mk (Booking.startTime b) (Booking.endTime b)
                     (Booking.bookingStatus b))
       (filter (bookedOn courtId dayStart dayEnd) (bookings s)))
    200.

(** ** Order requests placed (order-request.controller.ts) *)

Inductive OrderError :=
| OrderValidationError
| InvalidTableCode
| SomeMenusNotFound.

Module OrderItemInput.
(** [unitPrice] and [subtotal] arrive as decimal strings of at most two
    fraction digits: hundredths here. *)
Record t := mk {
  menuId : Id; quantity : Z; unitPrice : Money; subtotal : Money;
  notes : option string }.
End OrderItemInput.

Module CreateOrderBody.
Record t := mk {
  tableCode : string; customerName : string;
  items : list OrderItemInput.t; notes : option string }.
End CreateOrderBody.

(** validators/order-request.validator.ts *)
Definition orderRequestItemSchema (i : OrderItemInput.t) : bool :=
  (0 <? OrderItemInput.quantity i)
  && (0 <=? OrderItemInput.unitPrice i)
  && (0 <=? OrderItemInput.subtotal i).

Definition createOrderRequestSchema (b : CreateOrderBody.t) : bool :=
  nonEmpty (CreateOrderBody.tableCode b)
  && nonEmpty (CreateOrderBody.customerName b)
  && forallb orderRequestItemSchema (CreateOrderBody.items b)
  && (1 <=? Z.of_nat (List.length (CreateOrderBody.items b))).

(** [findFirst] of the active table with a code. *)
Definition findActiveTable (code : string) (s : Store) : option Table.t :=
  find (fun r => String.eqb (Table.code r) code && Table.isActive r)
       (tables s).

(** POST /order-requests/validate-table *)
Definition validateTableQr (code : string) (s : Store)
    : Reply OrderError (option Table.t) :=
  if negb (nonEmpty code) then refused OrderValidationError 400
  else replied (findActiveTable code s) 200.

(** [findMany] of the menus whose id is IN the list. *)
Definition menusIn (menuIds : list Id) (s : Store) : list Menu.t :=
  filter (fun m => existsb (Z.eqb (Menu.id m)) menuIds) (menus s).

Definition orderItemRow (id orderRequestId : Id) (i : OrderItemInput.t)
    : OrderRequestItem.t :=
  OrderRequestItem.mk id orderRequestId (OrderItemInput.menuId i)
    (OrderItemInput.quantity i) (OrderItemInput.unitPrice i)
    (OrderItemInput.subtotal i) (orNull (OrderItemInput.notes i)).

(** The rows of one multi-row [insert ... values (...)], keyed in
    order. *)
Fixpoint orderItemRows (next orderRequestId : Id)
    (items : list OrderItemInput.t) : list OrderRequestItem.t :=
  match items with
  | [] => []
  | i :: rest =>
      orderItemRow next orderRequestId i
      :: orderItemRows (next + 1) orderRequestId rest
  end.

Definition on_orderRequestItems
    (f : list OrderRequestItem.t -> list OrderRequestItem.t) (s : Store) :=
  mkStore (products s) (menus s) (tables s) (transactions s)
    (transactionItems s) (productSellRecords s) (productRentRecords s)
    (courts s) (bookings s) (orderRequests s) (f (orderRequestItems s))
    (inventories s) (inventoryAdjustments s) (notifications s) (nextId s).

(** [n] keys drawn at once. *)
Definition take_nextIds (n : nat) (s : Store) :=
  mkStore (products s) (menus s) (tables s) (transactions s)
    (transactionItems s) (productSellRecords s) (productRentRecords s)
    (courts s) (bookings s) (orderRequests s) (orderRequestItems s)
    (inventories s) (inventoryAdjustments s) (notifications s)
    (nextId s + Z.of_nat n).

(** POST /order-requests.  The order number (the date and four random
    characters) and the order's notes are columns outside
    [OrderRequest.t]. *)
Definition createOrderRequest (now : Timestamp) (b : CreateOrderBody.t)
    (s : Store)
    : Reply OrderError (OrderRequest.t * list OrderRequestItem.t) * Store :=
  if negb (createOrderRequestSchema b)
  then (refused OrderValidationError 400, s)
  else
    let items := CreateOrderBody.items b in
    match findActiveTable (CreateOrderBody.tableCode b) s with
    | None => (refused InvalidTableCode 400, s)
    | Some table =>
        let menuIds := map OrderItemInput.menuId items in
        let menuRecords := menusIn menuIds s in
        if negb (Nat.eqb (List.length menuRecords) (List.length menuIds))
        then (refused SomeMenusNotFound 400, s)
        else
          let totalAmount :=
            fold_left (fun sum item => sum + OrderItemInput.subtotal item)
              items 0 in
          let orderRequest :=
            OrderRequest.mk (nextId s) (Table.id table)
              (CreateOrderBody.customerName b) totalAmount PENDING
              None None None None now in
          let s1 := on_orderRequests (insert_row orderRequest) (bump_nextId s) in
          let orderItems :=
            orderItemRows (nextId s1) (OrderRequest.id orderRequest) items in
          let s2 :=
            take_nextIds (List.length orderItems)
              (on_orderRequestItems (fun rows => rows ++ orderItems) s1) in
          (replied (orderRequest, orderItems) 201,
           createNotification NtORDER_REQUEST (OrderRequest.id orderRequest) s2)
    end.

(** ** Routers (routes/*.route.ts, middleware/auth.middleware.ts) *)

Inductive Role := OWNER | ADMIN | KASIR.
Scheme Equality for Role.

Module JWTPayload.
Record t := mk { userId : Id; role : Role }.
End JWTPayload.

(** What a router answers: a middleware's refusal, with its status, or
    the handler's response. *)
Inductive Routed (A : Type) :=
| Denied (code : Z)
| Handled (response : A).
Arguments Denied {A} code.
Arguments Handled {A} response.

(** [verifyTokenMiddleware].  [bearer] is what [verifyToken] makes of
    the Authorization header: [None] when the header is missing, is not
    a Bearer header, or carries an invalid token. *)
Definition verifyTokenMiddleware {A} (bearer : option JWTPayload.t)
    (next : option JWTPayload.t -> Routed A * Store) (s : Store)
    : Routed A * Store :=
  match bearer with
  | None => (Denied 401, s)
  | Some payload => next (Some payload)
  end.

(** [requireRole(allowedRoles)] *)
Definition requireRole {A} (allowedRoles : list Role)
    (user : option JWTPayload.t)
    (next : JWTPayload.t -> Routed A * Store) (s : Store)
    : Routed A * Store :=
  match user with
  | None => (Denied 401, s)
  | Some payload =>
      if negb (existsb (Role_beq (JWTPayload.role payload)) allowedRoles)
      then (Denied 403, s)
      else next payload
  end.

Definition ownerAdminAccess : list Role := [OWNER; ADMIN].
Definition kasirAccess : list Role := [OWNER; ADMIN; KASIR].

(** The response of the handler a request was routed to. *)
Inductive Answer :=
| TransactionCreated
    (r : Response (Transaction.t * list TransactionItem.t))
| TransactionCancelled (r : Response Id)
| TransactionCompleted (r : Response Id)
| TransactionPaid (r : Response (option Transaction.t))
| BookingCreated (r : Response (Booking.t * Transaction.t))
| BookingCancelled (r : Response Id)
| BookingCompleted (r : Response Booking.t)
| OrderRequestCreated
    (r : Reply OrderError (OrderRequest.t * list OrderRequestItem.t))
| OrderRequestUpdated
    (r : Response (option OrderRequest.t * option Transaction.t))
| RentReturned (r : Reply RentError (option ProductRentRecord.t))
| InventoryAdjusted (r : Response (option Inventory.t)).

Definition handled {A} (tag : A -> Answer) (r : A * Store)
    : Routed Answer * Store :=
  (Handled (tag (fst r)), snd r).

(** The mutating routes of transaction.route.ts, booking.route.ts,
    order-request.route.ts, product-rent.route.ts and
    inventory.route.ts. *)
Inductive Request :=
| PostTransaction (body : CreateTransactionBody.t)
| PatchTransactionCancel (id : Id)
| PatchTransactionComplete (id : Id)
| PatchTransactionPay (id : Id) (paymentMethod : PaymentMethod)
    (paidAmount : Money)
| PostBooking (body : CreateBookingBody.t)
| PatchBookingCancel (id : Id)
| PatchBookingComplete (id : Id)
| PostOrderRequest (body : CreateOrderBody.t)
| PatchOrderRequestStatus (id : Id) (body : UpdateStatusBody.t)
| PatchRentReturn (id : Id) (body : ReturnRentBody.t)
| PatchInventoryAdjust (id : Id) (body : AdjustmentBody.t).

(** The routers.  The booking router puts no middleware before
    [createBooking], so that handler never sees a user; the
    order-request router puts none before [createOrderRequest]. *)
Definition route (bearer : option JWTPayload.t) (now : Timestamp)
    (request : Request) (s : Store) : Routed Answer * Store :=
  let guarded (allowedRoles : list Role)
      (handler : JWTPayload.t -> Routed Answer * Store) :=
    verifyTokenMiddleware bearer
      (fun user => requireRole allowedRoles user handler s) s in
  match request with
  | PostTransaction body =>
      guarded kasirAccess (fun user =>
        handled TransactionCreated
          (createTransaction (JWTPayload.userId user) now body s))
  | PatchTransactionCancel id =>
      guarded ownerAdminAccess (fun _ =>
        handled TransactionCancelled (cancelTransaction now id s))
  | PatchTransactionComplete id =>
      guarded ownerAdminAccess (fun _ =>
        handled TransactionCompleted (completeTransaction now id s))
  | PatchTransactionPay id paymentMethod paidAmount =>
      guarded kasirAccess (fun _ =>
        handled TransactionPaid
          (payTransaction now id paymentMethod paidAmount s))
  | PostBooking body =>
      handled BookingCreated (createBooking None now body s)
  | PatchBookingCancel id =>
      guarded ownerAdminAccess (fun _ =>
        handled BookingCancelled (cancelBooking now id s))
  | PatchBookingComplete id =>
      guarded kasirAccess (fun _ =>
        handled BookingCompleted (completeBooking now id s))
  | PostOrderRequest body =>
      handled OrderRequestCreated (createOrderRequest now body s)
  | PatchOrderRequestStatus id body =>
      guarded kasirAccess (fun user =>
        handled OrderRequestUpdated
          (updateOrderRequestStatus (Some (JWTPayload.userId user)) now id
             body s))
  | PatchRentReturn id body =>
      guarded ownerAdminAccess (fun _ =>
        handled RentReturned (returnRentRecord now id body s))
  | PatchInventoryAdjust id body =>
      guarded ownerAdminAccess (fun user =>
        handled InventoryAdjusted
          (adjustInventoryStock (JWTPayload.userId user) now id body s))
  end.

(** * Vocabulary of the further properties *)

(** ** Stock given back *)

(** A transaction item names a product, a menu, for the restore loops
    of [cancelTransaction] and [completeTransaction]. *)
Definition namesProduct (id : Id) (i : TransactionItem.t) : bool :=
  match TransactionItem.itemType i, TransactionItem.productId i with
  | ItemPRODUCT, Some productId => productId =? id
  | _, _ => false
  end.
Definition namesMenu (id : Id) (i : TransactionItem.t) : bool :=
  match TransactionItem.itemType i, TransactionItem.menuId i with
  | ItemMENU, Some menuId => menuId =? id
  | _, _ => false
  end.

(** The quantities the items of a transaction carry for one product,
    for one menu. *)
Definition productQuantity (id : Id) (items : list TransactionItem.t) : Z :=
  sumZ (map TransactionItem.quantity (filter (namesProduct id) items)).
Definition menuQuantity (id : Id) (items : list TransactionItem.t) : Z :=
  sumZ (map TransactionItem.quantity (filter (namesMenu id) items)).

(** The catalog of [s'] is the catalog of [s] with those quantities
    given back: to the products of the types [applies] selects, to the
    menus whose stock is tracked. *)
Definition productsRestored (applies : ProductType -> bool)
    (items : list TransactionItem.t) (s s' : Store) : Prop :=
  forall id,
    match findProduct id s with
    | Some p =>
        exists p', findProduct id s' = Some p' /\ sameProduct p p'
          /\ Product.stock p'
             = Product.stock p
               + (if applies (Product.type p)
                  then productQuantity id items else 0)
    | None => findProduct id s' = None
    end.
Definition menusRestored (items : list TransactionItem.t) (s s' : Store)
    : Prop :=
  forall id,
    match findMenu id s with
    | Some m =>
        exists m', findMenu id s' = Some m' /\ sameMenu m m'
          /\ Menu.stock m'
             = option_map (fun stock => stock + menuQuantity id items)
                 (Menu.stock m)
    | None => findMenu id s' = None
    end.

Definition everyType (t : ProductType) : bool := true.
Definition rentOnly (t : ProductType) : bool :=
  match t with RENT => true | SELL => false end.

(** [s'] is [s] but for its products and menus. *)
Definition withCatalog (ps : list Product.t) (ms : list Menu.t) (s : Store)
    : Store :=
  mkStore ps ms (tables s) (transactions s) (transactionItems s)
    (productSellRecords s) (productRentRecords s) (courts s) (bookings s)
    (orderRequests s) (orderRequestItems s) (inventories s)
    (inventoryAdjustments s) (notifications s) (nextId s).
Definition onlyCatalogChanged (s s' : Store) : Prop :=
  s' = withCatalog (products s') (menus s') s.

(** The rows of a transaction's group after [cancelTransaction] or
    [completeTransaction]. *)
Definition tableReleased (tableId : option Id) (s : Store) : Prop :=
  forall tid row,
    tableId = Some tid -> In row (tables s) -> Table.id row = tid ->
    Table.status row = EMPTY
    /\ Table.currentCustomerName row = None
    /\ Table.currentCustomerPhone row = None
    /\ Table.occupiedAt row = None.

(** ** Sample ledger *)

Module Ledger.
(** The store after the rental of [Rental.request]: transaction 100,
    PAID, with one rent record. *)
Definition rented : Store := Rental.created.
End Ledger.

(** ** Stock that stays non-negative *)

Definition stockNonNegative (s : Store) : Prop :=
  Forall (fun p => 0 <= Product.stock p) (products s)
  /\ Forall (fun m => forall stock, Menu.stock m = Some stock -> 0 <= stock)
       (menus s).

(** What the restore loop of [cancelTransaction] does over [items]. *)
Definition restoredAll (items : list TransactionItem.t) (s s' : Store)
    : Prop :=
  productsRestored everyType items s s'
  /\ menusRestored items s s'
  /\ onlyCatalogChanged s s'
  /\ (stockNonNegative s ->
      Forall (fun i => 0 <= TransactionItem.quantity i) items ->
      stockNonNegative s').

(** What the restore loop of [completeTransaction] does over [items]. *)
Definition returnedRentals (items : list TransactionItem.t) (s s' : Store)
    : Prop :=
  productsRestored rentOnly items s s'
  /\ menus s' = menus s
  /\ onlyCatalogChanged s s'
  /\ (stockNonNegative s ->
      Forall (fun i => 0 <= TransactionItem.quantity i) items ->
      stockNonNegative s').

(** The tables [cancelTransaction], [completeTransaction] and
    [payTransaction] never write. *)
Definition sameElsewhere (s s' : Store) : Prop :=
  transactionItems s' = transactionItems s
  /\ courts s' = courts s
  /\ bookings s' = bookings s
  /\ orderRequests s' = orderRequests s
  /\ orderRequestItems s' = orderRequestItems s
  /\ inventories s' = inventories s
  /\ inventoryAdjustments s' = inventoryAdjustments s
  /\ notifications s' = notifications s
  /\ nextId s' = nextId s.

(** The tables after the table of a transaction is cleared. *)
Definition tablesCleared (tableId : option Id) (now : Timestamp) (s : Store)
    : list Table.t :=
  match tableId with
  | Some tid =>
      update_where (fun r => Table.id r =? tid) (Table.clear now) (tables s)
  | None => tables s
  end.

(** The time [returnRentRecord] writes: the body's, else the call's. *)
Definition returnTime (now : Timestamp) (b : ReturnRentBody.t) : Timestamp :=
  match ReturnRentBody.returnedAt b with
  | Some t => t
  | None => now
  end.

(** ** Availability *)

(** The day [getCourtAvailability] reports on. *)
Definition dayAsked (now : Timestamp) (date : option Timestamp) : Timestamp :=
  match date with
  | Some d => d
  | None => startOfDay now
  end.

Definition slotOf (b : Booking.t) : BookedSlot.t :=
  BookedSlot.mk (Booking.startTime b) (Booking.endTime b)
    (Booking.bookingStatus b).

(** The slots of a response. *)
Definition slotsOf (r : Response (list BookedSlot.t)) : list BookedSlot.t :=
  match r with
  | success slots _ => slots
  | errorResponse _ _ => []
  end.

Module Overnight.
(** 23:00 of day 0 to 01:00 of day 1 on court A, then a request for
    00:00-01:00 of day 1. *)
Definition late : CreateBookingBody.t :=
  CreateBookingBody.mk 6 "Ani" "0811" 82800000 90000000 None None.
Definition early : CreateBookingBody.t :=
  CreateBookingBody.mk 6 "Budi" "0812" 86400000 90000000 None None.
Definition booked : Store := snd (createBooking None 1000 late Sample.store).
End Overnight.

(** ** Orders placed *)



Module Orders.
(** Two coffees at table T1, on one line and on two. *)
Definition oneLine : CreateOrderBody.t :=
  CreateOrderBody.mk "T1" "Dewi"
    [OrderItemInput.mk 3 2 2500000 5000000 None] None.
End Orders.

(** ** What a request can write *)

(** A unit of work leaves a read-out of the store as it found it,
    whatever it returns or throws. *)
Definition keeps {A B} (proj : Store -> A) (m : Tx B) : Prop :=
  forall s, proj (snd (m s)) = proj s.

Inductive StoreTable :=
| ProductsTable | MenusTable | TablesTable | TransactionsTable
| TransactionItemsTable | ProductSellRecordsTable | ProductRentRecordsTable
| CourtsTable | BookingsTable | OrderRequestsTable | OrderRequestItemsTable
| InventoriesTable | InventoryAdjustmentsTable | NotificationsTable.

(** The tables the handler behind a route has statements for. *)
Definition writes (request : Request) : list StoreTable :=
  match request with
  | PostTransaction _ =>
      [ProductsTable; MenusTable; TablesTable; TransactionsTable;
       TransactionItemsTable; ProductSellRecordsTable;
       ProductRentRecordsTable; NotificationsTable]
  | PatchTransactionCancel _ =>
      [ProductsTable; MenusTable; TablesTable; TransactionsTable;
       ProductSellRecordsTable; ProductRentRecordsTable]
  | PatchTransactionComplete _ =>
      [ProductsTable; TablesTable; TransactionsTable; ProductRentRecordsTable]
  | PatchTransactionPay _ _ _ => [TransactionsTable]
  | PostBooking _ =>
      [TransactionsTable; TransactionItemsTable; BookingsTable;
       NotificationsTable]
  | PatchBookingCancel _ => [BookingsTable; TransactionsTable]
  | PatchBookingComplete _ => [BookingsTable]
  | PostOrderRequest _ =>
      [OrderRequestsTable; OrderRequestItemsTable; NotificationsTable]
  | PatchOrderRequestStatus _ _ =>
      [MenusTable; TransactionsTable; TransactionItemsTable;
       OrderRequestsTable]
  | PatchRentReturn _ _ => [ProductsTable; ProductRentRecordsTable]
  | PatchInventoryAdjust _ _ =>
      [InventoriesTable; InventoryAdjustmentsTable]
  end.

(** A read-out of the store that a write to [table] does not change. *)
Definition apart {A} (proj : Store -> A) (table : StoreTable) : Prop :=
  match table with
  | ProductsTable => forall f s, proj (on_products f s) = proj s
  | MenusTable => forall f s, proj (on_menus f s) = proj s
  | TablesTable => forall f s, proj (on_tables f s) = proj s
  | TransactionsTable => forall f s, proj (on_transactions f s) = proj s
  | TransactionItemsTable =>
      forall f s, proj (on_transactionItems f s) = proj s
  | ProductSellRecordsTable =>
      forall f s, proj (on_productSellRecords f s) = proj s
  | ProductRentRecordsTable =>
      forall f s, proj (on_productRentRecords f s) = proj s
  | CourtsTable => True
  | BookingsTable => forall f s, proj (on_bookings f s) = proj s
  | OrderRequestsTable => forall f s, proj (on_orderRequests f s) = proj s
  | OrderRequestItemsTable =>
      forall f s, proj (on_orderRequestItems f s) = proj s
  | InventoriesTable => forall f s, proj (on_inventories f s) = proj s
  | InventoryAdjustmentsTable =>
      forall f s, proj (on_inventoryAdjustments f s) = proj s
  | NotificationsTable => forall f s, proj (on_notifications f s) = proj s
  end.

(** A read-out that does not depend on the keys still to be drawn. *)
Definition keyless {A} (proj : Store -> A) : Prop :=
  (forall s, proj (bump_nextId s) = proj s)
  /\ (forall n s, proj (take_nextIds n s) = proj s).

(** The tables outside [written] are the same in [s] and [s']. *)
Definition unwritten (written : list StoreTable) (s s' : Store) : Prop :=
  (~ In ProductsTable written -> products s' = products s)
  /\ (~ In MenusTable written -> menus s' = menus s)
  /\ (~ In TablesTable written -> tables s' = tables s)
  /\ (~ In TransactionsTable written -> transactions s' = transactions s)
  /\ (~ In TransactionItemsTable written ->
      transactionItems s' = transactionItems s)
  /\ (~ In ProductSellRecordsTable written ->
      productSellRecords s' = productSellRecords s)
  /\ (~ In ProductRentRecordsTable written ->
      productRentRecords s' = productRentRecords s)
  /\ (~ In CourtsTable written -> courts s' = courts s)
  /\ (~ In BookingsTable written -> bookings s' = bookings s)
  /\ (~ In OrderRequestsTable written -> orderRequests s' = orderRequests s)
  /\ (~ In OrderRequestItemsTable written ->
      orderRequestItems s' = orderRequestItems s)
  /\ (~ In InventoriesTable written -> inventories s' = inventories s)
  /\ (~ In InventoryAdjustmentsTable written ->
      inventoryAdjustments s' = inventoryAdjustments s)
  /\ (~ In NotificationsTable written -> notifications s' = notifications s).

(** ** Requests served one after the other *)

Module Call.
Record t := mk {
  bearer : option JWTPayload.t; now : Timestamp; request : Request }.
End Call.

Definition serve (calls : list Call.t) (s : Store) : Store :=
  fold_left
    (fun s c => snd (route (Call.bearer c) (Call.now c) (Call.request c) s))
    calls s.

Module Staff.
Definition owner : JWTPayload.t := JWTPayload.mk 50 OWNER.
Definition kasir : JWTPayload.t := JWTPayload.mk 51 KASIR.
End Staff.

(** The routes kept for owners and admins. *)
Definition ownerAdminOnly (request : Request) : bool :=
  match request with
  | PatchTransactionCancel _ | PatchTransactionComplete _
  | PatchBookingCancel _ | PatchRentReturn _ _ | PatchInventoryAdjust _ _ =>
      true
  | _ => false
  end.

(** The routes with no middleware before the handler. *)
Definition publicRoute (request : Request) : bool :=
  match request with
  | PostBooking _ | PostOrderRequest _ => true
  | _ => false
  end.

Definition isHandled {A} (r : Routed A) : bool :=
  match r with Handled _ => true | Denied _ => false end.

(** ** Orders that only advance *)

Definition orderRank (status : OrderRequestStatus) : Z :=
  match status with
  | PENDING => 0
  | APPROVED => 1
  | PREPARING => 2
  | SERVED | REJECTED | CANCELLED => 3
  end.

(** [o'] is the order [o] further along: the same order, table,
    customer and total, not behind [o] in the workflow, and [o] itself
    when the workflow of [o] was over. *)
Definition orderAdvanced (o o' : OrderRequest.t) : Prop :=
  OrderRequest.id o' = OrderRequest.id o
  /\ OrderRequest.tableId o' = OrderRequest.tableId o
  /\ OrderRequest.customerName o' = OrderRequest.customerName o
  /\ OrderRequest.totalAmount o' = OrderRequest.totalAmount o
  /\ orderRank (OrderRequest.status o) <= orderRank (OrderRequest.status o')
  /\ (validTransitions (OrderRequest.status o) = [] -> o' = o).

(** ** Stock that is never overdrawn *)

(** The quantities on record are not negative: those of the
    transaction items, of the rent records and of the order items. *)
Definition quantitiesNonNegative (s : Store) : Prop :=
  Forall (fun i => 0 <= TransactionItem.quantity i) (transactionItems s)
  /\ Forall (fun r => 0 <= ProductRentRecord.quantity r)
       (productRentRecords s)
  /\ Forall (fun i => 0 <= OrderRequestItem.quantity i) (orderRequestItems s).

Definition stockSound (s : Store) : Prop :=
  stockNonNegative s /\ quantitiesNonNegative s.

(** A unit of work leaves a property of the store standing, whatever it
    returns or throws. *)
Definition preserves {B} (I : Store -> Prop) (m : Tx B) : Prop :=
  forall s, I s -> I (snd (m s)).

(** The locals of the item loop carry no negative quantity. *)
Definition nonNegativeLocals (acc : Locals.t) : Prop :=
  Forall (fun i => 0 <= ProcessedItem.quantity i) (Locals.processedItems acc)
  /\ Forall (fun i => 0 <= MovementItem.quantity i)
       (Locals.productRentItems acc).

(** ** The inventory ledger *)



(** ** Numbers that do not collide *)




(** ** Sell and rent records *)

(** An item of a request names a product of the kind [kind]. *)
Definition soldAs (kind : ProductType) (s : Store) (i : ItemInput.t) : bool :=
  match ItemInput.itemType i with
  | ItemPRODUCT =>
      match findProduct (ItemInput.id i) s with
      | Some p => ProductType_beq (Product.type p) kind
      | None => false
      end
  | _ => false
  end.

(** The entry the item loop keeps for an item, priced from the
    catalog. *)
Definition movementOf (s : Store) (i : ItemInput.t) (m : MovementItem.t)
    : Prop :=
  MovementItem.productId m = ItemInput.id i
  /\ MovementItem.quantity m = ItemInput.quantity i
  /\ catalogPrice s i = Some (MovementItem.unitPrice m)
  /\ MovementItem.subtotal m
     = MovementItem.unitPrice m * MovementItem.quantity m
  /\ MovementItem.expectedReturnAt m = ItemInput.expectedReturnAt i
  /\ MovementItem.notes m = ItemInput.notes i.

(** The sell record, the rent record that stands for an item. *)
Definition sellRecordOf (s : Store) (transactionId : Id) (i : ItemInput.t)
    (r : ProductSellRecord.t) : Prop :=
  ProductSellRecord.transactionId r = transactionId
  /\ ProductSellRecord.productId r = ItemInput.id i
  /\ ProductSellRecord.quantity r = ItemInput.quantity i
  /\ catalogPrice s i = Some (ProductSellRecord.unitPrice r)
  /\ ProductSellRecord.subtotal r
     = ProductSellRecord.unitPrice r * ProductSellRecord.quantity r
  /\ ProductSellRecord.status r = SellACTIVE.
Definition rentRecordOf (s : Store) (transactionId : Id) (i : ItemInput.t)
    (r : ProductRentRecord.t) : Prop :=
  ProductRentRecord.transactionId r = transactionId
  /\ ProductRentRecord.productId r = ItemInput.id i
  /\ ProductRentRecord.quantity r = ItemInput.quantity i
  /\ catalogPrice s i = Some (ProductRentRecord.unitPrice r)
  /\ ProductRentRecord.subtotal r
     = ProductRentRecord.unitPrice r * ProductRentRecord.quantity r
  /\ ProductRentRecord.status r = RentACTIVE
  /\ ProductRentRecord.returnedAt r = None
  /\ ProductRentRecord.expectedReturnAt r = ItemInput.expectedReturnAt i.

(** ** Transactions that stay *)

(** [t'] is the transaction [t] later on: the same number, type, table,
    total and author; cancelled, with the payment it had, if [t] was
    cancelled. *)
Definition transactionKept (t t' : Transaction.t) : Prop :=
  Transaction.id t' = Transaction.id t
  /\ Transaction.invoiceNumber t' = Transaction.invoiceNumber t
  /\ Transaction.type t' = Transaction.type t
  /\ Transaction.tableId t' = Transaction.tableId t
  /\ Transaction.customerName t' = Transaction.customerName t
  /\ Transaction.totalAmount t' = Transaction.totalAmount t
  /\ Transaction.createdBy t' = Transaction.createdBy t
  /\ Transaction.createdAt t' = Transaction.createdAt t
  /\ (Transaction.status t = TxCANCELLED ->
      Transaction.status t' = TxCANCELLED
      /\ Transaction.paidAmount t' = Transaction.paidAmount t
      /\ Transaction.changeAmount t' = Transaction.changeAmount t
      /\ Transaction.paymentMethod t' = Transaction.paymentMethod t).

(** ** Tables that only grow *)

(** A unit of work only appends to a table, whatever it returns or
    throws. *)
Definition extends {A B} (proj : Store -> list A) (m : Tx B) : Prop :=
  forall s, exists added, proj (snd (m s)) = proj s ++ added.

(** [s'] has the rows of [s], as they were, and maybe more after them,
    in the tables of the transaction items, of the order items and of
    the notifications. *)
Definition onlyAppended (s s' : Store) : Prop :=
  (exists added, transactionItems s' = transactionItems s ++ added)
  /\ (exists added, orderRequestItems s' = orderRequestItems s ++ added)
  /\ (exists added, notifications s' = notifications s ++ added).

(** * Properties *)

(** ** Rows and queries *)

Lemma find_update_where_key {A} (key : A -> Z) (k k' : Z) (f : A -> A)
    (rows : list A) :
  (forall r, key (f r) = key r) ->
  find (fun r => key r =? k) (update_where (fun r => key r =? k') f rows)
  = option_map (fun r => if key r =? k' then f r else r)
      (find (fun r => key r =? k) rows).
Proof.
  intros Hkey. unfold update_where.
  induction rows as [|r rows IH]; simpl; [reflexivity|].
  destruct (key r =? k') eqn:Hk'.
  - rewrite Hkey. destruct (key r =? k); simpl; [now rewrite Hk'|exact IH].
  - destruct (key r =? k); simpl; [now rewrite Hk'|exact IH].
Qed.

Lemma find_some_key {A} (key : A -> Z) (k : Z) (rows : list A) (r : A) :
  find (fun r => key r =? k) rows = Some r -> key r = k.
Proof.
  intros H. apply find_some in H. destruct H as [_ H].
  now apply Z.eqb_eq.
Qed.

(** ** Units of work *)

Lemma db_transaction_throw {A} (body : Tx A) (s s' : Store) (e : Message) :
  db_transaction body s = (Throw e, s') -> s' = s.
Proof.
  unfold db_transaction. destruct (body s) as [[a|e'] s1]; congruence.
Qed.

Lemma db_transaction_return {A} (body : Tx A) (s s' : Store) (a : A) :
  db_transaction body s = (Return a, s') -> body s = (Return a, s').
Proof.
  unfold db_transaction. destruct (body s) as [[a'|e'] s1]; congruence.
Qed.

Lemma bind_return {A B} (m : Tx A) (k : A -> Tx B) (s s' : Store) (a : A) :
  m s = (Return a, s') -> bind m k s = k a s'.
Proof. intros H. unfold bind. now rewrite H. Qed.

Lemma bind_throw {A B} (m : Tx A) (k : A -> Tx B) (s s' : Store)
    (e : Message) :
  m s = (Throw e, s') -> bind m k s = (Throw e, s').
Proof. intros H. unfold bind. now rewrite H. Qed.

Lemma bind_fresh {B} (k : Id -> Tx B) (s : Store) :
  bind fresh k s = k (nextId s) (bump_nextId s).
Proof. reflexivity. Qed.

Lemma bind_exec {B} (f : Store -> Store) (k : unit -> Tx B) (s : Store) :
  bind (exec f) k s = k tt (f s).
Proof. reflexivity. Qed.

Lemma bind_query {A B} (f : Store -> A) (k : A -> Tx B) (s : Store) :
  bind (query f) k s = k (f s) s.
Proof. reflexivity. Qed.

(** ** createTransaction: the item loop *)

Section ItemLoop.
Variable type : TransactionType.
Variable now : Timestamp.

Lemma stockChecked_spec (p : Product.t) :
  stockChecked type p = true
  <-> Product.type p = SELL \/ type = RENTAL.
Proof.
  unfold stockChecked. rewrite orb_true_iff.
  destruct (Product.type p), type; simpl; intuition discriminate.
Qed.

(** One turn on a PRODUCT item whose product is found and active. *)
Lemma processItem_product (item : ItemInput.t)
    (acc : Locals.t) (s : Store) (p : Product.t) :
  ItemInput.itemType item = ItemPRODUCT ->
  findProduct (ItemInput.id item) s = Some p ->
  Product.isActive p = true ->
  processItem type now item acc s
  = if stockChecked type p
    then if Product.stock p <? ItemInput.quantity item
         then (Throw (InsufficientStock (Product.name p) (Product.stock p)), s)
         else (Return (productEntry item p acc),
               on_products
                 (update_where (fun r => Product.id r =? ItemInput.id item)
                    (Product.set_stock
                       (Product.stock p - ItemInput.quantity item) now)) s)
    else (Return (productEntry item p acc), s).
Proof.
  intros Htype Hfind Hactive.
  unfold processItem, bind, query. rewrite Htype, Hfind, Hactive. simpl.
  unfold stockChecked.
  destruct (ProductType_beq (Product.type p) SELL
            || TransactionType_beq type RENTAL).
  - destruct (Product.stock p <? ItemInput.quantity item); reflexivity.
  - reflexivity.
Qed.

(** One turn on a MENU item whose menu is found and active. *)
Lemma processItem_menu (item : ItemInput.t)
    (acc : Locals.t) (s : Store) (m : Menu.t) :
  ItemInput.itemType item = ItemMENU ->
  findMenu (ItemInput.id item) s = Some m ->
  Menu.isActive m = true ->
  processItem type now item acc s
  = match Menu.stock m with
    | Some stock =>
        if stock <? ItemInput.quantity item
        then (Throw (InsufficientStock (Menu.name m) stock), s)
        else (Return (menuEntry item m acc),
              on_menus
                (update_where (fun r => Menu.id r =? ItemInput.id item)
                   (Menu.set_stock (stock - ItemInput.quantity item) now)) s)
    | None => (Return (menuEntry item m acc), s)
    end.
Proof.
  intros Htype Hfind Hactive.
  unfold processItem, bind, query. rewrite Htype, Hfind, Hactive. simpl.
  destruct (Menu.stock m) as [stock|].
  - destruct (stock <? ItemInput.quantity item); reflexivity.
  - reflexivity.
Qed.

(** The ways a turn can return. *)
Lemma processItem_return (item : ItemInput.t)
    (acc acc' : Locals.t) (s s' : Store) :
  processItem type now item acc s = (Return acc', s') ->
  (exists p,
      ItemInput.itemType item = ItemPRODUCT
      /\ findProduct (ItemInput.id item) s = Some p
      /\ Product.isActive p = true
      /\ acc' = productEntry item p acc
      /\ ((stockChecked type p = true
           /\ ItemInput.quantity item <= Product.stock p
           /\ s' = on_products
                     (update_where (fun r => Product.id r =? ItemInput.id item)
                        (Product.set_stock
                           (Product.stock p - ItemInput.quantity item) now)) s)
          \/ (stockChecked type p = false /\ s' = s)))
  \/ (exists m,
        ItemInput.itemType item = ItemMENU
        /\ findMenu (ItemInput.id item) s = Some m
        /\ Menu.isActive m = true
        /\ acc' = menuEntry item m acc
        /\ ((exists stock,
                Menu.stock m = Some stock
                /\ ItemInput.quantity item <= stock
                /\ s' = on_menus
                          (update_where
                             (fun r => Menu.id r =? ItemInput.id item)
                             (Menu.set_stock
                                (stock - ItemInput.quantity item) now)) s)
            \/ (Menu.stock m = None /\ s' = s)))
  \/ (ItemInput.itemType item = ItemBOOKING /\ acc' = acc /\ s' = s).
Proof.
  intros H.
  destruct (ItemInput.itemType item) eqn:Htype.
  - left.
    destruct (findProduct (ItemInput.id item) s) as [p|] eqn:Hfind.
    + destruct (Product.isActive p) eqn:Hactive.
      * rewrite (processItem_product item acc s p Htype Hfind Hactive)
          in H.
        exists p. repeat split; try reflexivity; try assumption.
        -- destruct (stockChecked type p);
             [destruct (Product.stock p <? ItemInput.quantity item)|];
             congruence.
        -- destruct (stockChecked type p).
           ++ left. destruct (Product.stock p <? ItemInput.quantity item)
                eqn:Hlt; [discriminate|].
              apply Z.ltb_ge in Hlt. repeat split; [exact Hlt | congruence].
           ++ right. split; [reflexivity | congruence].
      * unfold processItem, bind, query in H.
        rewrite Htype, Hfind, Hactive in H. discriminate.
    + unfold processItem, bind, query in H. rewrite Htype, Hfind in H.
      discriminate.
  - right. left.
    destruct (findMenu (ItemInput.id item) s) as [m|] eqn:Hfind.
    + destruct (Menu.isActive m) eqn:Hactive.
      * rewrite (processItem_menu item acc s m Htype Hfind Hactive)
          in H.
        exists m. repeat split; try reflexivity; try assumption.
        -- destruct (Menu.stock m) as [stock|];
             [destruct (stock <? ItemInput.quantity item)|]; congruence.
        -- destruct (Menu.stock m) as [stock|].
           ++ left. exists stock.
              destruct (stock <? ItemInput.quantity item) eqn:Hlt;
                [discriminate|].
              apply Z.ltb_ge in Hlt. repeat split; [exact Hlt | congruence].
           ++ right. split; [reflexivity | congruence].
      * unfold processItem, bind, query in H.
        rewrite Htype, Hfind, Hactive in H. discriminate.
    + unfold processItem, bind, query in H. rewrite Htype, Hfind in H.
      discriminate.
  - right. right. unfold processItem in H. rewrite Htype in H.
    unfold ret in H. repeat split; congruence.
Qed.

Lemma sumZ_app (l1 l2 : list Z) : sumZ (l1 ++ l2) = sumZ l1 + sumZ l2.
Proof. induction l1 as [|x l1 IH]; simpl; [reflexivity | rewrite IH; lia]. Qed.

Lemma productDemand_app (id : Id) (l1 l2 : list ItemInput.t) :
  productDemand id (l1 ++ l2) = productDemand id l1 + productDemand id l2.
Proof. unfold productDemand. now rewrite filter_app, map_app, sumZ_app. Qed.

Lemma menuDemand_app (id : Id) (l1 l2 : list ItemInput.t) :
  menuDemand id (l1 ++ l2) = menuDemand id l1 + menuDemand id l2.
Proof. unfold menuDemand. now rewrite filter_app, map_app, sumZ_app. Qed.

Lemma sameProduct_refl (p : Product.t) : sameProduct p p.
Proof. repeat split. Qed.

Lemma sameMenu_refl (m : Menu.t) : sameMenu m m.
Proof. repeat split. Qed.

Lemma sameProduct_stockChecked (p p' : Product.t) :
  sameProduct p p' -> stockChecked type p' = stockChecked type p.
Proof. intros (_ & _ & _ & Ht & _). unfold stockChecked. now rewrite Ht. Qed.

Lemma productsAfter_nil (s s' : Store) :
  products s' = products s -> productsAfter type [] s s'.
Proof.
  intros Hsame id. unfold findProduct. rewrite Hsame.
  destruct (find _ (products s)) as [p|]; [|reflexivity].
  exists p. split; [reflexivity|]. split; [apply sameProduct_refl|].
  unfold productDemand. simpl. destruct (stockChecked type p); lia.
Qed.

Lemma menusAfter_nil (s s' : Store) :
  menus s' = menus s -> menusAfter [] s s'.
Proof.
  intros Hsame id. unfold findMenu. rewrite Hsame.
  destruct (find _ (menus s)) as [m|]; [|reflexivity].
  exists m. split; [reflexivity|]. split; [apply sameMenu_refl|].
  unfold menuDemand. simpl. destruct (Menu.stock m); simpl; [f_equal; lia|].
  reflexivity.
Qed.

Lemma productsAfter_app (l1 l2 : list ItemInput.t)
    (s s1 s2 : Store) :
  productsAfter type l1 s s1 -> productsAfter type l2 s1 s2 ->
  productsAfter type (l1 ++ l2) s s2.
Proof.
  intros H1 H2 id. specialize (H1 id). specialize (H2 id).
  destruct (findProduct id s) as [p|].
  - destruct H1 as (p1 & Hf1 & Hs1 & Hq1). rewrite Hf1 in H2.
    destruct H2 as (p2 & Hf2 & Hs2 & Hq2).
    exists p2. split; [exact Hf2|]. split.
    + destruct Hs1 as (?&?&?&?&?), Hs2 as (?&?&?&?&?).
      repeat split; congruence.
    + rewrite Hq2, Hq1, (sameProduct_stockChecked p p1 Hs1),
        productDemand_app.
      destruct (stockChecked type p); lia.
  - now rewrite H1 in H2.
Qed.

Lemma menusAfter_app (l1 l2 : list ItemInput.t) (s s1 s2 : Store) :
  menusAfter l1 s s1 -> menusAfter l2 s1 s2 -> menusAfter (l1 ++ l2) s s2.
Proof.
  intros H1 H2 id. specialize (H1 id). specialize (H2 id).
  destruct (findMenu id s) as [m|].
  - destruct H1 as (m1 & Hf1 & Hs1 & Hq1). rewrite Hf1 in H2.
    destruct H2 as (m2 & Hf2 & Hs2 & Hq2).
    exists m2. split; [exact Hf2|]. split.
    + destruct Hs1 as (?&?&?&?), Hs2 as (?&?&?&?).
      repeat split; congruence.
    + rewrite Hq2, Hq1, menuDemand_app.
      destruct (Menu.stock m); simpl; [f_equal; lia | reflexivity].
  - now rewrite H1 in H2.
Qed.

Lemma productDemand_one (id : Id) (item : ItemInput.t) :
  productDemand id [item]
  = if isProductItem id item then ItemInput.quantity item else 0.
Proof.
  unfold productDemand. simpl.
  destruct (isProductItem id item); simpl; lia.
Qed.

Lemma menuDemand_one (id : Id) (item : ItemInput.t) :
  menuDemand id [item]
  = if isMenuItem id item then ItemInput.quantity item else 0.
Proof.
  unfold menuDemand. simpl. destruct (isMenuItem id item); simpl; lia.
Qed.

(** The catalog after a turn that returned. *)
Lemma processItem_catalog (item : ItemInput.t)
    (acc acc' : Locals.t) (s s' : Store) :
  processItem type now item acc s = (Return acc', s') ->
  productsAfter type [item] s s' /\ menusAfter [item] s s'.
Proof.
  intros H. apply processItem_return in H.
  destruct H as [(p & Htype & Hfind & _ & _ & Hs)
                |[(m & Htype & Hfind & _ & _ & Hs)
                 |(Htype & _ & Hs)]].
  - split.
    + destruct Hs as [(Hchecked & _ & Hs)|(Hchecked & Hs)]; subst s'.
      * intros id. unfold findProduct in *. simpl.
        rewrite (find_update_where_key Product.id) by reflexivity.
        destruct (find (fun r => Product.id r =? id) (products s))
          as [q|] eqn:Hq; [|reflexivity].
        simpl. pose proof (find_some_key Product.id id _ _ Hq) as Hid.
        subst id.
        rewrite productDemand_one. unfold isProductItem.
        rewrite Htype, (Z.eqb_sym (ItemInput.id item)). simpl.
        destruct (Product.id q =? ItemInput.id item) eqn:Heq.
        -- apply Z.eqb_eq in Heq. rewrite <- Heq in Hfind.
           assert (q = p) by congruence. subst q.
           eexists. split; [reflexivity|]. split; [repeat split|].
           simpl. rewrite Hchecked. reflexivity.
        -- exists q. split; [reflexivity|]. split; [apply sameProduct_refl|].
           destruct (stockChecked type q); lia.
      * intros id. destruct (findProduct id s) as [q|] eqn:Hq; [|reflexivity].
        exists q. split; [reflexivity|]. split; [apply sameProduct_refl|].
        rewrite productDemand_one. unfold isProductItem. rewrite Htype. simpl.
        destruct (ItemInput.id item =? id) eqn:Heq.
        -- apply Z.eqb_eq in Heq. rewrite Heq in Hfind.
           assert (q = p) by congruence. subst q. rewrite Hchecked. lia.
        -- destruct (stockChecked type q); lia.
    + assert (Hm : menus s' = menus s).
      { destruct Hs as [(_ & _ & Hs)|(_ & Hs)]; subst s'; reflexivity. }
      intros id. unfold findMenu. rewrite Hm.
      destruct (find _ (menus s)) as [q|]; [|reflexivity].
      exists q. split; [reflexivity|]. split; [apply sameMenu_refl|].
      rewrite menuDemand_one. unfold isMenuItem. rewrite Htype. simpl.
      destruct (Menu.stock q); simpl; [f_equal; lia | reflexivity].
  - split.
    + assert (Hp : products s' = products s).
      { destruct Hs as [(k & _ & _ & Hs)|(_ & Hs)]; subst s'; reflexivity. }
      intros id. unfold findProduct. rewrite Hp.
      destruct (find _ (products s)) as [q|]; [|reflexivity].
      exists q. split; [reflexivity|]. split; [apply sameProduct_refl|].
      rewrite productDemand_one. unfold isProductItem. rewrite Htype. simpl.
      destruct (stockChecked type q); lia.
    + destruct Hs as [(k & Hk & _ & Hs)|(Hnone & Hs)]; subst s'.
      * intros id. unfold findMenu in *. simpl.
        rewrite (find_update_where_key Menu.id) by reflexivity.
        destruct (find (fun r => Menu.id r =? id) (menus s))
          as [q|] eqn:Hq; [|reflexivity].
        simpl. pose proof (find_some_key Menu.id id _ _ Hq) as Hid.
        subst id.
        rewrite menuDemand_one. unfold isMenuItem.
        rewrite Htype, (Z.eqb_sym (ItemInput.id item)). simpl.
        destruct (Menu.id q =? ItemInput.id item) eqn:Heq.
        -- apply Z.eqb_eq in Heq. rewrite <- Heq in Hfind.
           assert (q = m) by congruence. subst q.
           eexists. split; [reflexivity|]. split; [repeat split|].
           simpl. rewrite Hk. reflexivity.
        -- exists q. split; [reflexivity|]. split; [apply sameMenu_refl|].
           destruct (Menu.stock q); simpl; [f_equal; lia | reflexivity].
      * intros id. destruct (findMenu id s) as [q|] eqn:Hq; [|reflexivity].
        exists q. split; [reflexivity|]. split; [apply sameMenu_refl|].
        rewrite menuDemand_one. unfold isMenuItem. rewrite Htype. simpl.
        destruct (ItemInput.id item =? id) eqn:Heq.
        -- apply Z.eqb_eq in Heq. rewrite Heq in Hfind.
           assert (q = m) by congruence. subst q. rewrite Hnone. reflexivity.
        -- destruct (Menu.stock q); simpl; [f_equal; lia | reflexivity].
  - subst s'. split.
    + intros id. destruct (findProduct id s) as [q|] eqn:Hq; [|reflexivity].
      exists q. split; [reflexivity|]. split; [apply sameProduct_refl|].
      rewrite productDemand_one. unfold isProductItem. rewrite Htype. simpl.
      destruct (stockChecked type q); lia.
    + intros id. destruct (findMenu id s) as [q|] eqn:Hq; [|reflexivity].
      exists q. split; [reflexivity|]. split; [apply sameMenu_refl|].
      rewrite menuDemand_one. unfold isMenuItem. rewrite Htype. simpl.
      destruct (Menu.stock q); simpl; [f_equal; lia | reflexivity].
Qed.

Lemma processItems_app (l1 l2 : list ItemInput.t) (acc : Locals.t) (s : Store) :
  processItems type now (l1 ++ l2) acc s
  = bind (processItems type now l1 acc)
      (fun acc1 => processItems type now l2 acc1) s.
Proof.
  revert acc s. induction l1 as [|item l1 IH]; intros acc s; simpl.
  - reflexivity.
  - unfold bind.
    destruct (processItem type now item acc s) as [[acc1|e] s1];
      [|reflexivity].
    rewrite IH. reflexivity.
Qed.

Lemma processItems_catalog (items : list ItemInput.t) :
  forall (acc acc' : Locals.t) (s s' : Store),
    processItems type now items acc s = (Return acc', s') ->
    productsAfter type items s s' /\ menusAfter items s s'.
Proof.
  induction items as [|item items IH]; intros acc acc' s s' H; simpl in H.
  - unfold ret in H. injection H as _ <-.
    split; [now apply productsAfter_nil | now apply menusAfter_nil].
  - unfold bind in H.
    destruct (processItem type now item acc s) as [[acc1|e] s1] eqn:Hturn;
      [|discriminate].
    apply processItem_catalog in Hturn. destruct Hturn as [Hp Hm].
    apply IH in H. destruct H as [Hp' Hm'].
    split.
    + exact (productsAfter_app [item] items s s1 s' Hp Hp').
    + exact (menusAfter_app [item] items s s1 s' Hm Hm').
Qed.

Lemma processItem_frame (item : ItemInput.t)
    (acc acc' : Locals.t) (s s' : Store) :
  processItem type now item acc s = (Return acc', s') ->
  transactions s' = transactions s
  /\ transactionItems s' = transactionItems s
  /\ tables s' = tables s /\ nextId s' = nextId s.
Proof.
  intros H. apply processItem_return in H.
  destruct H as [(p & _ & _ & _ & _ & [(_ & _ & Hs)|(_ & Hs)])
                |[(m & _ & _ & _ & _ & [(k & _ & _ & Hs)|(_ & Hs)])
                 |(_ & _ & Hs)]];
    subst s'; repeat split.
Qed.

Lemma processItems_frame (items : list ItemInput.t) :
  forall (acc acc' : Locals.t) (s s' : Store),
    processItems type now items acc s = (Return acc', s') ->
    transactions s' = transactions s
    /\ transactionItems s' = transactionItems s
    /\ tables s' = tables s /\ nextId s' = nextId s.
Proof.
  induction items as [|item items IH]; intros acc acc' s s' H; simpl in H.
  - unfold ret in H. injection H as _ <-. repeat split.
  - unfold bind in H.
    destruct (processItem type now item acc s) as [[acc1|e] s1] eqn:Hturn;
      [|discriminate].
    apply processItem_frame in Hturn. apply IH in H.
    destruct Hturn as (?&?&?&?), H as (?&?&?&?). repeat split; congruence.
Qed.

Lemma catalogPrice_after (l : list ItemInput.t)
    (s s' : Store) (i : ItemInput.t) :
  productsAfter type l s s' -> menusAfter l s s' ->
  catalogPrice s' i = catalogPrice s i.
Proof.
  intros Hp Hm. unfold catalogPrice.
  destruct (ItemInput.itemType i).
  - specialize (Hp (ItemInput.id i)).
    destruct (findProduct (ItemInput.id i) s) as [p|].
    + destruct Hp as (p' & -> & (_ & _ & Hprice & _) & _). simpl. congruence.
    + now rewrite Hp.
  - specialize (Hm (ItemInput.id i)).
    destruct (findMenu (ItemInput.id i) s) as [m|].
    + destruct Hm as (m' & -> & (_ & _ & Hprice & _) & _). simpl. congruence.
    + now rewrite Hm.
  - reflexivity.
Qed.


End ItemLoop.

(** ** createTransaction: the rows it persists *)

Lemma sameCatalogAndLedger_refl (s : Store) : sameCatalogAndLedger s s.
Proof. repeat split. Qed.

Lemma sameCatalogAndLedger_trans (s1 s2 s3 : Store) :
  sameCatalogAndLedger s1 s2 -> sameCatalogAndLedger s2 s3 ->
  sameCatalogAndLedger s1 s3.
Proof.
  intros (?&?&?&?) (?&?&?&?). repeat split; congruence.
Qed.

Lemma forEach_frame {A} (R : Store -> Store -> Prop) (xs : list A)
    (body : A -> Tx unit) :
  (forall s, R s s) ->
  (forall s1 s2 s3, R s1 s2 -> R s2 s3 -> R s1 s3) ->
  (forall x s, exists s', body x s = (Return tt, s') /\ R s s') ->
  forall s, exists s', forEach xs body s = (Return tt, s') /\ R s s'.
Proof.
  intros Hrefl Htrans Hbody.
  induction xs as [|x xs IH]; intros s; simpl.
  - exists s. split; [reflexivity | apply Hrefl].
  - destruct (Hbody x s) as (s1 & Hx & H1).
    destruct (IH s1) as (s2 & Hxs & H2).
    exists s2. split; [|exact (Htrans _ _ _ H1 H2)].
    rewrite (bind_return _ _ _ _ _ Hx). exact Hxs.
Qed.

Lemma insertItems_run (transactionId : Id) (items : list ProcessedItem.t) :
  forall s, exists (rows : list TransactionItem.t) (s' : Store),
    insertItems transactionId items s = (Return rows, s')
    /\ transactionItems s' = transactionItems s ++ rows
    /\ Forall2 (fun i r => exists id, r = ProcessedItem.row id transactionId i)
         items rows
    /\ products s' = products s /\ menus s' = menus s
    /\ transactions s' = transactions s.
Proof.
  induction items as [|item items IH]; intros s; simpl.
  - exists [], s. rewrite app_nil_r. repeat split. constructor.
  - unfold bind at 1. unfold fresh. unfold bind at 1. unfold exec.
    destruct (IH (on_transactionItems
                    (insert_row (ProcessedItem.row (nextId s) transactionId item))
                    (bump_nextId s)))
      as (rows & s' & Hrun & Hrows & Hall & Hp & Hm & Ht).
    rewrite (bind_return _ _ _ _ _ Hrun). unfold ret.
    eexists _, _. split; [reflexivity|].
    split.
    { rewrite Hrows. simpl. unfold insert_row. now rewrite <- app_assoc. }
    split; [constructor; [eexists; reflexivity | exact Hall]|].
    repeat split; assumption.
Qed.

(** The transaction row [persistTransaction] inserts. *)
Lemma persistTransaction_run (user : Id) (now : Timestamp)
    (committed : Store) (b : CreateTransactionBody.t) (acc : Locals.t)
    (s : Store) :
  0 <= CreateTransactionBody.paidAmount b - Locals.totalAmount acc ->
  exists (rows : list TransactionItem.t) (s' : Store),
    let transaction :=
      Transaction.mk (nextId s) (generateInvoiceNumber now committed)
        (CreateTransactionBody.type b) (CreateTransactionBody.tableId b)
        (orNull (CreateTransactionBody.customerName b))
        (Locals.totalAmount acc) (CreateTransactionBody.paidAmount b)
        (CreateTransactionBody.paidAmount b - Locals.totalAmount acc)
        (orZero (CreateTransactionBody.depositAmount b)) 0
        (CreateTransactionBody.paymentMethod b) TxPAID (Some user) now now in
    persistTransaction user now committed b acc s
    = (Return (transaction, rows), s')
    /\ products s' = products s /\ menus s' = menus s
    /\ transactions s' = transactions s ++ [transaction]
    /\ transactionItems s' = transactionItems s ++ rows
    /\ Forall2 (fun i r => exists id, r = ProcessedItem.row id (nextId s) i)
         (Locals.processedItems acc) rows.
Proof.
  intros Hpaid. unfold persistTransaction.
  apply Z.ltb_ge in Hpaid. rewrite Hpaid.
  rewrite bind_fresh, bind_exec.
  match goal with
  | |- context [bind (insertItems ?t ?l) _ ?s0] =>
      destruct (insertItems_run t l s0)
        as (rows & s2 & Hrun & Hrows & Hall & Hp2 & Hm2 & Ht2)
  end.
  rewrite (bind_return _ _ _ _ _ Hrun).
  match goal with
  | |- context [bind (forEach ?l ?body) _ s2] =>
      destruct (forEach_frame sameCatalogAndLedger l body
                  sameCatalogAndLedger_refl sameCatalogAndLedger_trans)
        with (s := s2) as (s3 & Hsell & Hf3)
  end.
  { intros x s0. eexists. split; [reflexivity|]. repeat split. }
  rewrite (bind_return _ _ _ _ _ Hsell).
  match goal with
  | |- context [bind (forEach ?l ?body) _ s3] =>
      destruct (forEach_frame sameCatalogAndLedger l body
                  sameCatalogAndLedger_refl sameCatalogAndLedger_trans)
        with (s := s3) as (s4 & Hrent & Hf4)
  end.
  { intros x s0. eexists. split; [reflexivity|]. repeat split. }
  rewrite (bind_return _ _ _ _ _ Hrent).
  destruct Hf3 as (Hp3 & Hm3 & Ht3 & Hi3), Hf4 as (Hp4 & Hm4 & Ht4 & Hi4).
  simpl in Hp2, Hm2, Ht2, Hrows. unfold insert_row in Ht2.
  destruct (CreateTransactionBody.tableId b) as [tid|].
  - rewrite bind_exec. unfold ret.
    eexists _, _. split; [reflexivity|]. simpl.
    repeat split; first [congruence | exact Hall].
  - unfold bind, ret.
    eexists _, _. split; [reflexivity|].
    repeat split; first [congruence | exact Hall].
Qed.

Lemma persistTransaction_return (user : Id) (now : Timestamp)
    (committed : Store) (b : CreateTransactionBody.t) (acc : Locals.t)
    (s s' : Store) (transaction : Transaction.t)
    (rows : list TransactionItem.t) :
  persistTransaction user now committed b acc s
  = (Return (transaction, rows), s') ->
  0 <= CreateTransactionBody.paidAmount b - Locals.totalAmount acc
  /\ transaction
     = Transaction.mk (nextId s) (generateInvoiceNumber now committed)
         (CreateTransactionBody.type b) (CreateTransactionBody.tableId b)
         (orNull (CreateTransactionBody.customerName b))
         (Locals.totalAmount acc) (CreateTransactionBody.paidAmount b)
         (CreateTransactionBody.paidAmount b - Locals.totalAmount acc)
         (orZero (CreateTransactionBody.depositAmount b)) 0
         (CreateTransactionBody.paymentMethod b) TxPAID (Some user) now now
  /\ products s' = products s /\ menus s' = menus s
  /\ transactions s' = transactions s ++ [transaction]
  /\ transactionItems s' = transactionItems s ++ rows
  /\ Forall2 (fun i r => exists id, r = ProcessedItem.row id (nextId s) i)
       (Locals.processedItems acc) rows.
Proof.
  intros H.
  destruct (Z.lt_ge_cases
              (CreateTransactionBody.paidAmount b - Locals.totalAmount acc) 0)
    as [Hneg|Hpos].
  - unfold persistTransaction in H. apply Z.ltb_lt in Hneg.
    rewrite Hneg in H. discriminate.
  - destruct (persistTransaction_run user now committed b acc s Hpos)
      as (rows0 & s0 & Hrun & Hp & Hm & Ht & Hi & Hall).
    cbv zeta in Hrun. rewrite Hrun in H.
    injection H as Htx Hrows Hs. subst transaction rows0 s0.
    repeat split; assumption.
Qed.

(** ** createTransaction: the call *)

Lemma createTransaction_success (user : Id) (now : Timestamp)
    (b : CreateTransactionBody.t) (s s' : Store)
    (result : Transaction.t * list TransactionItem.t) (code : Z) :
  createTransaction user now b s = (success result code, s') ->
  createTransactionSchema b = true
  /\ exists (acc : Locals.t) (s1 s2 : Store),
       processItems (CreateTransactionBody.type b) now
         (CreateTransactionBody.items b) Locals.init s = (Return acc, s1)
       /\ persistTransaction user now s b acc s1 = (Return result, s2)
       /\ s' = createNotification NtTRANSACTION (Transaction.id (fst result)) s2.
Proof.
  unfold createTransaction.
  destruct (createTransactionSchema b); [|discriminate]. simpl.
  destruct (validateTable _ s) as [[m c]|]; [discriminate|].
  destruct (db_transaction _ s) as [[r|e] s2] eqn:Hunit; [|discriminate].
  intros H. injection H as -> _ <-.
  split; [reflexivity|].
  apply db_transaction_return in Hunit.
  unfold createTransactionUnit, bind in Hunit.
  destruct (processItems _ now _ Locals.init s) as [[acc|e] s1] eqn:Hloop;
    [|discriminate].
  exists acc, s1, s2. repeat split; assumption.
Qed.

(** A throw of the loop at an item makes the call answer with the
    thrown message, on the store it was given. *)
Lemma createTransaction_item_throw (user : Id) (now : Timestamp)
    (b : CreateTransactionBody.t) (s : Store)
    (pre post : list ItemInput.t) (item : ItemInput.t)
    (acc : Locals.t) (s1 s2 : Store) (e : Message) :
  createTransactionSchema b = true ->
  validateTable (CreateTransactionBody.tableId b) s = None ->
  CreateTransactionBody.items b = pre ++ item :: post ->
  processItems (CreateTransactionBody.type b) now pre Locals.init s
  = (Return acc, s1) ->
  processItem (CreateTransactionBody.type b) now item acc s1 = (Throw e, s2) ->
  createTransaction user now b s = (errorResponse e 500, s).
Proof.
  intros Hschema Htable Hitems Hpre Hturn.
  unfold createTransaction. rewrite Hschema, Htable. simpl.
  unfold db_transaction, createTransactionUnit.
  rewrite Hitems.
  assert (Hloop : processItems (CreateTransactionBody.type b) now
                    (pre ++ item :: post) Locals.init s = (Throw e, s2)).
  { rewrite processItems_app. rewrite (bind_return _ _ _ _ _ Hpre). simpl.
    apply bind_throw. exact Hturn. }
  rewrite (bind_throw _ _ _ _ _ Hloop). reflexivity.
Qed.

Lemma processItems_split (type : TransactionType) (now : Timestamp)
    (pre post : list ItemInput.t) (item : ItemInput.t)
    (acc acc' : Locals.t) (s s' : Store) :
  processItems type now (pre ++ item :: post) acc s = (Return acc', s') ->
  exists acc1 s1 acc2 s2,
    processItems type now pre acc s = (Return acc1, s1)
    /\ processItem type now item acc1 s1 = (Return acc2, s2).
Proof.
  rewrite processItems_app. unfold bind at 1.
  destruct (processItems type now pre acc s) as [[acc1|e] s1] eqn:Hpre;
    [|discriminate].
  simpl. unfold bind.
  destruct (processItem type now item acc1 s1) as [[acc2|e] s2] eqn:Hturn;
    [|discriminate].
  intros _. exists acc1, s1, acc2, s2. split; [reflexivity | exact Hturn].
Qed.

(** In a loop that returned, every item under the stock rule found at
    its turn at least the quantity it asked for. *)
Lemma processItems_checked (type : TransactionType) (now : Timestamp)
    (pre post : list ItemInput.t) (item : ItemInput.t)
    (acc acc' : Locals.t) (s s' : Store) :
  processItems type now (pre ++ item :: post) acc s = (Return acc', s') ->
  (forall p, ItemInput.itemType item = ItemPRODUCT ->
             findProduct (ItemInput.id item) s = Some p ->
             stockChecked type p = true ->
             ItemInput.quantity item
             <= Product.stock p - productDemand (ItemInput.id item) pre)
  /\ (forall m stock, ItemInput.itemType item = ItemMENU ->
                      findMenu (ItemInput.id item) s = Some m ->
                      Menu.stock m = Some stock ->
                      ItemInput.quantity item
                      <= stock - menuDemand (ItemInput.id item) pre).
Proof.
  intros H. apply processItems_split in H.
  destruct H as (acc1 & s1 & acc2 & s2 & Hpre & Hturn).
  apply processItems_catalog in Hpre. destruct Hpre as [Hp Hm].
  apply processItem_return in Hturn.
  split.
  - intros p Htype Hfind Hrule.
    specialize (Hp (ItemInput.id item)). rewrite Hfind in Hp.
    destruct Hp as (p1 & Hfind1 & Hsame & Hstock).
    rewrite Hrule in Hstock.
    destruct Hturn as [(q & _ & Hq & _ & _ & Hs)
                      |[(m & Hm' & _)|(Hb & _)]]; try congruence.
    assert (q = p1) by congruence. subst q.
    rewrite (sameProduct_stockChecked type p p1 Hsame), Hrule in Hs.
    destruct Hs as [(_ & Hle & _)|(Hno & _)]; [lia | discriminate].
  - intros m stock Htype Hfind Hstock.
    specialize (Hm (ItemInput.id item)). rewrite Hfind in Hm.
    destruct Hm as (m1 & Hfind1 & Hsame & Hstock1).
    rewrite Hstock in Hstock1. simpl in Hstock1.
    destruct Hturn as [(q & Hq & _)
                      |[(q & _ & Hq & _ & _ & Hs)|(Hb & _)]]; try congruence.
    assert (q = m1) by congruence. subst q.
    destruct Hs as [(k & Hk & Hle & _)|(Hnone & _)]; [|congruence].
    assert (k = stock - menuDemand (ItemInput.id item) pre) by congruence.
    lia.
Qed.

(** C1. (1) When [createTransaction] succeeds, the stock of every
    product the stock rule applies to (type SELL, or any product in a
    RENTAL transaction) has gone down by the quantities its items asked
    for, the stock of every menu with tracked stock likewise, and nothing
    else about the catalog has changed: other products keep their stock
    and a menu with null stock keeps null; and each such item found, at
    its turn, a stock of at least its quantity.  (2, 3) When the loop reaches
    a PRODUCT item under the stock rule, or a MENU item with tracked
    stock, and finds stock < quantity, the call fails with the
    insufficient-stock message naming the record and the stock found, and
    the store is unchanged.  (4) A MENU item whose menu has null stock is
    processed without a stock check and leaves the store as it was. *)
Theorem createTransaction_stock_rule :
  (forall (user : Id) (now : Timestamp) (b : CreateTransactionBody.t)
          (s s' : Store) (result : Transaction.t * list TransactionItem.t)
          (code : Z),
      createTransaction user now b s = (success result code, s') ->
      productsAfter (CreateTransactionBody.type b)
        (CreateTransactionBody.items b) s s'
      /\ menusAfter (CreateTransactionBody.items b) s s'
      /\ (forall pre item post p,
            CreateTransactionBody.items b = pre ++ item :: post ->
            ItemInput.itemType item = ItemPRODUCT ->
            findProduct (ItemInput.id item) s = Some p ->
            Product.type p = SELL \/ CreateTransactionBody.type b = RENTAL ->
            ItemInput.quantity item
            <= Product.stock p - productDemand (ItemInput.id item) pre)
      /\ (forall pre item post m stock,
            CreateTransactionBody.items b = pre ++ item :: post ->
            ItemInput.itemType item = ItemMENU ->
            findMenu (ItemInput.id item) s = Some m ->
            Menu.stock m = Some stock ->
            ItemInput.quantity item
            <= stock - menuDemand (ItemInput.id item) pre))
  /\ (forall (user : Id) (now : Timestamp) (b : CreateTransactionBody.t)
             (s : Store) (pre post : list ItemInput.t) (item : ItemInput.t)
             (acc : Locals.t) (s1 : Store) (p : Product.t),
        createTransactionSchema b = true ->
        validateTable (CreateTransactionBody.tableId b) s = None ->
        CreateTransactionBody.items b = pre ++ item :: post ->
        processItems (CreateTransactionBody.type b) now pre Locals.init s
        = (Return acc, s1) ->
        ItemInput.itemType item = ItemPRODUCT ->
        findProduct (ItemInput.id item) s1 = Some p ->
        Product.isActive p = true ->
        Product.type p = SELL \/ CreateTransactionBody.type b = RENTAL ->
        Product.stock p < ItemInput.quantity item ->
        createTransaction user now b s
        = (errorResponse
             (InsufficientStock (Product.name p) (Product.stock p)) 500, s))
  /\ (forall (user : Id) (now : Timestamp) (b : CreateTransactionBody.t)
             (s : Store) (pre post : list ItemInput.t) (item : ItemInput.t)
             (acc : Locals.t) (s1 : Store) (m : Menu.t) (stock : Z),
        createTransactionSchema b = true ->
        validateTable (CreateTransactionBody.tableId b) s = None ->
        CreateTransactionBody.items b = pre ++ item :: post ->
        processItems (CreateTransactionBody.type b) now pre Locals.init s
        = (Return acc, s1) ->
        ItemInput.itemType item = ItemMENU ->
        findMenu (ItemInput.id item) s1 = Some m ->
        Menu.isActive m = true ->
        Menu.stock m = Some stock ->
        stock < ItemInput.quantity item ->
        createTransaction user now b s
        = (errorResponse (InsufficientStock (Menu.name m) stock) 500, s))
  /\ (forall (type : TransactionType) (now : Timestamp) (item : ItemInput.t)
             (acc : Locals.t) (s : Store) (m : Menu.t),
        ItemInput.itemType item = ItemMENU ->
        findMenu (ItemInput.id item) s = Some m ->
        Menu.isActive m = true ->
        Menu.stock m = None ->
        processItem type now item acc s = (Return (menuEntry item m acc), s)).
Proof.
  split; [|split; [|split]].
  - intros user now b s s' result code H.
    apply createTransaction_success in H.
    destruct H as (_ & acc & s1 & s2 & Hloop & Hpersist & ->).
    pose proof Hloop as Hturns.
    apply processItems_catalog in Hloop. destruct Hloop as [Hp Hm].
    destruct result as [transaction rows].
    apply persistTransaction_return in Hpersist.
    destruct Hpersist as (_ & _ & Hp2 & Hm2 & _).
    split; [|split; [|split]].
    + rewrite <- (app_nil_r (CreateTransactionBody.items b)).
      apply (productsAfter_app _ _ [] s s1); [exact Hp|].
      apply productsAfter_nil. exact Hp2.
    + rewrite <- (app_nil_r (CreateTransactionBody.items b)).
      apply (menusAfter_app _ [] s s1); [exact Hm|].
      apply menusAfter_nil. exact Hm2.
    + intros pre item post p Hsplit Htype Hfind Hrule.
      rewrite Hsplit in Hturns.
      apply processItems_checked in Hturns. destruct Hturns as [Hc _].
      apply Hc; [exact Htype | exact Hfind | now apply stockChecked_spec].
    + intros pre item post m stock Hsplit Htype Hfind Hstock.
      rewrite Hsplit in Hturns.
      apply processItems_checked in Hturns. destruct Hturns as [_ Hc].
      now apply (Hc m).
  - intros user now b s pre post item acc s1 p
      Hschema Htable Hitems Hpre Htype Hfind Hactive Hrule Hlack.
    apply (createTransaction_item_throw user now b s pre post item acc s1 s1);
      try assumption.
    rewrite (processItem_product _ now item acc s1 p Htype Hfind Hactive).
    apply stockChecked_spec in Hrule. rewrite Hrule.
    apply Z.ltb_lt in Hlack. now rewrite Hlack.
  - intros user now b s pre post item acc s1 m stock
      Hschema Htable Hitems Hpre Htype Hfind Hactive Hstock Hlack.
    apply (createTransaction_item_throw user now b s pre post item acc s1 s1);
      try assumption.
    rewrite (processItem_menu _ now item acc s1 m Htype Hfind Hactive).
    rewrite Hstock. apply Z.ltb_lt in Hlack. now rewrite Hlack.
  - intros type now item acc s m Htype Hfind Hactive Hstock.
    rewrite (processItem_menu _ now item acc s m Htype Hfind Hactive).
    now rewrite Hstock.
Qed.

Lemma createTransaction_stock_rule_witness :
  createTransaction Sample.user 1000 elevenBalls Sample.store
  = (errorResponse (InsufficientStock "Balls" 4) 500, Sample.store).
Proof.
  destruct createTransaction_stock_rule as (_ & H & _).
  pose (run := processItems POS 1000 [ItemInput.mk ItemPRODUCT 2 6 None None]
                 Locals.init Sample.store).
  apply (H Sample.user 1000 elevenBalls Sample.store
           [ItemInput.mk ItemPRODUCT 2 6 None None] []
           (ItemInput.mk ItemPRODUCT 2 5 None None)
           (match fst run with Return a => a | Throw _ => Locals.init end)
           (snd run)
           (Product.set_stock 4 1000 Sample.balls)).
  - reflexivity.
  - reflexivity.
  - reflexivity.
  - vm_compute. reflexivity.
  - reflexivity.
  - vm_compute. reflexivity.
  - reflexivity.
  - left. reflexivity.
  - simpl. lia.
Defined.




(** ** createTransaction: failures *)

(** C3. A call of [createTransaction] that answers with an error, for
    whatever cause (validation, table or item not found, inactive item,
    insufficient stock, insufficient payment), returns the store it was
    given: no stock changed, no transaction, item, sell or rent row
    created, no table occupied. *)
Theorem createTransaction_failure_leaves_store :
  forall (user : Id) (now : Timestamp) (b : CreateTransactionBody.t)
         (s s' : Store) (message : Message) (code : Z),
    createTransaction user now b s = (errorResponse message code, s') ->
    s' = s.
Proof.
  intros user now b s s' message code.
  unfold createTransaction.
  destruct (negb (createTransactionSchema b)); [congruence|].
  destruct (validateTable _ s) as [[m c]|]; [congruence|].
  destruct (db_transaction _ s) as [[result|e] s1] eqn:Hunit.
  - discriminate.
  - intros H. apply db_transaction_throw in Hunit. congruence.
Qed.

Lemma createTransaction_failure_leaves_store_witness :
  snd (createTransaction Sample.user 1000 unpaidBalls Sample.store)
  = Sample.store.
Proof.
  apply (createTransaction_failure_leaves_store Sample.user 1000 unpaidBalls
           Sample.store _ InsufficientPayment 500).
  vm_compute. reflexivity.
Defined.

(** The rollback is what undoes the work: at the throw the unit had
    already taken the two tubes out of the stock. *)
Example createTransactionUnit_throws_after_decrement :
  let r := createTransactionUnit Sample.user 1000 Sample.store unpaidBalls
             Sample.store in
  fst r = Throw InsufficientPayment
  /\ productStock 2 (snd r) = Some 8
  /\ productStock 2 Sample.store = Some 10.
Proof. vm_compute. repeat split. Qed.

(** ** cancelTransaction after completeTransaction *)

Lemma restoreItem_returns (now : Timestamp) (item : TransactionItem.t)
    (s : Store) :
  exists s', restoreItem now item s = (Return tt, s') /\ True.
Proof.
  unfold restoreItem, bind, query, setProductStock, setMenuStock, exec, ret.
  repeat match goal with
         | |- context [match ?x with _ => _ end] => destruct x
         end;
    eexists; split; reflexivity || exact I.
Qed.

(** C5 at its failing input.  [cancelTransaction] accepts a transaction
    in any status but CANCELLED, COMPLETED included.  Five rackets are in
    stock; a RENTAL transaction takes two (3 left); [completeTransaction]
    returns them (5); [cancelTransaction] then adds the two again: 7, not
    the 5 there were before the transaction.  Cancelled at once, the same
    transaction does restore 5. *)
Theorem cancelTransaction_after_complete_restores_twice :
  (forall (now : Timestamp) (id : Id) (s : Store) (transaction : Transaction.t),
      findTransaction id s = Some transaction ->
      Transaction.status transaction <> TxCANCELLED ->
      is_success (fst (cancelTransaction now id s)) = true)
  /\ productStock 1 Sample.store = Some 5
  /\ is_success (fst (createTransaction Sample.user 1000 Rental.request
                        Sample.store)) = true
  /\ productStock 1 Rental.created = Some 3
  /\ is_success (fst (completeTransaction 2000 100 Rental.created)) = true
  /\ productStock 1 Rental.completed = Some 5
  /\ option_map Transaction.status (findTransaction 100 Rental.completed)
     = Some TxCOMPLETED
  /\ is_success (fst (cancelTransaction 3000 100 Rental.completed)) = true
  /\ productStock 1 Rental.cancelled = Some 7
  /\ productStock 1 Rental.cancelledAtOnce = Some 5.
Proof.
  split; [|vm_compute; repeat split].
  intros now id s transaction Hfind Hstatus.
  unfold cancelTransaction. rewrite Hfind.
  destruct (TransactionStatus_beq (Transaction.status transaction) TxCANCELLED)
    eqn:Hbeq.
  { destruct (Transaction.status transaction); try discriminate.
    now contradiction Hstatus. }
  unfold db_transaction, cancelTransactionUnit.
  destruct (forEach_frame (fun _ _ => True) (itemsOf id s) (restoreItem now)
              (fun _ => I) (fun _ _ _ _ _ => I) (restoreItem_returns now) s)
    as (s1 & Hloop & _).
  rewrite (bind_return _ _ _ _ _ Hloop).
  rewrite !bind_exec. unfold clearTable.
  destruct (Transaction.tableId transaction); reflexivity.
Qed.

Lemma cancelTransaction_after_complete_restores_twice_witness :
  is_success (fst (cancelTransaction 3000 100 Rental.completed)) = true.
Proof.
  destruct cancelTransaction_after_complete_restores_twice as [H _].
  eapply (H 3000 100 Rental.completed).
  - vm_compute. reflexivity.
  - vm_compute. discriminate.
Defined.

(** The restore loop of [cancelTransaction] adds the quantity of every
    PRODUCT item, also of one the stock rule never applied to: two
    rackets on a POS transaction leave the stock at 5, and cancelling it
    makes it 7. *)
Example cancelTransaction_restores_unchecked_product :
  productStock 1 Sample.store = Some 5
  /\ is_success (fst (createTransaction Sample.user 1000 Counter.request
                        Sample.store)) = true
  /\ productStock 1 Counter.created = Some 5
  /\ is_success (fst (cancelTransaction 3000 100 Counter.created)) = true
  /\ productStock 1 Counter.cancelled = Some 7.
Proof. vm_compute. repeat split. Qed.

(** ** createBooking *)

Lemma overlaps_clashes (b : CreateBookingBody.t) (existing : Booking.t) :
  overlaps (CreateBookingBody.courtId b) (CreateBookingBody.startTime b)
    (CreateBookingBody.endTime b) existing = true
  <-> clashesWith b existing.
Proof.
  unfold overlaps, clashesWith.
  rewrite !andb_true_iff, negb_true_iff, Z.eqb_eq, Z.ltb_lt, Z.gtb_gt.
  destruct (Booking.bookingStatus existing); simpl;
    intuition (try discriminate; try congruence).
Qed.

Lemma find_overlaps_none (b : CreateBookingBody.t) (rows : list Booking.t) :
  find (overlaps (CreateBookingBody.courtId b) (CreateBookingBody.startTime b)
          (CreateBookingBody.endTime b)) rows = None
  <-> forall existing, In existing rows -> ~ clashesWith b existing.
Proof.
  split.
  - intros Hnone existing Hin Hclash.
    apply overlaps_clashes in Hclash.
    pose proof (find_none _ _ Hnone existing Hin) as H. congruence.
  - intros Hall.
    destruct (find _ rows) as [x|] eqn:Hfind; [|reflexivity].
    apply find_some in Hfind. destruct Hfind as [Hin Hx].
    apply overlaps_clashes in Hx. now apply Hall in Hx.
Qed.

(** What a call of [createBooking] can do to the bookings table. *)
Lemma createBooking_bookings (user : option Id) (now : Timestamp)
    (b : CreateBookingBody.t) (s : Store) :
  let r := createBooking user now b s in
  (snd r = s /\ is_success (fst r) = false)
  \/ (exists (booking : Booking.t) (transaction : Transaction.t),
        fst r = success (booking, transaction) 201
        /\ bookings (snd r) = bookings s ++ [booking]
        /\ Booking.courtId booking = CreateBookingBody.courtId b
        /\ Booking.startTime booking = CreateBookingBody.startTime b
        /\ Booking.endTime booking = CreateBookingBody.endTime b
        /\ forall existing, In existing (bookings s) ->
                            ~ clashesWith b existing).
Proof.
  unfold createBooking.
  destruct (negb (createBookingSchema b)); [left; split; reflexivity|].
  destruct (findCourt _ s) as [court|]; [|left; split; reflexivity].
  destruct (negb (CourtStatus_beq _ _)); [left; split; reflexivity|].
  destruct (find _ (bookings s)) as [x|] eqn:Hfind;
    [left; split; reflexivity|].
  right. unfold db_transaction, createBookingUnit, bind, fresh, exec, ret.
  cbn [fst snd].
  eexists _, _. split; [reflexivity|].
  repeat split; try reflexivity.
  now apply find_overlaps_none.
Qed.

Lemma createBooking_preserves_noDoubleBooking (user : option Id)
    (now : Timestamp) (b : CreateBookingBody.t) (s : Store) :
  noDoubleBooking s ->
  noDoubleBooking (snd (createBooking user now b s)).
Proof.
  intros Hinv.
  destruct (createBooking_bookings user now b s)
    as [[Hsame _] | (booking & transaction & _ & Hrows & Hc & Hs & He & Hfree)].
  - now rewrite Hsame.
  - unfold noDoubleBooking. rewrite Hrows.
    intros i j x y Hij Hi Hj [Hcourt [Hx [Hy [Hlt Hgt]]]].
    assert (Hlen : forall k z, nth_error (bookings s ++ [booking]) k = Some z ->
              (nth_error (bookings s) k = Some z /\ (k < List.length (bookings s))%nat)
              \/ (k = List.length (bookings s) /\ z = booking)).
    { intros k z Hk.
      destruct (Nat.lt_ge_cases k (List.length (bookings s))) as [Hlt'|Hge].
      - left. rewrite nth_error_app1 in Hk by exact Hlt'. auto.
      - right. rewrite nth_error_app2 in Hk by exact Hge.
        destruct (k - List.length (bookings s))%nat as [|n] eqn:Hd.
        + simpl in Hk. split; [lia|congruence].
        + simpl in Hk. destruct n; discriminate. }
    destruct (Hlen i x Hi) as [[Hi' Hil]|[Hi' Hxb]];
      destruct (Hlen j y Hj) as [[Hj' Hjl]|[Hj' Hyb]].
    + apply (Hinv i j x y Hij Hi' Hj'). unfold conflict. auto.
    + subst y. apply (Hfree x (nth_error_In _ _ Hi')).
      unfold clashesWith. rewrite <- Hc, <- Hs, <- He. auto.
    + subst x. apply (Hfree y (nth_error_In _ _ Hj')).
      unfold clashesWith. rewrite <- Hc, <- Hs, <- He.
      repeat split; [congruence | exact Hy | lia | lia].
    + lia.
Qed.



Lemma findBooking_updated (id : Id) (f : Booking.t -> Booking.t)
    (s : Store) (booking : Booking.t) :
  (forall r, Booking.id (f r) = Booking.id r) ->
  findBooking id s = Some booking ->
  findBooking id
    (on_bookings (update_where (fun r => Booking.id r =? id) f) s)
  = Some (f booking).
Proof.
  intros Hf Hfind. unfold findBooking in *. simpl.
  rewrite (find_update_where_key Booking.id) by exact Hf.
  rewrite Hfind. simpl.
  rewrite (find_some_key Booking.id id _ _ Hfind), Z.eqb_refl.
  reflexivity.
Qed.

(** C10. [completeBooking] marks any existing booking COMPLETED,
    whatever its status was, a CANCELLED one included.  On court A:
    booking 10:00-12:00 is created and cancelled, 11:00-13:00 is then
    accepted, and completing the cancelled booking leaves two bookings
    of the court, neither cancelled, over intersecting intervals: the
    table was free of double bookings before the call and is not after
    it. *)
Theorem completeBooking_revives_cancelled_booking :
  (forall (now : Timestamp) (id : Id) (s : Store) (booking : Booking.t),
      findBooking id s = Some booking ->
      exists updated s',
        completeBooking now id s = (success updated 200, s')
        /\ findBooking id s' = Some updated
        /\ Booking.bookingStatus updated = BkCOMPLETED)
  /\ (is_success (fst (createBooking None 1000 Scenario.first Sample.store))
      = true
      /\ is_success (fst (cancelBooking 2000 101 Scenario.s1)) = true
      /\ is_success (fst (createBooking None 3000 Scenario.second Scenario.s2))
         = true
      /\ option_map Booking.bookingStatus (findBooking 101 Scenario.s3)
         = Some BkCANCELLED
      /\ is_success (fst (completeBooking 4000 101 Scenario.s3)) = true
      /\ noDoubleBooking Scenario.s3
      /\ ~ noDoubleBooking Scenario.s4
      /\ exists a b,
           findBooking 101 Scenario.s4 = Some a
           /\ findBooking 105 Scenario.s4 = Some b
           /\ conflict a b).
Proof.
  split.
  - intros now id s booking Hfind. unfold completeBooking.
    rewrite (findBooking_updated id _ s booking) by (reflexivity || exact Hfind).
    eexists _, _. split; [reflexivity|]. split; [|reflexivity].
    apply findBooking_updated; [reflexivity | exact Hfind].
  - assert (Hconflict : exists a b,
              nth_error (bookings Scenario.s4) 0 = Some a
              /\ nth_error (bookings Scenario.s4) 1 = Some b
              /\ findBooking 101 Scenario.s4 = Some a
              /\ findBooking 105 Scenario.s4 = Some b
              /\ conflict a b).
    { eexists _, _. split; [vm_compute; reflexivity|].
      split; [vm_compute; reflexivity|].
      split; [vm_compute; reflexivity|].
      split; [vm_compute; reflexivity|].
      unfold conflict. vm_compute. repeat split; discriminate. }
    split; [vm_compute; reflexivity|].
    split; [vm_compute; reflexivity|].
    split; [vm_compute; reflexivity|].
    split; [vm_compute; reflexivity|].
    split; [vm_compute; reflexivity|].
    split; [|split].
    + assert (Hrows : exists x y,
                bookings Scenario.s3 = [x; y]
                /\ Booking.bookingStatus x = BkCANCELLED).
      { eexists _, _. split; vm_compute; reflexivity. }
      destruct Hrows as (x & y & Hrows & Hx).
      intros i j a b Hij Hi Hj [_ [Ha [Hb _]]].
      rewrite Hrows in Hi, Hj.
      destruct i as [|[|i]]; destruct j as [|[|j]]; simpl in Hi, Hj;
        try (exfalso; apply Hij; reflexivity);
        try (destruct i; discriminate);
        try (destruct j; discriminate);
        congruence.
    + intros Hinv.
      destruct Hconflict as (a & b & Ha & Hb & _ & _ & Hab).
      apply (Hinv 0%nat 1%nat a b); auto.
    + destruct Hconflict as (a & b & _ & _ & Ha & Hb & Hab). eauto.
Qed.

Lemma completeBooking_revives_cancelled_booking_witness :
  exists updated s',
    completeBooking 4000 101 Scenario.s3 = (success updated 200, s')
    /\ findBooking 101 s' = Some updated
    /\ Booking.bookingStatus updated = BkCOMPLETED.
Proof.
  destruct completeBooking_revives_cancelled_booking as [H _].
  eapply (H 4000 101 Scenario.s3). vm_compute. reflexivity.
Defined.

(** [cancelBooking], for contrast, keeps the table free of double
    bookings: it only ever moves a row to CANCELLED. *)
Lemma cancelBooking_preserves_noDoubleBooking (now : Timestamp) (id : Id)
    (s : Store) :
  noDoubleBooking s -> noDoubleBooking (snd (cancelBooking now id s)).
Proof.
  intros Hinv. unfold cancelBooking.
  destruct (findBooking id s) as [booking|]; [|exact Hinv].
  destruct (BookingStatus_beq _ BkCANCELLED); [exact Hinv|].
  assert (Hg : forall s',
            bookings s'
            = update_where (fun r => Booking.id r =? id)
                (Booking.set_bookingStatus BkCANCELLED now) (bookings s) ->
            noDoubleBooking s').
  { intros s' Hrows. unfold noDoubleBooking. rewrite Hrows. unfold update_where.
    intros i j a b Hij Hi Hj Hab.
    rewrite nth_error_map in Hi, Hj.
    destruct (nth_error (bookings s) i) as [a0|] eqn:Ha0; [|discriminate].
    destruct (nth_error (bookings s) j) as [b0|] eqn:Hb0; [|discriminate].
    simpl in Hi, Hj. injection Hi as <-. injection Hj as <-.
    apply (Hinv i j a0 b0 Hij Ha0 Hb0).
    destruct Hab as (Hc & Hsa & Hsb & Hlt & Hgt).
    destruct (Booking.id a0 =? id); [now contradiction Hsa|].
    destruct (Booking.id b0 =? id); [now contradiction Hsb|].
    repeat split; assumption. }
  unfold db_transaction, bind, exec, ret. cbv zeta.
  destruct (Booking.transactionId booking); apply Hg; reflexivity.
Qed.

(** ** createBooking: price and statuses *)






(** ** updateOrderRequestStatus: the state table *)

Lemma includes_validTransitions (current requested : OrderRequestStatus) :
  includes (validTransitions current) requested = true
  <-> SpecTransition current requested.
Proof.
  split.
  - destruct current, requested; simpl; intros H;
      try discriminate; constructor.
  - intros H. destruct H; reflexivity.
Qed.

Lemma findOrderRequest_updated (id : Id) (f : OrderRequest.t -> OrderRequest.t)
    (s0 s : Store) (existing : OrderRequest.t) :
  (forall r, OrderRequest.id (f r) = OrderRequest.id r) ->
  orderRequests s0 = orderRequests s ->
  findOrderRequest id s = Some existing ->
  findOrderRequest id
    (on_orderRequests (update_where (fun r => OrderRequest.id r =? id) f) s0)
  = Some (f existing).
Proof.
  intros Hf Hsame Hfind. unfold findOrderRequest in *. simpl.
  rewrite (find_update_where_key OrderRequest.id) by exact Hf.
  rewrite Hsame, Hfind. simpl.
  rewrite (find_some_key OrderRequest.id id _ _ Hfind), Z.eqb_refl.
  reflexivity.
Qed.

(** C6. For an order request in status [current] and a requested status
    [requested]: the call succeeds only if the pair is in the state
    table; a pair outside the table is always answered with an error and
    the store (so the status) is unchanged, and for a request that passed
    the schema, from an authenticated caller, that error is the 400
    naming the current and the requested status; a pair of the table
    other than the one to SERVED succeeds and sets the status. *)
Theorem updateOrderRequestStatus_state_table :
  forall (user : option Id) (now : Timestamp) (id : Id)
         (b : UpdateStatusBody.t) (s : Store) (existing : OrderRequest.t),
    findOrderRequest id s = Some existing ->
    let current := OrderRequest.status existing in
    let requested := UpdateStatusBody.status b in
    (forall data code s',
        updateOrderRequestStatus user now id b s = (success data code, s') ->
        SpecTransition current requested)
    /\ (~ SpecTransition current requested ->
        (exists message code,
            updateOrderRequestStatus user now id b s
            = (errorResponse message code, s))
        /\ orderStatus id (snd (updateOrderRequestStatus user now id b s))
           = Some current
        /\ (updateOrderRequestStatusSchema b = true -> user <> None ->
            updateOrderRequestStatus user now id b s
            = (errorResponse (CannotTransition current requested) 400, s)))
    /\ (SpecTransition current requested -> requested <> SERVED ->
        user <> None ->
        exists data s',
          updateOrderRequestStatus user now id b s = (success data 200, s')
          /\ orderStatus id s' = Some requested).
Proof.
  intros user now id b s existing Hfind current requested.
  assert (Hstatus : orderStatus id s = Some current)
    by (unfold orderStatus; now rewrite Hfind).
  unfold updateOrderRequestStatus. rewrite Hfind.
  fold current. fold requested.
  split; [|split].
  - intros data code s'.
    destruct (negb (updateOrderRequestStatusSchema b)); [discriminate|].
    destruct user as [userId|]; [|discriminate].
    destruct (includes (validTransitions current) requested) eqn:Hinc;
      simpl; [|discriminate].
    intros _. now apply includes_validTransitions.
  - intros Hno.
    assert (Hinc : includes (validTransitions current) requested = false).
    { destruct (includes (validTransitions current) requested) eqn:Hinc;
        [|reflexivity].
      apply includes_validTransitions in Hinc. contradiction. }
    rewrite Hinc. simpl.
    destruct (negb (updateOrderRequestStatusSchema b)) eqn:Hschema.
    + simpl. split; [eauto|]. split; [exact Hstatus|].
      intros Hvalid. rewrite Hvalid in Hschema. discriminate.
    + destruct user as [userId|].
      * simpl. split; [eauto|]. split; [exact Hstatus|]. reflexivity.
      * simpl. split; [eauto|]. split; [exact Hstatus|].
        intros _ Hnone. now contradiction Hnone.
  - intros Htable Hserved Huser.
    destruct user as [userId|]; [|now contradiction Huser].
    assert (Hschema : updateOrderRequestStatusSchema b = true).
    { unfold updateOrderRequestStatusSchema. fold requested.
      destruct Htable; reflexivity. }
    rewrite Hschema. simpl.
    apply includes_validTransitions in Htable. rewrite Htable. simpl.
    unfold db_transaction, updateOrderRequestStatusUnit.
    fold requested.
    assert (Hunit :
      forall k : option Transaction.t -> Tx (option OrderRequest.t * option Transaction.t),
        bind (match requested with
              | SERVED =>
                  let invoiceNumber := generateInvoiceNumber now s in
                  tid <- fresh ;;
                  let transaction :=
                    servedTransaction tid invoiceNumber existing userId now in
                  exec (on_transactions (insert_row transaction)) ;;;
                  forEach (orderItemsOf id s) (serveItem now tid) ;;;
                  ret (Some transaction)
              | _ => ret None
              end) k s = k None s).
    { intros k. destruct requested; try reflexivity. now contradiction Hserved. }
    rewrite Hunit. unfold bind, exec, query, ret. simpl.
    eexists _, _. split; [reflexivity|].
    unfold orderStatus.
    rewrite (findOrderRequest_updated id _ s s existing);
      [reflexivity | reflexivity | reflexivity | exact Hfind].
Qed.

Lemma updateOrderRequestStatus_state_table_witness :
  updateOrderRequestStatus (Some Sample.user) 1000 11
    (UpdateStatusBody.mk APPROVED None) Sample.store
  = (errorResponse (CannotTransition SERVED APPROVED) 400, Sample.store).
Proof.
  destruct (updateOrderRequestStatus_state_table (Some Sample.user) 1000 11
              (UpdateStatusBody.mk APPROVED None) Sample.store Sample.order2
              eq_refl) as (_ & H & _).
  apply H.
  - intros Hbad. inversion Hbad.
  - reflexivity.
  - discriminate.
Defined.

(** ** updateOrderRequestStatus: the SERVED branch *)









(** ** adjustInventoryStock *)



(** * Further properties *)

(** ** Rows and queries, continued *)

Lemma find_update_where {A} (key : A -> Z) (k : Z) (q : A -> bool)
    (f : A -> A) (rows : list A) :
  (forall r, key (f r) = key r) ->
  find (fun r => key r =? k) (update_where q f rows)
  = option_map (fun r => if q r then f r else r)
      (find (fun r => key r =? k) rows).
Proof.
  intros Hkey. unfold update_where.
  induction rows as [|r rows IH]; simpl; [reflexivity|].
  destruct (q r) eqn:Hq.
  - rewrite Hkey. destruct (key r =? k); simpl; [now rewrite Hq | exact IH].
  - destruct (key r =? k); simpl; [now rewrite Hq | exact IH].
Qed.

Lemma update_where_none {A} (q : A -> bool) (f : A -> A) (rows : list A) :
  (forall r, In r rows -> q r = false) -> update_where q f rows = rows.
Proof.
  intros Hnone. unfold update_where.
  induction rows as [|r rows IH]; simpl; [reflexivity|].
  rewrite (Hnone r (or_introl eq_refl)). f_equal.
  apply IH. intros x Hx. apply Hnone. now right.
Qed.

Lemma find_none_key {A} (key : A -> Z) (k : Z) (rows : list A) :
  find (fun r => key r =? k) rows = None ->
  forall r, In r rows -> (key r =? k) = false.
Proof. intros H r Hin. exact (find_none _ _ H r Hin). Qed.

Lemma Forall_update_where {A} (P : A -> Prop) (q : A -> bool) (f : A -> A)
    (rows : list A) :
  Forall P rows ->
  (forall r, In r rows -> q r = true -> P (f r)) ->
  Forall P (update_where q f rows).
Proof.
  intros Hall Hf. unfold update_where. apply Forall_forall.
  intros x Hx. apply in_map_iff in Hx. destruct Hx as (r & <- & Hr).
  destruct (q r) eqn:Hq; [now apply Hf|].
  exact (proj1 (Forall_forall P rows) Hall r Hr).
Qed.

Lemma In_update_where {A} (q : A -> bool) (f : A -> A) (rows : list A) (x : A) :
  In x (update_where q f rows) ->
  exists r, In r rows /\ x = if q r then f r else r.
Proof.
  unfold update_where. intros Hx. apply in_map_iff in Hx.
  destruct Hx as (r & <- & Hr). eauto.
Qed.

Lemma on_bookings_same (s : Store) : on_bookings (fun rows => rows) s = s.
Proof. destruct s. reflexivity. Qed.

Lemma withCatalog_same (s : Store) : onlyCatalogChanged s s.
Proof. destruct s. reflexivity. Qed.

Lemma onlyCatalogChanged_trans (s1 s2 s3 : Store) :
  onlyCatalogChanged s1 s2 -> onlyCatalogChanged s2 s3 ->
  onlyCatalogChanged s1 s3.
Proof.
  unfold onlyCatalogChanged. intros H12 H23.
  rewrite H23 at 1. rewrite H12 at 1. reflexivity.
Qed.

(** ** payTransaction *)




(** ** The restore loops *)

Lemma forEach_steps {A} (body : A -> Tx unit)
    (R : list A -> Store -> Store -> Prop) :
  (forall s, R [] s s) ->
  (forall l1 l2 s1 s2 s3, R l1 s1 s2 -> R l2 s2 s3 -> R (l1 ++ l2) s1 s3) ->
  (forall x s, exists s', body x s = (Return tt, s') /\ R [x] s s') ->
  forall xs s, exists s', forEach xs body s = (Return tt, s') /\ R xs s s'.
Proof.
  intros Hnil Happ Hbody.
  induction xs as [|x xs IH]; intros s; simpl.
  - exists s. split; [reflexivity | apply Hnil].
  - destruct (Hbody x s) as (s1 & Hx & H1).
    destruct (IH s1) as (s2 & Hxs & H2).
    exists s2. split.
    + rewrite (bind_return _ _ _ _ _ Hx). exact Hxs.
    + exact (Happ [x] xs s s1 s2 H1 H2).
Qed.

Lemma productQuantity_app (id : Id) (l1 l2 : list TransactionItem.t) :
  productQuantity id (l1 ++ l2) = productQuantity id l1 + productQuantity id l2.
Proof. unfold productQuantity. now rewrite filter_app, map_app, sumZ_app. Qed.

Lemma menuQuantity_app (id : Id) (l1 l2 : list TransactionItem.t) :
  menuQuantity id (l1 ++ l2) = menuQuantity id l1 + menuQuantity id l2.
Proof. unfold menuQuantity. now rewrite filter_app, map_app, sumZ_app. Qed.

Lemma productQuantity_one (id : Id) (item : TransactionItem.t) :
  productQuantity id [item]
  = if namesProduct id item then TransactionItem.quantity item else 0.
Proof.
  unfold productQuantity. simpl. destruct (namesProduct id item); simpl; lia.
Qed.

Lemma menuQuantity_one (id : Id) (item : TransactionItem.t) :
  menuQuantity id [item]
  = if namesMenu id item then TransactionItem.quantity item else 0.
Proof.
  unfold menuQuantity. simpl. destruct (namesMenu id item); simpl; lia.
Qed.

Section Restored.
Variable applies : ProductType -> bool.

Lemma productsRestored_nil (s s' : Store) :
  products s' = products s -> productsRestored applies [] s s'.
Proof.
  intros Hsame id. unfold findProduct. rewrite Hsame.
  destruct (find _ (products s)) as [p|]; [|reflexivity].
  exists p. split; [reflexivity|]. split; [apply sameProduct_refl|].
  unfold productQuantity. simpl. destruct (applies (Product.type p)); lia.
Qed.

Lemma productsRestored_app (l1 l2 : list TransactionItem.t)
    (s s1 s2 : Store) :
  productsRestored applies l1 s s1 -> productsRestored applies l2 s1 s2 ->
  productsRestored applies (l1 ++ l2) s s2.
Proof.
  intros H1 H2 id. specialize (H1 id). specialize (H2 id).
  destruct (findProduct id s) as [p|].
  - destruct H1 as (p1 & Hf1 & Hs1 & Hq1). rewrite Hf1 in H2.
    destruct H2 as (p2 & Hf2 & Hs2 & Hq2).
    exists p2. split; [exact Hf2|]. split.
    + destruct Hs1 as (?&?&?&?&?), Hs2 as (?&?&?&?&?).
      repeat split; congruence.
    + destruct Hs1 as (_ & _ & _ & Ht & _).
      rewrite Hq2, Hq1, Ht, productQuantity_app.
      destruct (applies (Product.type p)); lia.
  - now rewrite H1 in H2.
Qed.

(** A turn that writes [stock + quantity] to the product it names. *)
Lemma productsRestored_setStock (now : Timestamp) (item : TransactionItem.t)
    (s s' : Store) (productId : Id) (p : Product.t) :
  TransactionItem.itemType item = ItemPRODUCT ->
  TransactionItem.productId item = Some productId ->
  findProduct productId s = Some p ->
  applies (Product.type p) = true ->
  products s'
  = update_where (fun r => Product.id r =? productId)
      (Product.set_stock (Product.stock p + TransactionItem.quantity item) now)
      (products s) ->
  productsRestored applies [item] s s'.
Proof.
  intros Htype Hpid Hfind Happlies Hrows id. unfold findProduct in *.
  rewrite Hrows, (find_update_where_key Product.id) by reflexivity.
  destruct (find (fun r => Product.id r =? id) (products s)) as [q|] eqn:Hq;
    [|reflexivity].
  simpl. pose proof (find_some_key Product.id id _ _ Hq) as Hid. subst id.
  rewrite productQuantity_one. unfold namesProduct.
  rewrite Htype, Hpid, (Z.eqb_sym productId).
  destruct (Product.id q =? productId) eqn:Heq.
  - apply Z.eqb_eq in Heq. rewrite <- Heq in Hfind.
    assert (q = p) by congruence. subst q.
    eexists. split; [reflexivity|]. split; [repeat split|].
    simpl. now rewrite Happlies.
  - exists q. split; [reflexivity|]. split; [apply sameProduct_refl|].
    destruct (applies (Product.type q)); lia.
Qed.

(** A turn that leaves the products alone. *)
Lemma productsRestored_skip (item : TransactionItem.t) (s s' : Store) :
  products s' = products s ->
  (forall id p, namesProduct id item = true -> findProduct id s = Some p ->
                applies (Product.type p) = false) ->
  productsRestored applies [item] s s'.
Proof.
  intros Hrows Hskip id.
  assert (Hf : findProduct id s' = findProduct id s)
    by (unfold findProduct; now rewrite Hrows).
  rewrite Hf.
  destruct (findProduct id s) as [q|] eqn:Hq; [|reflexivity].
  exists q. split; [reflexivity|]. split; [apply sameProduct_refl|].
  rewrite productQuantity_one.
  destruct (namesProduct id item) eqn:Hnames.
  - rewrite (Hskip id q Hnames Hq). lia.
  - destruct (applies (Product.type q)); lia.
Qed.

End Restored.

Lemma menusRestored_nil (s s' : Store) :
  menus s' = menus s -> menusRestored [] s s'.
Proof.
  intros Hsame id. unfold findMenu. rewrite Hsame.
  destruct (find _ (menus s)) as [m|]; [|reflexivity].
  exists m. split; [reflexivity|]. split; [apply sameMenu_refl|].
  unfold menuQuantity. simpl. destruct (Menu.stock m); simpl; [f_equal; lia|].
  reflexivity.
Qed.

Lemma menusRestored_app (l1 l2 : list TransactionItem.t) (s s1 s2 : Store) :
  menusRestored l1 s s1 -> menusRestored l2 s1 s2 ->
  menusRestored (l1 ++ l2) s s2.
Proof.
  intros H1 H2 id. specialize (H1 id). specialize (H2 id).
  destruct (findMenu id s) as [m|].
  - destruct H1 as (m1 & Hf1 & Hs1 & Hq1). rewrite Hf1 in H2.
    destruct H2 as (m2 & Hf2 & Hs2 & Hq2).
    exists m2. split; [exact Hf2|]. split.
    + destruct Hs1 as (?&?&?&?), Hs2 as (?&?&?&?).
      repeat split; congruence.
    + rewrite Hq2, Hq1, menuQuantity_app.
      destruct (Menu.stock m); simpl; [f_equal; lia | reflexivity].
  - now rewrite H1 in H2.
Qed.

Lemma menusRestored_setStock (now : Timestamp) (item : TransactionItem.t)
    (s s' : Store) (menuId : Id) (m : Menu.t) (stock : Z) :
  TransactionItem.itemType item = ItemMENU ->
  TransactionItem.menuId item = Some menuId ->
  findMenu menuId s = Some m ->
  Menu.stock m = Some stock ->
  menus s'
  = update_where (fun r => Menu.id r =? menuId)
      (Menu.set_stock (stock + TransactionItem.quantity item) now) (menus s) ->
  menusRestored [item] s s'.
Proof.
  intros Htype Hmid Hfind Hstock Hrows id. unfold findMenu in *.
  rewrite Hrows, (find_update_where_key Menu.id) by reflexivity.
  destruct (find (fun r => Menu.id r =? id) (menus s)) as [q|] eqn:Hq;
    [|reflexivity].
  simpl. pose proof (find_some_key Menu.id id _ _ Hq) as Hid. subst id.
  rewrite menuQuantity_one. unfold namesMenu.
  rewrite Htype, Hmid, (Z.eqb_sym menuId).
  destruct (Menu.id q =? menuId) eqn:Heq.
  - apply Z.eqb_eq in Heq. rewrite <- Heq in Hfind.
    assert (q = m) by congruence. subst q.
    eexists. split; [reflexivity|]. split; [repeat split|].
    simpl. now rewrite Hstock.
  - exists q. split; [reflexivity|]. split; [apply sameMenu_refl|].
    destruct (Menu.stock q); simpl; [f_equal; lia | reflexivity].
Qed.

Lemma menusRestored_skip (item : TransactionItem.t) (s s' : Store) :
  menus s' = menus s ->
  (forall id m, namesMenu id item = true -> findMenu id s = Some m ->
                Menu.stock m = None) ->
  menusRestored [item] s s'.
Proof.
  intros Hrows Hskip id.
  assert (Hf : findMenu id s' = findMenu id s)
    by (unfold findMenu; now rewrite Hrows).
  rewrite Hf.
  destruct (findMenu id s) as [q|] eqn:Hq; [|reflexivity].
  exists q. split; [reflexivity|]. split; [apply sameMenu_refl|].
  rewrite menuQuantity_one.
  destruct (namesMenu id item) eqn:Hnames.
  - now rewrite (Hskip id q Hnames Hq).
  - destruct (Menu.stock q); simpl; [f_equal; lia | reflexivity].
Qed.

Lemma stockNonNegative_setProduct (s : Store) (id : Id) (stock : Z)
    (now : Timestamp) :
  stockNonNegative s -> 0 <= stock ->
  stockNonNegative
    (on_products (update_where (fun p => Product.id p =? id)
                    (Product.set_stock stock now)) s).
Proof.
  intros [Hp Hm] Hstock. split; [|exact Hm]. simpl.
  apply Forall_update_where; [exact Hp|]. intros r _ _. exact Hstock.
Qed.

Lemma stockNonNegative_setMenu (s : Store) (id : Id) (stock : Z)
    (now : Timestamp) :
  stockNonNegative s -> 0 <= stock ->
  stockNonNegative
    (on_menus (update_where (fun m => Menu.id m =? id)
                 (Menu.set_stock stock now)) s).
Proof.
  intros [Hp Hm] Hstock. split; [exact Hp|]. simpl.
  apply Forall_update_where; [exact Hm|].
  intros r _ _ k Hk. simpl in Hk. congruence.
Qed.

Lemma stockNonNegative_product (s : Store) (id : Id) (p : Product.t) :
  stockNonNegative s -> findProduct id s = Some p -> 0 <= Product.stock p.
Proof.
  intros [Hp _] Hfind. apply find_some in Hfind.
  exact (proj1 (Forall_forall _ _) Hp p (proj1 Hfind)).
Qed.

Lemma stockNonNegative_menu (s : Store) (id : Id) (m : Menu.t) (stock : Z) :
  stockNonNegative s -> findMenu id s = Some m -> Menu.stock m = Some stock ->
  0 <= stock.
Proof.
  intros [_ Hm] Hfind Hstock. apply find_some in Hfind.
  exact (proj1 (Forall_forall _ _) Hm m (proj1 Hfind) stock Hstock).
Qed.

Lemma on_products_catalog (f : list Product.t -> list Product.t) (s : Store) :
  onlyCatalogChanged s (on_products f s).
Proof. destruct s. reflexivity. Qed.

Lemma on_menus_catalog (f : list Menu.t -> list Menu.t) (s : Store) :
  onlyCatalogChanged s (on_menus f s).
Proof. destruct s. reflexivity. Qed.

Lemma namesMenu_product (id : Id) (item : TransactionItem.t) :
  TransactionItem.itemType item = ItemPRODUCT -> namesMenu id item = false.
Proof. intros H. unfold namesMenu. now rewrite H. Qed.

Lemma namesProduct_menu (id : Id) (item : TransactionItem.t) :
  TransactionItem.itemType item <> ItemPRODUCT -> namesProduct id item = false.
Proof.
  intros H. unfold namesProduct.
  destruct (TransactionItem.itemType item); congruence.
Qed.

(** A turn that changes nothing. *)
Lemma restoredAll_idle (item : TransactionItem.t) (s : Store) :
  (forall id p, namesProduct id item = true -> findProduct id s = Some p ->
                False) ->
  (forall id m, namesMenu id item = true -> findMenu id s = Some m ->
                Menu.stock m = None) ->
  restoredAll [item] s s.
Proof.
  intros Hp Hm. split; [|split; [|split]].
  - apply productsRestored_skip; [reflexivity|].
    intros id p Hn Hf. destruct (Hp id p Hn Hf).
  - now apply menusRestored_skip.
  - apply withCatalog_same.
  - intros H _. exact H.
Qed.

Lemma namesProduct_found (id productId : Id) (item : TransactionItem.t) :
  TransactionItem.productId item = Some productId ->
  namesProduct id item = true -> id = productId.
Proof.
  unfold namesProduct. intros Hpid.
  destruct (TransactionItem.itemType item); try discriminate.
  rewrite Hpid. intros H. apply Z.eqb_eq in H. congruence.
Qed.

Lemma namesMenu_found (id menuId : Id) (item : TransactionItem.t) :
  TransactionItem.menuId item = Some menuId ->
  namesMenu id item = true -> id = menuId.
Proof.
  unfold namesMenu. intros Hmid.
  destruct (TransactionItem.itemType item); try discriminate.
  rewrite Hmid. intros H. apply Z.eqb_eq in H. congruence.
Qed.

Lemma namesProduct_none (id : Id) (item : TransactionItem.t) :
  TransactionItem.productId item = None -> namesProduct id item = false.
Proof.
  unfold namesProduct. intros ->.
  now destruct (TransactionItem.itemType item).
Qed.

Lemma namesMenu_none (id : Id) (item : TransactionItem.t) :
  TransactionItem.menuId item = None -> namesMenu id item = false.
Proof.
  unfold namesMenu. intros ->.
  now destruct (TransactionItem.itemType item).
Qed.

Lemma restoreItem_run (now : Timestamp) (item : TransactionItem.t) (s : Store) :
  exists s', restoreItem now item s = (Return tt, s') /\ restoredAll [item] s s'.
Proof.
  unfold restoreItem.
  destruct (TransactionItem.itemType item) eqn:Htype.
  - (* PRODUCT *)
    destruct (TransactionItem.productId item) as [productId|] eqn:Hpid.
    + rewrite bind_query.
      destruct (findProduct productId s) as [p|] eqn:Hfind.
      * eexists. split; [reflexivity|]. split; [|split; [|split]].
        -- eapply productsRestored_setStock; eauto; reflexivity.
        -- apply menusRestored_skip; [reflexivity|].
           intros id m Hn. now rewrite namesMenu_product in Hn.
        -- apply on_products_catalog.
        -- intros Hs Hq. apply stockNonNegative_setProduct; [exact Hs|].
           pose proof (stockNonNegative_product _ _ _ Hs Hfind).
           inversion Hq; subst. lia.
      * exists s. split; [reflexivity|]. apply restoredAll_idle.
        -- intros id p Hn Hf.
           rewrite (namesProduct_found _ _ _ Hpid Hn) in Hf. congruence.
        -- intros id m Hn. now rewrite namesMenu_product in Hn.
    + exists s. split; [reflexivity|]. apply restoredAll_idle.
      * intros id p Hn. now rewrite namesProduct_none in Hn.
      * intros id m Hn. now rewrite namesMenu_product in Hn.
  - (* MENU *)
    assert (Hnp : forall id p, namesProduct id item = true ->
                               findProduct id s = Some p -> False).
    { intros id p Hn. rewrite namesProduct_menu in Hn; congruence. }
    destruct (TransactionItem.menuId item) as [menuId|] eqn:Hmid.
    + assert (Hgo :
        exists s',
          (found <- query (findMenu menuId) ;;
           match found with
           | Some menu =>
               match Menu.stock menu with
               | Some stock =>
                   setMenuStock menuId (stock + TransactionItem.quantity item)
                     now
               | None => ret tt
               end
           | None => ret tt
           end) s = (Return tt, s') /\ restoredAll [item] s s').
      { rewrite bind_query.
        destruct (findMenu menuId s) as [m|] eqn:Hfind.
        - destruct (Menu.stock m) as [stock|] eqn:Hstock.
          + eexists. split; [reflexivity|]. split; [|split; [|split]].
            * apply productsRestored_skip; [reflexivity|].
              intros id p Hn Hf. destruct (Hnp id p Hn Hf).
            * eapply menusRestored_setStock; eauto; reflexivity.
            * apply on_menus_catalog.
            * intros Hs Hq. apply stockNonNegative_setMenu; [exact Hs|].
              pose proof (stockNonNegative_menu _ _ _ _ Hs Hfind Hstock).
              inversion Hq; subst. lia.
          + exists s. split; [reflexivity|]. apply restoredAll_idle; [exact Hnp|].
            intros id m' Hn Hf.
            rewrite (namesMenu_found _ _ _ Hmid Hn) in Hf. congruence.
        - exists s. split; [reflexivity|]. apply restoredAll_idle; [exact Hnp|].
          intros id m' Hn Hf.
          rewrite (namesMenu_found _ _ _ Hmid Hn) in Hf. congruence. }
      destruct (TransactionItem.productId item); exact Hgo.
    + exists s. split; [destruct (TransactionItem.productId item); reflexivity|].
      apply restoredAll_idle; [exact Hnp|].
      intros id m Hn. now rewrite namesMenu_none in Hn.
  - (* BOOKING *)
    exists s.
    split; [destruct (TransactionItem.productId item),
                     (TransactionItem.menuId item); reflexivity|].
    apply restoredAll_idle.
    + intros id p Hn. rewrite namesProduct_menu in Hn; congruence.
    + intros id m Hn. unfold namesMenu in Hn. now rewrite Htype in Hn.
Qed.

Lemma restoredAll_nil (s : Store) : restoredAll [] s s.
Proof.
  split; [|split; [|split]].
  - now apply productsRestored_nil.
  - now apply menusRestored_nil.
  - apply withCatalog_same.
  - intros H _. exact H.
Qed.

Lemma restoredAll_app (l1 l2 : list TransactionItem.t) (s1 s2 s3 : Store) :
  restoredAll l1 s1 s2 -> restoredAll l2 s2 s3 -> restoredAll (l1 ++ l2) s1 s3.
Proof.
  intros (Hp1 & Hm1 & Hc1 & Hn1) (Hp2 & Hm2 & Hc2 & Hn2).
  split; [|split; [|split]].
  - eapply productsRestored_app; eauto.
  - eapply menusRestored_app; eauto.
  - eapply onlyCatalogChanged_trans; eauto.
  - intros Hs Hq. apply Forall_app in Hq. destruct Hq as [Hq1 Hq2]. auto.
Qed.

Lemma restoreItems_run (now : Timestamp) (items : list TransactionItem.t)
    (s : Store) :
  exists s', forEach items (restoreItem now) s = (Return tt, s')
             /\ restoredAll items s s'.
Proof.
  apply (forEach_steps (restoreItem now) restoredAll).
  - apply restoredAll_nil.
  - apply restoredAll_app.
  - apply restoreItem_run.
Qed.

(** A turn of the loop of [completeTransaction] that changes nothing. *)
Lemma returnedRentals_idle (item : TransactionItem.t) (s : Store) :
  (forall id p, namesProduct id item = true -> findProduct id s = Some p ->
                rentOnly (Product.type p) = false) ->
  returnedRentals [item] s s.
Proof.
  intros Hp. split; [|split; [|split]].
  - now apply productsRestored_skip.
  - reflexivity.
  - apply withCatalog_same.
  - intros H _. exact H.
Qed.

Lemma returnItem_run (now : Timestamp) (item : TransactionItem.t) (s : Store) :
  exists s', returnItem now item s = (Return tt, s')
             /\ returnedRentals [item] s s'.
Proof.
  unfold returnItem.
  destruct (TransactionItem.itemType item) eqn:Htype.
  - destruct (TransactionItem.productId item) as [productId|] eqn:Hpid.
    + rewrite bind_query.
      destruct (findProduct productId s) as [p|] eqn:Hfind.
      * destruct (Product.type p) eqn:Hptype.
        -- exists s. split; [reflexivity|]. apply returnedRentals_idle.
           intros id q Hn Hf.
           rewrite (namesProduct_found _ _ _ Hpid Hn) in Hf.
           assert (q = p) by congruence. subst q. now rewrite Hptype.
        -- eexists. split; [reflexivity|]. split; [|split; [|split]].
           ++ eapply productsRestored_setStock; eauto; try reflexivity.
              now rewrite Hptype.
           ++ reflexivity.
           ++ apply on_products_catalog.
           ++ intros Hs Hq. apply stockNonNegative_setProduct; [exact Hs|].
              pose proof (stockNonNegative_product _ _ _ Hs Hfind).
              inversion Hq; subst. lia.
      * exists s. split; [reflexivity|]. apply returnedRentals_idle.
        intros id q Hn Hf.
        rewrite (namesProduct_found _ _ _ Hpid Hn) in Hf. congruence.
    + exists s. split; [reflexivity|]. apply returnedRentals_idle.
      intros id q Hn. now rewrite namesProduct_none in Hn.
  - exists s. split; [reflexivity|]. apply returnedRentals_idle.
    intros id q Hn. rewrite namesProduct_menu in Hn; congruence.
  - exists s. split; [reflexivity|]. apply returnedRentals_idle.
    intros id q Hn. rewrite namesProduct_menu in Hn; congruence.
Qed.

Lemma returnedRentals_nil (s : Store) : returnedRentals [] s s.
Proof.
  split; [|split; [|split]].
  - now apply productsRestored_nil.
  - reflexivity.
  - apply withCatalog_same.
  - intros H _. exact H.
Qed.

Lemma returnedRentals_app (l1 l2 : list TransactionItem.t) (s1 s2 s3 : Store) :
  returnedRentals l1 s1 s2 -> returnedRentals l2 s2 s3 ->
  returnedRentals (l1 ++ l2) s1 s3.
Proof.
  intros (Hp1 & Hm1 & Hc1 & Hn1) (Hp2 & Hm2 & Hc2 & Hn2).
  split; [|split; [|split]].
  - eapply productsRestored_app; eauto.
  - congruence.
  - eapply onlyCatalogChanged_trans; eauto.
  - intros Hs Hq. apply Forall_app in Hq. destruct Hq as [Hq1 Hq2]. auto.
Qed.

Lemma returnItems_run (now : Timestamp) (items : list TransactionItem.t)
    (s : Store) :
  exists s', forEach items (returnItem now) s = (Return tt, s')
             /\ returnedRentals items s s'.
Proof.
  apply (forEach_steps (returnItem now) returnedRentals).
  - apply returnedRentals_nil.
  - apply returnedRentals_app.
  - apply returnItem_run.
Qed.

(** ** cancelTransaction and completeTransaction *)

Lemma TransactionStatus_beq_false (a b : TransactionStatus) :
  a <> b -> TransactionStatus_beq a b = false.
Proof. destruct a, b; simpl; intros H; try reflexivity; now contradiction H. Qed.

Lemma TransactionStatus_beq_true (a b : TransactionStatus) :
  TransactionStatus_beq a b = true -> a = b.
Proof. destruct a, b; simpl; intros H; try reflexivity; discriminate. Qed.

Lemma tablesCleared_released (tableId : option Id) (now : Timestamp)
    (s s' : Store) :
  tables s' = tablesCleared tableId now s -> tableReleased tableId s'.
Proof.
  intros Htables tid row Htid Hin Hid. subst tableId.
  rewrite Htables in Hin. simpl in Hin.
  apply In_update_where in Hin. destruct Hin as (r & _ & ->).
  destruct (Table.id r =? tid) eqn:Heq.
  - repeat split.
  - apply Z.eqb_neq in Heq. contradiction.
Qed.

Lemma cancelTransaction_run (now : Timestamp) (id : Id) (s : Store)
    (transaction : Transaction.t) :
  findTransaction id s = Some transaction ->
  Transaction.status transaction <> TxCANCELLED ->
  exists s1 s',
    restoredAll (itemsOf id s) s s1
    /\ cancelTransaction now id s = (success id 200, s')
    /\ products s' = products s1
    /\ menus s' = menus s1
    /\ tables s' = tablesCleared (Transaction.tableId transaction) now s
    /\ transactions s'
       = update_where (fun r => Transaction.id r =? id)
           (Transaction.set_status TxCANCELLED now) (transactions s)
    /\ productSellRecords s'
       = update_where (fun r => ProductSellRecord.transactionId r =? id)
           (ProductSellRecord.set_status SellCANCELLED) (productSellRecords s)
    /\ productRentRecords s'
       = update_where (fun r => ProductRentRecord.transactionId r =? id)
           (ProductRentRecord.set_status RentCANCELLED) (productRentRecords s)
    /\ sameElsewhere s s'.
Proof.
  intros Hfind Hstatus.
  destruct (restoreItems_run now (itemsOf id s) s) as (s1 & Hloop & Hres).
  exists s1.
  assert (Hcat : onlyCatalogChanged s s1) by apply Hres.
  unfold onlyCatalogChanged in Hcat.
  unfold cancelTransaction. rewrite Hfind.
  rewrite (TransactionStatus_beq_false _ _ Hstatus).
  unfold db_transaction, cancelTransactionUnit.
  rewrite (bind_return _ _ _ _ _ Hloop), !bind_exec.
  unfold clearTable, tablesCleared, sameElsewhere.
  destruct (Transaction.tableId transaction) as [tid|];
    (eexists; split; [exact Hres|]; split; [reflexivity|];
     rewrite Hcat; simpl; repeat split).
Qed.

Lemma completeTransaction_run (now : Timestamp) (id : Id) (s : Store)
    (transaction : Transaction.t) :
  findTransaction id s = Some transaction ->
  Transaction.type transaction = RENTAL ->
  Transaction.status transaction <> TxCOMPLETED ->
  Transaction.status transaction <> TxCANCELLED ->
  exists s1 s',
    returnedRentals (itemsOf id s) s s1
    /\ completeTransaction now id s = (success id 200, s')
    /\ products s' = products s1
    /\ menus s' = menus s
    /\ tables s' = tablesCleared (Transaction.tableId transaction) now s
    /\ transactions s'
       = update_where (fun r => Transaction.id r =? id)
           (Transaction.set_status TxCOMPLETED now) (transactions s)
    /\ productSellRecords s' = productSellRecords s
    /\ productRentRecords s'
       = update_where (fun r => ProductRentRecord.transactionId r =? id)
           (ProductRentRecord.set_returned now) (productRentRecords s)
    /\ sameElsewhere s s'.
Proof.
  intros Hfind Htype Hcompleted Hcancelled.
  destruct (returnItems_run now (itemsOf id s) s) as (s1 & Hloop & Hres).
  exists s1.
  assert (Hmenus : menus s1 = menus s) by apply Hres.
  assert (Hcat : onlyCatalogChanged s s1) by apply Hres.
  unfold onlyCatalogChanged in Hcat.
  unfold completeTransaction. rewrite Hfind, Htype. simpl.
  rewrite (TransactionStatus_beq_false _ _ Hcompleted).
  rewrite (TransactionStatus_beq_false _ _ Hcancelled).
  unfold db_transaction, completeTransactionUnit.
  rewrite bind_query, (bind_return _ _ _ _ _ Hloop), !bind_exec.
  unfold clearTable, tablesCleared, sameElsewhere.
  destruct (Transaction.tableId transaction) as [tid|];
    (eexists; split; [exact Hres|]; split; [reflexivity|];
     rewrite <- Hmenus; rewrite Hcat; simpl; repeat split).
Qed.

Lemma findTransaction_rows (id : Id) (f : Transaction.t -> Transaction.t)
    (s s' : Store) (transaction : Transaction.t) :
  (forall r, Transaction.id (f r) = Transaction.id r) ->
  transactions s'
  = update_where (fun r => Transaction.id r =? id) f (transactions s) ->
  findTransaction id s = Some transaction ->
  findTransaction id s' = Some (f transaction).
Proof.
  intros Hf Hrows Hfind. unfold findTransaction in *. rewrite Hrows.
  rewrite (find_update_where_key Transaction.id) by exact Hf.
  rewrite Hfind. simpl.
  rewrite (find_some_key Transaction.id id _ _ Hfind), Z.eqb_refl.
  reflexivity.
Qed.

(** X2. [cancelTransaction] accepts every existing transaction that is
    not CANCELLED and refuses the others without touching the store.
    Accepted, it gives back to every product the quantities of the items
    that name it, SELL or RENT alike, and to every menu with tracked
    stock the quantities of its items (a menu with unlimited stock stays
    unlimited); it marks the transaction CANCELLED, its sell and rent
    records CANCELLED, clears the table it was linked to, and writes
    nothing else. *)
Theorem cancelTransaction_effect :
  forall (now : Timestamp) (id : Id) (s : Store),
    let r := cancelTransaction now id s in
    (is_success (fst r) = false -> snd r = s)
    /\ (findTransaction id s = None ->
        fst r = errorResponse TransactionNotFound 404)
    /\ (forall transaction,
          findTransaction id s = Some transaction ->
          (is_success (fst r) = true
           <-> Transaction.status transaction <> TxCANCELLED)
          /\ (Transaction.status transaction <> TxCANCELLED ->
              fst r = success id 200
              /\ productsRestored everyType (itemsOf id s) s (snd r)
              /\ menusRestored (itemsOf id s) s (snd r)
              /\ findTransaction id (snd r)
                 = Some (Transaction.set_status TxCANCELLED now transaction)
              /\ (forall row, In row (transactions s) ->
                    Transaction.id row <> id -> In row (transactions (snd r)))
              /\ productSellRecords (snd r)
                 = update_where
                     (fun row => ProductSellRecord.transactionId row =? id)
                     (ProductSellRecord.set_status SellCANCELLED)
                     (productSellRecords s)
              /\ productRentRecords (snd r)
                 = update_where
                     (fun row => ProductRentRecord.transactionId row =? id)
                     (ProductRentRecord.set_status RentCANCELLED)
                     (productRentRecords s)
              /\ tableReleased (Transaction.tableId transaction) (snd r)
              /\ sameElsewhere s (snd r))).
Proof.
  intros now id s r.
  assert (Hfail : is_success (fst r) = false -> snd r = s).
  { subst r. unfold cancelTransaction.
    destruct (findTransaction id s) as [t|]; [|reflexivity].
    destruct (TransactionStatus_beq (Transaction.status t) TxCANCELLED);
      [reflexivity|].
    destruct (db_transaction _ s) as [[u|e] s'] eqn:Hrun; simpl;
      [discriminate|].
    intros _. exact (db_transaction_throw _ _ _ _ Hrun). }
  split; [exact Hfail|]. split.
  { intros Hnone. subst r. unfold cancelTransaction. now rewrite Hnone. }
  intros transaction Hfind.
  assert (Hgood : Transaction.status transaction <> TxCANCELLED ->
                  is_success (fst r) = true).
  { intros Hstatus.
    destruct (cancelTransaction_run now id s transaction Hfind Hstatus)
      as (s1 & s' & _ & Hrun & _).
    subst r. now rewrite Hrun. }
  split.
  - split; [|exact Hgood].
    intros Hok Hstatus. subst r. unfold cancelTransaction in Hok.
    rewrite Hfind, Hstatus in Hok. discriminate.
  - intros Hstatus.
    destruct (cancelTransaction_run now id s transaction Hfind Hstatus)
      as (s1 & s' & (Hp & Hm & _ & _) & Hrun & Hps & Hms & Htables & Htx
          & Hsell & Hrent & Helse).
    subst r. rewrite Hrun. simpl.
    split; [reflexivity|]. split.
    { intros pid. specialize (Hp pid). unfold findProduct in *.
      now rewrite Hps. }
    split.
    { intros mid. specialize (Hm mid). unfold findMenu in *.
      now rewrite Hms. }
    split.
    { now apply (findTransaction_rows id _ s s'). }
    split.
    { intros row Hin Hid. rewrite Htx. unfold update_where.
      apply in_map_iff. exists row. split; [|exact Hin].
      apply Z.eqb_neq in Hid. now rewrite Hid. }
    split; [exact Hsell|]. split; [exact Hrent|]. split; [|exact Helse].
    now apply (tablesCleared_released _ now s).
Qed.

Lemma cancelTransaction_effect_witness :
  fst (cancelTransaction 3000 100 Counter.created) = success 100 200
  /\ productsRestored everyType (itemsOf 100 Counter.created)
       Counter.created (snd (cancelTransaction 3000 100 Counter.created)).
Proof.
  edestruct (cancelTransaction_effect 3000 100 Counter.created)
    as (_ & _ & H).
  edestruct H as (_ & H1).
  { vm_compute. reflexivity. }
  edestruct H1 as (Hok & Hp & _).
  { vm_compute. discriminate. }
  split; assumption.
Defined.

(** X3. [completeTransaction] accepts exactly the RENTAL transactions
    that are neither COMPLETED nor CANCELLED, and refuses the others
    without touching the store.  Accepted, it gives back the quantities
    of the items to the products of type RENT only: SELL products and
    all menus keep their stock.  Every rent record of the transaction
    becomes RETURNED with the time of the call as its return time, the
    sell records are left alone, the transaction becomes COMPLETED and
    its table is cleared. *)
Theorem completeTransaction_effect :
  forall (now : Timestamp) (id : Id) (s : Store),
    let r := completeTransaction now id s in
    (is_success (fst r) = false -> snd r = s)
    /\ (findTransaction id s = None ->
        fst r = errorResponse TransactionNotFound 404)
    /\ (forall transaction,
          findTransaction id s = Some transaction ->
          (is_success (fst r) = true
           <-> Transaction.type transaction = RENTAL
               /\ Transaction.status transaction <> TxCOMPLETED
               /\ Transaction.status transaction <> TxCANCELLED)
          /\ (is_success (fst r) = true ->
              fst r = success id 200
              /\ productsRestored rentOnly (itemsOf id s) s (snd r)
              /\ menus (snd r) = menus s
              /\ findTransaction id (snd r)
                 = Some (Transaction.set_status TxCOMPLETED now transaction)
              /\ productSellRecords (snd r) = productSellRecords s
              /\ (forall record,
                    In record (productRentRecords (snd r)) ->
                    ProductRentRecord.transactionId record = id ->
                    ProductRentRecord.status record = RentRETURNED
                    /\ ProductRentRecord.returnedAt record = Some now)
              /\ (forall record,
                    In record (productRentRecords s) ->
                    ProductRentRecord.transactionId record <> id ->
                    In record (productRentRecords (snd r)))
              /\ tableReleased (Transaction.tableId transaction) (snd r)
              /\ sameElsewhere s (snd r))).
Proof.
  intros now id s r.
  assert (Hfail : is_success (fst r) = false -> snd r = s).
  { subst r. unfold completeTransaction.
    destruct (findTransaction id s) as [t|]; [|reflexivity].
    destruct (negb _); [reflexivity|].
    destruct (TransactionStatus_beq (Transaction.status t) TxCOMPLETED);
      [reflexivity|].
    destruct (TransactionStatus_beq (Transaction.status t) TxCANCELLED);
      [reflexivity|].
    destruct (db_transaction _ s) as [[u|e] s'] eqn:Hrun; simpl;
      [discriminate|].
    intros _. exact (db_transaction_throw _ _ _ _ Hrun). }
  split; [exact Hfail|]. split.
  { intros Hnone. subst r. unfold completeTransaction. now rewrite Hnone. }
  intros transaction Hfind.
  assert (Hiff : is_success (fst r) = true ->
                 Transaction.type transaction = RENTAL
                 /\ Transaction.status transaction <> TxCOMPLETED
                 /\ Transaction.status transaction <> TxCANCELLED).
  { subst r. unfold completeTransaction. rewrite Hfind.
    destruct (Transaction.type transaction); simpl; try discriminate.
    destruct (Transaction.status transaction); simpl; try discriminate;
      intros _; repeat split; discriminate. }
  split.
  - split; [exact Hiff|].
    intros (Htype & Hcompleted & Hcancelled).
    destruct (completeTransaction_run now id s transaction Hfind Htype
                Hcompleted Hcancelled) as (s1 & s' & _ & Hrun & _).
    subst r. now rewrite Hrun.
  - intros Hok. destruct (Hiff Hok) as (Htype & Hcompleted & Hcancelled).
    destruct (completeTransaction_run now id s transaction Hfind Htype
                Hcompleted Hcancelled)
      as (s1 & s' & (Hp & _) & Hrun & Hps & Hms & Htables & Htx
          & Hsell & Hrent & Helse).
    subst r. rewrite Hrun. simpl.
    split; [reflexivity|]. split.
    { intros pid. specialize (Hp pid). unfold findProduct in *.
      now rewrite Hps. }
    split; [exact Hms|]. split.
    { now apply (findTransaction_rows id _ s s'). }
    split; [exact Hsell|]. split.
    { intros record Hin Hid. rewrite Hrent in Hin.
      apply In_update_where in Hin. destruct Hin as (r0 & _ & ->).
      destruct (ProductRentRecord.transactionId r0 =? id) eqn:Heq.
      - split; reflexivity.
      - apply Z.eqb_neq in Heq. contradiction. }
    split.
    { intros record Hin Hid. rewrite Hrent. unfold update_where.
      apply in_map_iff. exists record. split; [|exact Hin].
      apply Z.eqb_neq in Hid. now rewrite Hid. }
    split; [|exact Helse].
    now apply (tablesCleared_released _ now s).
Qed.

Lemma completeTransaction_effect_witness :
  fst (completeTransaction 2000 100 Rental.created) = success 100 200
  /\ productsRestored rentOnly (itemsOf 100 Rental.created)
       Rental.created (snd (completeTransaction 2000 100 Rental.created)).
Proof.
  edestruct (completeTransaction_effect 2000 100 Rental.created)
    as (_ & _ & H).
  edestruct H as (_ & H1).
  { vm_compute. reflexivity. }
  edestruct H1 as (Hok & Hp & _).
  { vm_compute. reflexivity. }
  split; assumption.
Defined.

(** ** The life of a transaction *)

Lemma cancelTransaction_refused (now : Timestamp) (id : Id) (s : Store)
    (transaction : Transaction.t) :
  findTransaction id s = Some transaction ->
  Transaction.status transaction = TxCANCELLED ->
  cancelTransaction now id s = (errorResponse TransactionAlreadyCancelled 400, s).
Proof.
  intros Hfind Hstatus. unfold cancelTransaction. now rewrite Hfind, Hstatus.
Qed.

(** X4. A cancelled transaction is final.  After [cancelTransaction] has
    accepted a transaction, cancelling it again is refused as already
    cancelled, paying it is refused whatever the amount, and completing
    it is refused; each refusal leaves the store as the cancellation
    left it, so stock is given back once. *)
Theorem cancelTransaction_is_final :
  forall (now : Timestamp) (id : Id) (s : Store),
    is_success (fst (cancelTransaction now id s)) = true ->
    let s' := snd (cancelTransaction now id s) in
    (forall later,
        cancelTransaction later id s'
        = (errorResponse TransactionAlreadyCancelled 400, s'))
    /\ (forall later paymentMethod paidAmount,
          is_success (fst (payTransaction later id paymentMethod paidAmount s'))
          = false
          /\ snd (payTransaction later id paymentMethod paidAmount s') = s'
          /\ (0 <= paidAmount ->
              fst (payTransaction later id paymentMethod paidAmount s')
              = errorResponse CannotPayCancelled 400))
    /\ (forall later,
          is_success (fst (completeTransaction later id s')) = false
          /\ snd (completeTransaction later id s') = s').
Proof.
  intros now id s Hok s'.
  assert (Hcancelled : exists t, findTransaction id s' = Some t
                                 /\ Transaction.status t = TxCANCELLED).
  { subst s'. unfold cancelTransaction in Hok |- *.
    destruct (findTransaction id s) as [t|] eqn:Hfind; [|discriminate].
    destruct (TransactionStatus_beq (Transaction.status t) TxCANCELLED)
      eqn:Hbeq; [discriminate|].
    assert (Hstatus : Transaction.status t <> TxCANCELLED).
    { intros H. rewrite H in Hbeq. discriminate. }
    destruct (cancelTransaction_run now id s t Hfind Hstatus)
      as (s1 & s2 & _ & Hrun & _ & _ & _ & Htx & _).
    unfold cancelTransaction in Hrun. rewrite Hfind, Hbeq in Hrun.
    rewrite Hrun. simpl. eexists. split.
    - exact (findTransaction_rows id (Transaction.set_status TxCANCELLED now)
               s s2 t (fun _ => eq_refl) Htx Hfind).
    - reflexivity. }
  destruct Hcancelled as (t & Hfind & Hstatus).
  split; [|split].
  - intros later. now apply (cancelTransaction_refused later id s' t).
  - intros later paymentMethod paidAmount. unfold payTransaction.
    destruct (0 <=? paidAmount) eqn:Hpaid; simpl.
    + rewrite Hfind, Hstatus. simpl. repeat split.
    + repeat split. intros H. apply Z.leb_gt in Hpaid. lia.
  - intros later. unfold completeTransaction. rewrite Hfind, Hstatus.
    destruct (negb _); simpl; split; reflexivity.
Qed.

Lemma cancelTransaction_is_final_witness :
  cancelTransaction 4000 100 Rental.cancelledAtOnce
  = (errorResponse TransactionAlreadyCancelled 400, Rental.cancelledAtOnce).
Proof.
  edestruct (cancelTransaction_is_final 3000 100 Rental.created) as (H & _).
  { vm_compute. reflexivity. }
  exact (H 4000).
Defined.






(** ** returnRentRecord *)

Lemma findRentRecord_rows (id : Id)
    (f : ProductRentRecord.t -> ProductRentRecord.t) (q : ProductRentRecord.t -> bool)
    (s s' : Store) :
  (forall r, ProductRentRecord.id (f r) = ProductRentRecord.id r) ->
  productRentRecords s' = update_where q f (productRentRecords s) ->
  findRentRecord id s'
  = option_map (fun r => if q r then f r else r) (findRentRecord id s).
Proof.
  intros Hf Hrows. unfold findRentRecord. rewrite Hrows.
  now apply (find_update_where ProductRentRecord.id).
Qed.

Lemma returnRentRecord_run (now : Timestamp) (id : Id) (b : ReturnRentBody.t)
    (s : Store) (record : ProductRentRecord.t) :
  findRentRecord id s = Some record ->
  ProductRentRecord.status record = RentACTIVE ->
  exists s',
    returnRentRecord now id b s
    = (replied
         (Some (ProductRentRecord.set_returned (returnTime now b) record)) 200,
       s')
    /\ productRentRecords s'
       = update_where (fun r => ProductRentRecord.id r =? id)
           (ProductRentRecord.set_returned (returnTime now b))
           (productRentRecords s)
    /\ products s'
       = match findProduct (ProductRentRecord.productId record) s with
         | Some p =>
             update_where
               (fun r => Product.id r =? ProductRentRecord.productId record)
               (Product.set_stock
                  (Product.stock p + ProductRentRecord.quantity record) now)
               (products s)
         | None => products s
         end
    /\ menus s' = menus s
    /\ tables s' = tables s
    /\ transactions s' = transactions s
    /\ productSellRecords s' = productSellRecords s
    /\ sameElsewhere s s'.
Proof.
  intros Hfind Hstatus. unfold returnRentRecord. rewrite Hfind, Hstatus.
  fold (returnTime now b).
  assert (Hupdated :
    findRentRecord id
      (on_productRentRecords
         (update_where (fun r => ProductRentRecord.id r =? id)
            (ProductRentRecord.set_returned (returnTime now b))) s)
    = Some (ProductRentRecord.set_returned (returnTime now b) record)).
  { unfold findRentRecord in *. simpl.
    rewrite (find_update_where_key ProductRentRecord.id) by reflexivity.
    rewrite Hfind. simpl.
    rewrite (find_some_key ProductRentRecord.id id _ _ Hfind), Z.eqb_refl.
    reflexivity. }
  cbv zeta. rewrite Hupdated.
  destruct (findProduct (ProductRentRecord.productId record) s) as [p|];
    eexists; (split; [reflexivity|]); unfold sameElsewhere; simpl;
    repeat split.
Qed.

(** X6. [returnRentRecord] accepts exactly the rent records that exist
    and are ACTIVE; an unknown record is answered 404, a RETURNED or
    CANCELLED one 400, and neither touches the store.  Accepted, the
    record becomes RETURNED at the time the body gives, or at the time
    of the call; the stock of its product grows by the record's
    quantity and no other product changes.  The transaction the record
    belongs to, its items and its other records are left as they
    were. *)
Theorem returnRentRecord_effect :
  forall (now : Timestamp) (id : Id) (b : ReturnRentBody.t) (s : Store),
    let r := returnRentRecord now id b s in
    (is_replied (fst r) = false -> snd r = s)
    /\ (findRentRecord id s = None -> fst r = refused RentRecordNotFound 404)
    /\ (forall record,
          findRentRecord id s = Some record ->
          (ProductRentRecord.status record <> RentACTIVE ->
           fst r = refused RentRecordNotActive 400)
          /\ (ProductRentRecord.status record = RentACTIVE ->
              let returned :=
                ProductRentRecord.set_returned (returnTime now b) record in
              fst r = replied (Some returned) 200
              /\ findRentRecord id (snd r) = Some returned
              /\ (forall other, other <> id ->
                    findRentRecord other (snd r) = findRentRecord other s)
              /\ (forall p,
                    findProduct (ProductRentRecord.productId record) s = Some p ->
                    exists p',
                      findProduct (ProductRentRecord.productId record) (snd r)
                      = Some p'
                      /\ sameProduct p p'
                      /\ Product.stock p'
                         = Product.stock p + ProductRentRecord.quantity record)
              /\ (forall other,
                    other <> ProductRentRecord.productId record ->
                    findProduct other (snd r) = findProduct other s)
              /\ transactions (snd r) = transactions s
              /\ transactionItems (snd r) = transactionItems s)).
Proof.
  intros now id b s r.
  split.
  { subst r. unfold returnRentRecord.
    destruct (findRentRecord id s) as [record|]; [|reflexivity].
    destruct (ProductRentRecord.status record); try reflexivity.
    simpl. discriminate. }
  split.
  { intros Hnone. subst r. unfold returnRentRecord. now rewrite Hnone. }
  intros record Hfind. split.
  { intros Hstatus. subst r. unfold returnRentRecord. rewrite Hfind.
    destruct (ProductRentRecord.status record); try reflexivity.
    now contradiction Hstatus. }
  intros Hstatus returned.
  destruct (returnRentRecord_run now id b s record Hfind Hstatus)
    as (s' & Hrun & Hrent & Hproducts & _ & _ & Htx & _ & Helse).
  subst r. rewrite Hrun. cbn [fst snd].
  pose proof (find_some_key ProductRentRecord.id id _ _ Hfind) as Hid.
  pose proof (fun k =>
    findRentRecord_rows k (ProductRentRecord.set_returned (returnTime now b))
      (fun r => ProductRentRecord.id r =? id) s s' (fun _ => eq_refl) Hrent)
    as Hlook.
  split; [reflexivity|]. split.
  { rewrite (Hlook id), Hfind. simpl. simpl in Hid. now rewrite Hid, Z.eqb_refl. }
  split.
  { intros other Hother.
    rewrite (Hlook other).
    destruct (findRentRecord other s) as [x|] eqn:Hx; [|reflexivity].
    simpl. pose proof (find_some_key ProductRentRecord.id other _ _ Hx) as Hk.
    simpl in Hk. rewrite Hk.
    apply Z.eqb_neq in Hother. now rewrite Hother. }
  split.
  { intros p Hp. rewrite Hp in Hproducts.
    unfold findProduct in *. rewrite Hproducts.
    rewrite (find_update_where_key Product.id) by reflexivity.
    rewrite Hp. simpl.
    rewrite (find_some_key Product.id _ _ _ Hp), Z.eqb_refl.
    eexists. split; [reflexivity|]. split; [repeat split | reflexivity]. }
  split.
  { intros other Hother. unfold findProduct in *. rewrite Hproducts.
    destruct (find (fun p => Product.id p =? ProductRentRecord.productId record)
                (products s)) as [p|]; [|reflexivity].
    rewrite (find_update_where_key Product.id) by reflexivity.
    destruct (find (fun p0 => Product.id p0 =? other) (products s))
      as [x|] eqn:Hx; [|reflexivity].
    simpl. rewrite (find_some_key Product.id other _ _ Hx).
    apply Z.eqb_neq in Hother. now rewrite Hother. }
  split; [exact Htx | apply Helse].
Qed.

Lemma returnRentRecord_effect_witness :
  exists record,
    findRentRecord 102 Ledger.rented = Some record
    /\ fst (returnRentRecord 5000 102 (ReturnRentBody.mk None) Ledger.rented)
       = replied (Some (ProductRentRecord.set_returned 5000 record)) 200.
Proof.
  eexists. split; [vm_compute; reflexivity|].
  edestruct (returnRentRecord_effect 5000 102 (ReturnRentBody.mk None)
               Ledger.rented) as (_ & _ & H).
  edestruct H as (_ & H1).
  { vm_compute. reflexivity. }
  edestruct H1 as (Hok & _).
  { reflexivity. }
  exact Hok.
Defined.

Lemma returnRentRecord_refused (now : Timestamp) (id : Id)
    (b : ReturnRentBody.t) (s : Store) (record : ProductRentRecord.t) :
  findRentRecord id s = Some record ->
  ProductRentRecord.status record <> RentACTIVE ->
  returnRentRecord now id b s = (refused RentRecordNotActive 400, s).
Proof.
  intros Hfind Hstatus. unfold returnRentRecord. rewrite Hfind.
  destruct (ProductRentRecord.status record); try reflexivity.
  now contradiction Hstatus.
Qed.

(** X7. A rent record gives its stock back through [returnRentRecord]
    at most once: after an accepted return, after an accepted
    [completeTransaction] of its transaction and after an accepted
    [cancelTransaction] of its transaction, every further
    [returnRentRecord] of the record is refused as not active and leaves
    the store as it was. *)
Theorem returnRentRecord_at_most_once :
  forall (now : Timestamp) (id : Id) (s : Store) (record : ProductRentRecord.t),
    findRentRecord id s = Some record ->
    let transactionId := ProductRentRecord.transactionId record in
    forall s',
      (exists b,
          is_replied (fst (returnRentRecord now id b s)) = true
          /\ s' = snd (returnRentRecord now id b s))
      \/ (is_success (fst (completeTransaction now transactionId s)) = true
          /\ s' = snd (completeTransaction now transactionId s))
      \/ (is_success (fst (cancelTransaction now transactionId s)) = true
          /\ s' = snd (cancelTransaction now transactionId s)) ->
      forall later b',
        returnRentRecord later id b' s' = (refused RentRecordNotActive 400, s').
Proof.
  intros now id s record Hfind transactionId s' Hcases later b'.
  pose proof (find_some_key ProductRentRecord.id id _ _ Hfind) as Hid.
  simpl in Hid.
  assert (Hgone : exists record',
             findRentRecord id s' = Some record'
             /\ ProductRentRecord.status record' <> RentACTIVE).
  { destruct Hcases as [(b & Hok & ->) | [(Hok & ->) | (Hok & ->)]].
    - destruct (ProductRentRecord.status record) eqn:Hstatus.
      + destruct (returnRentRecord_run now id b s record Hfind Hstatus)
          as (s1 & Hrun & Hrent & _).
        rewrite Hrun. cbn [snd].
        rewrite (findRentRecord_rows id
                   (ProductRentRecord.set_returned (returnTime now b))
                   (fun r => ProductRentRecord.id r =? id) s s1
                   (fun _ => eq_refl) Hrent).
        rewrite Hfind. simpl. rewrite Hid, Z.eqb_refl.
        eexists. split; [reflexivity|]. simpl. discriminate.
      + rewrite (returnRentRecord_refused now id b s record Hfind) in Hok;
          [discriminate | rewrite Hstatus; discriminate].
      + rewrite (returnRentRecord_refused now id b s record Hfind) in Hok;
          [discriminate | rewrite Hstatus; discriminate].
    - unfold completeTransaction in Hok |- *.
      destruct (findTransaction transactionId s) as [t|] eqn:Ht;
        [|discriminate].
      destruct (TransactionType_beq (Transaction.type t) RENTAL) eqn:Htype;
        [|discriminate]. simpl in Hok |- *.
      destruct (TransactionStatus_beq (Transaction.status t) TxCOMPLETED)
        eqn:Hcompleted; [discriminate|].
      destruct (TransactionStatus_beq (Transaction.status t) TxCANCELLED)
        eqn:Hcancelled; [discriminate|].
      assert (Hrental : Transaction.type t = RENTAL)
        by (destruct (Transaction.type t); try discriminate; reflexivity).
      assert (H1 : Transaction.status t <> TxCOMPLETED)
        by (intros H; rewrite H in Hcompleted; discriminate).
      assert (H2 : Transaction.status t <> TxCANCELLED)
        by (intros H; rewrite H in Hcancelled; discriminate).
      destruct (completeTransaction_run now transactionId s t Ht Hrental H1 H2)
        as (s1 & s2 & _ & Hrun & _ & _ & _ & _ & _ & Hrent & _).
      unfold completeTransaction in Hrun.
      rewrite Ht, Htype, Hcompleted, Hcancelled in Hrun. simpl in Hrun.
      rewrite Hrun. cbn [snd].
      rewrite (findRentRecord_rows id (ProductRentRecord.set_returned now)
                 (fun r => ProductRentRecord.transactionId r =? transactionId)
                 s s2 (fun _ => eq_refl) Hrent).
      rewrite Hfind. simpl. subst transactionId. rewrite Z.eqb_refl.
      eexists. split; [reflexivity|]. simpl. discriminate.
    - unfold cancelTransaction in Hok |- *.
      destruct (findTransaction transactionId s) as [t|] eqn:Ht;
        [|discriminate].
      destruct (TransactionStatus_beq (Transaction.status t) TxCANCELLED)
        eqn:Hcancelled; [discriminate|].
      assert (H2 : Transaction.status t <> TxCANCELLED)
        by (intros H; rewrite H in Hcancelled; discriminate).
      destruct (cancelTransaction_run now transactionId s t Ht H2)
        as (s1 & s2 & _ & Hrun & _ & _ & _ & _ & _ & Hrent & _).
      unfold cancelTransaction in Hrun.
      rewrite Ht, Hcancelled in Hrun.
      rewrite Hrun. cbn [snd].
      rewrite (findRentRecord_rows id
                 (ProductRentRecord.set_status RentCANCELLED)
                 (fun r => ProductRentRecord.transactionId r =? transactionId)
                 s s2 (fun _ => eq_refl) Hrent).
      rewrite Hfind. simpl. subst transactionId. rewrite Z.eqb_refl.
      eexists. split; [reflexivity|]. simpl. discriminate. }
  destruct Hgone as (record' & Hfind' & Hstatus').
  now apply (returnRentRecord_refused later id b' s' record').
Qed.

Lemma returnRentRecord_at_most_once_witness :
  returnRentRecord 6000 102 (ReturnRentBody.mk None) Rental.completed
  = (refused RentRecordNotActive 400, Rental.completed).
Proof.
  eapply (returnRentRecord_at_most_once 2000 102 Rental.created).
  - vm_compute. reflexivity.
  - right. left. split; [vm_compute; reflexivity | reflexivity].
Defined.

(** ** cancelBooking *)

Lemma BookingStatus_beq_false (a b : BookingStatus) :
  a <> b -> BookingStatus_beq a b = false.
Proof. destruct a, b; simpl; intros H; try reflexivity; now contradiction H. Qed.

Lemma cancelBooking_run (now : Timestamp) (id : Id) (s : Store)
    (booking : Booking.t) :
  findBooking id s = Some booking ->
  Booking.bookingStatus booking <> BkCANCELLED ->
  exists s',
    cancelBooking now id s = (success id 200, s')
    /\ bookings s'
       = update_where (fun r => Booking.id r =? id)
           (Booking.set_bookingStatus BkCANCELLED now) (bookings s)
    /\ transactions s'
       = match Booking.transactionId booking with
         | Some tid =>
             update_where (fun r => Transaction.id r =? tid)
               (Transaction.set_status TxCANCELLED now) (transactions s)
         | None => transactions s
         end
    /\ products s' = products s /\ menus s' = menus s
    /\ tables s' = tables s
    /\ productSellRecords s' = productSellRecords s
    /\ productRentRecords s' = productRentRecords s
    /\ transactionItems s' = transactionItems s
    /\ courts s' = courts s
    /\ orderRequests s' = orderRequests s
    /\ orderRequestItems s' = orderRequestItems s
    /\ inventories s' = inventories s
    /\ inventoryAdjustments s' = inventoryAdjustments s
    /\ notifications s' = notifications s
    /\ nextId s' = nextId s.
Proof.
  intros Hfind Hstatus. unfold cancelBooking.
  rewrite Hfind, (BookingStatus_beq_false _ _ Hstatus).
  unfold db_transaction, bind, exec, ret. cbv zeta.
  destruct (Booking.transactionId booking); eexists;
    (split; [reflexivity|]); simpl; repeat split.
Qed.

(** X8. [cancelBooking] accepts exactly the bookings that exist and are
    not CANCELLED; an unknown booking is answered 404, a cancelled one
    400, the store staying as it was.  Accepted, it marks the booking
    CANCELLED and the transaction the booking is linked to CANCELLED,
    and that is all: the booking keeps its payment status and its
    slot, the transaction keeps its amounts, no other booking or
    transaction changes.  A second cancellation is refused. *)
Theorem cancelBooking_effect :
  forall (now : Timestamp) (id : Id) (s : Store),
    let r := cancelBooking now id s in
    (is_success (fst r) = false -> snd r = s)
    /\ (findBooking id s = None -> fst r = errorResponse BookingNotFound 404)
    /\ (forall booking,
          findBooking id s = Some booking ->
          (Booking.bookingStatus booking = BkCANCELLED ->
           fst r = errorResponse BookingAlreadyCancelled 400)
          /\ (Booking.bookingStatus booking <> BkCANCELLED ->
              fst r = success id 200
              /\ findBooking id (snd r)
                 = Some (Booking.set_bookingStatus BkCANCELLED now booking)
              /\ (forall other, other <> id ->
                    findBooking other (snd r) = findBooking other s)
              /\ (forall tid transaction,
                    Booking.transactionId booking = Some tid ->
                    findTransaction tid s = Some transaction ->
                    findTransaction tid (snd r)
                    = Some (Transaction.set_status TxCANCELLED now transaction))
              /\ (forall other,
                    Booking.transactionId booking <> Some other ->
                    findTransaction other (snd r) = findTransaction other s)
              /\ (forall later,
                    cancelBooking later id (snd r)
                    = (errorResponse BookingAlreadyCancelled 400, snd r)))).
Proof.
  intros now id s r.
  split.
  { subst r. unfold cancelBooking.
    destruct (findBooking id s) as [booking|]; [|reflexivity].
    destruct (BookingStatus_beq _ BkCANCELLED); [reflexivity|].
    destruct (db_transaction _ s) as [[u|e] s'] eqn:Hrun; simpl;
      [discriminate|].
    intros _. exact (db_transaction_throw _ _ _ _ Hrun). }
  split.
  { intros Hnone. subst r. unfold cancelBooking. now rewrite Hnone. }
  intros booking Hfind. split.
  { intros Hstatus. subst r. unfold cancelBooking.
    now rewrite Hfind, Hstatus. }
  intros Hstatus.
  destruct (cancelBooking_run now id s booking Hfind Hstatus)
    as (s' & Hrun & Hrows & Htx & _).
  subst r. rewrite Hrun. cbn [fst snd].
  assert (Hlook : forall k,
            findBooking k s'
            = option_map
                (fun r => if Booking.id r =? id
                          then Booking.set_bookingStatus BkCANCELLED now r
                          else r)
                (findBooking k s)).
  { intros k. unfold findBooking. rewrite Hrows.
    now apply (find_update_where_key Booking.id). }
  assert (Hmine : findBooking id s'
                  = Some (Booking.set_bookingStatus BkCANCELLED now booking)).
  { rewrite Hlook, Hfind. simpl.
    rewrite (find_some_key Booking.id id _ _ Hfind), Z.eqb_refl.
    reflexivity. }
  split; [reflexivity|]. split; [exact Hmine|]. split.
  { intros other Hother. rewrite Hlook.
    destruct (findBooking other s) as [x|] eqn:Hx; [|reflexivity].
    simpl. rewrite (find_some_key Booking.id other _ _ Hx).
    apply Z.eqb_neq in Hother. now rewrite Hother. }
  split.
  { intros tid transaction Htid Ht. rewrite Htid in Htx.
    exact (findTransaction_rows tid (Transaction.set_status TxCANCELLED now)
             s s' transaction (fun _ => eq_refl) Htx Ht). }
  split.
  { intros other Hother. unfold findTransaction.
    rewrite Htx. destruct (Booking.transactionId booking) as [tid|];
      [|reflexivity].
    rewrite (find_update_where_key Transaction.id) by reflexivity.
    destruct (find (fun r => Transaction.id r =? other) (transactions s))
      as [x|] eqn:Hx; [|reflexivity].
    simpl. rewrite (find_some_key Transaction.id other _ _ Hx).
    destruct (other =? tid) eqn:Heq; [|reflexivity].
    apply Z.eqb_eq in Heq. subst tid. now contradiction Hother. }
  intros later. unfold cancelBooking. now rewrite Hmine.
Qed.

Lemma cancelBooking_effect_witness :
  fst (cancelBooking 2000 101 Scenario.s1) = success 101 200
  /\ cancelBooking 9000 101 Scenario.s2
     = (errorResponse BookingAlreadyCancelled 400, Scenario.s2).
Proof.
  edestruct (cancelBooking_effect 2000 101 Scenario.s1) as (_ & _ & H).
  edestruct H as (_ & H1).
  { vm_compute. reflexivity. }
  edestruct H1 as (Hok & _ & _ & _ & _ & Hagain).
  { vm_compute. discriminate. }
  split; [exact Hok | exact (Hagain 9000)].
Defined.



(** ** getCourtAvailability *)

Lemma getCourtAvailability_slots (now : Timestamp) (courtId : Id)
    (date : option Timestamp) (s : Store) :
  getCourtAvailability now courtId date s
  = success
      (map slotOf
         (filter (bookedOn courtId (dayAsked now date)
                    (dayAsked now date + msPerDay)) (bookings s)))
      200.
Proof. reflexivity. Qed.

Lemma bookedOn_spec (courtId : Id) (dayStart dayEnd : Timestamp)
    (b : Booking.t) :
  bookedOn courtId dayStart dayEnd b = true
  <-> Booking.courtId b = courtId
      /\ Booking.bookingStatus b <> BkCANCELLED
      /\ dayStart <= Booking.startTime b < dayEnd.
Proof.
  unfold bookedOn.
  rewrite !andb_true_iff, negb_true_iff, Z.eqb_eq, Z.leb_le, Z.ltb_lt.
  destruct (Booking.bookingStatus b); simpl;
    intuition (try discriminate; try congruence).
Qed.

Lemma createBooking_row (user : option Id) (at_ : Timestamp)
    (b : CreateBookingBody.t) (s s' : Store) (booking : Booking.t)
    (transaction : Transaction.t) :
  createBooking user at_ b s = (success (booking, transaction) 201, s') ->
  bookings s' = bookings s ++ [booking]
  /\ Booking.courtId booking = CreateBookingBody.courtId b
  /\ Booking.startTime booking = CreateBookingBody.startTime b
  /\ Booking.endTime booking = CreateBookingBody.endTime b
  /\ Booking.bookingStatus booking <> BkCANCELLED
  /\ Booking.startTime booking < Booking.endTime booking.
Proof.
  unfold createBooking.
  destruct (createBookingSchema b) eqn:Hschema; [|discriminate]. simpl.
  destruct (findCourt _ s) as [court|]; [|discriminate].
  destruct (negb (CourtStatus_beq _ _)); [discriminate|].
  destruct (find _ (bookings s)) as [x|]; [discriminate|].
  unfold db_transaction, createBookingUnit, bind, fresh, exec, ret.
  cbn [fst snd]. intros H. injection H as <- <- <-.
  unfold createBookingSchema in Hschema. rewrite !andb_true_iff in Hschema.
  destruct Hschema as [[_ Hlt] _]. apply Z.ltb_lt in Hlt.
  repeat split; try reflexivity; try exact Hlt.
  simpl. destruct (Qle_bool _ _); discriminate.
Qed.

(** X10. [getCourtAvailability] always answers 200, the court being
    looked up nowhere.  It lists only bookings that are not CANCELLED
    and that start on the day asked for.  A booking that
    [createBooking] accepts on the court, starting on that day, is
    listed next, after the slots listed before; once [cancelBooking]
    has accepted a booking, no slot can be listed on its account. *)
Theorem getCourtAvailability_follows_bookings :
  forall (now : Timestamp) (courtId : Id) (date : option Timestamp) (s : Store),
    let day := dayAsked now date in
    let slots := slotsOf (getCourtAvailability now courtId date s) in
    getCourtAvailability now courtId date s = success slots 200
    /\ (forall slot, In slot slots ->
          BookedSlot.bookingStatus slot <> BkCANCELLED
          /\ day <= BookedSlot.startTime slot < day + msPerDay)
    /\ (forall user at_ b booking transaction s',
          createBooking user at_ b s = (success (booking, transaction) 201, s') ->
          CreateBookingBody.courtId b = courtId ->
          day <= CreateBookingBody.startTime b < day + msPerDay ->
          slotsOf (getCourtAvailability now courtId date s')
          = slots ++ [BookedSlot.mk (CreateBookingBody.startTime b)
                        (CreateBookingBody.endTime b)
                        (Booking.bookingStatus booking)])
    /\ (forall at_ id,
          is_success (fst (cancelBooking at_ id s)) = true ->
          slotsOf (getCourtAvailability now courtId date
                     (snd (cancelBooking at_ id s)))
          = map slotOf
              (filter (fun r => bookedOn courtId day (day + msPerDay) r
                                && negb (Booking.id r =? id))
                 (bookings s))).
Proof.
  intros now courtId date s day slots.
  split; [reflexivity|]. split; [|split].
  - intros slot Hin. subst slots. rewrite getCourtAvailability_slots in Hin.
    simpl in Hin. apply in_map_iff in Hin. destruct Hin as (b & <- & Hb).
    apply filter_In in Hb. destruct Hb as [_ Hb].
    apply bookedOn_spec in Hb. simpl. tauto.
  - intros user at_ b booking transaction s' Hcreate Hcourt Hday.
    destruct (createBooking_row _ _ _ _ _ _ _ Hcreate)
      as (Hrows & Hc & Hs & He & Hst & _).
    subst slots. rewrite !getCourtAvailability_slots. simpl.
    rewrite Hrows, filter_app, map_app. f_equal. simpl.
    assert (Hon : bookedOn courtId (dayAsked now date)
                    (dayAsked now date + msPerDay) booking = true).
    { apply bookedOn_spec. rewrite Hc, Hs. tauto. }
    rewrite Hon. simpl. unfold slotOf. now rewrite Hs, He.
  - intros at_ id Hok.
    destruct (findBooking id s) as [booking|] eqn:Hfind;
      [|unfold cancelBooking in Hok; rewrite Hfind in Hok; discriminate].
    assert (Hstatus : Booking.bookingStatus booking <> BkCANCELLED).
    { intros H. unfold cancelBooking in Hok. rewrite Hfind, H in Hok.
      discriminate. }
    destruct (cancelBooking_run at_ id s booking Hfind Hstatus)
      as (s' & Hrun & Hrows & _).
    rewrite Hrun. cbn [snd]. rewrite getCourtAvailability_slots. simpl.
    rewrite Hrows. fold day. f_equal.
    unfold update_where. generalize (bookings s) as rows.
    induction rows as [|x rows IH]; simpl; [reflexivity|].
    destruct (Booking.id x =? id) eqn:Hid; simpl.
    + rewrite andb_false_r.
      replace (bookedOn courtId day (day + msPerDay)
                 (Booking.set_bookingStatus BkCANCELLED at_ x)) with false
        by (unfold bookedOn; simpl; now rewrite andb_false_r).
      exact IH.
    + rewrite andb_true_r.
      destruct (bookedOn courtId day (day + msPerDay) x); [|exact IH].
      simpl. rewrite <- IH. reflexivity.
Qed.

Lemma getCourtAvailability_follows_bookings_witness :
  exists booking,
    slotsOf (getCourtAvailability 0 6 (Some 0) Scenario.s1)
    = slotsOf (getCourtAvailability 0 6 (Some 0) Sample.store)
      ++ [BookedSlot.mk 36000000 43200000 (Booking.bookingStatus booking)].
Proof.
  assert (Hc : exists booking transaction,
             createBooking None 1000 Scenario.first Sample.store
             = (success (booking, transaction) 201, Scenario.s1)).
  { eexists _, _. vm_compute. reflexivity. }
  destruct Hc as (booking & transaction & Hc).
  exists booking.
  edestruct (getCourtAvailability_follows_bookings 0 6 (Some 0) Sample.store)
    as (_ & _ & H & _).
  apply (H None 1000 Scenario.first booking transaction Scenario.s1 Hc).
  - reflexivity.
  - vm_compute. split; [discriminate | reflexivity].
Defined.

(** X11. [getCourtAvailability] selects bookings by their start alone.
    A booking that starts before the day asked for and ends inside it
    is not listed; if it is the court's only booking the list is empty,
    and yet [createBooking] refuses, as already booked, a request for
    that court that starts on that day before the booking ends. *)
Theorem getCourtAvailability_misses_earlier_start :
  forall (now at_ : Timestamp) (courtId : Id) (date : option Timestamp)
         (s : Store) (booking : Booking.t) (user : option Id)
         (b : CreateBookingBody.t) (court : Court.t),
    let day := dayAsked now date in
    In booking (bookings s) ->
    Booking.courtId booking = courtId ->
    Booking.bookingStatus booking <> BkCANCELLED ->
    Booking.startTime booking < day ->
    (forall other, In other (bookings s) ->
                   Booking.courtId other = courtId -> other = booking) ->
    createBookingSchema b = true ->
    CreateBookingBody.courtId b = courtId ->
    day <= CreateBookingBody.startTime b < Booking.endTime booking ->
    findCourt courtId s = Some court ->
    Court.status court = CourtACTIVE ->
    getCourtAvailability now courtId date s = success [] 200
    /\ createBooking user at_ b s
       = (errorResponse TimeSlotAlreadyBooked 409, s).
Proof.
  intros now at_ courtId date s booking user b court day Hin Hcourt Hstatus
         Hstart Honly Hschema Hbcourt Hb Hfound Hactive.
  split.
  - rewrite getCourtAvailability_slots. fold day.
    replace (filter _ (bookings s)) with (@nil Booking.t); [reflexivity|].
    symmetry.
    destruct (filter (bookedOn courtId day (day + msPerDay)) (bookings s))
      as [|x rest] eqn:Hf; [reflexivity|].
    assert (Hx : In x (filter (bookedOn courtId day (day + msPerDay))
                         (bookings s))) by (rewrite Hf; now left).
    apply filter_In in Hx. destruct Hx as [Hxin Hx].
    apply bookedOn_spec in Hx. destruct Hx as (Hxc & _ & Hxs & _).
    rewrite (Honly x Hxin Hxc) in Hxs. lia.
  - assert (Hlt : CreateBookingBody.startTime b < CreateBookingBody.endTime b).
    { unfold createBookingSchema in Hschema.
      rewrite !andb_true_iff in Hschema.
      destruct Hschema as [[_ Hlt] _]. now apply Z.ltb_lt. }
    unfold createBooking. rewrite Hschema. simpl.
    rewrite Hbcourt, Hfound, Hactive. simpl.
    destruct (find (overlaps courtId (CreateBookingBody.startTime b)
                      (CreateBookingBody.endTime b)) (bookings s))
      as [x|] eqn:Hfind; [reflexivity|].
    exfalso. rewrite <- Hbcourt in Hfind.
    apply (proj1 (find_overlaps_none b (bookings s)) Hfind booking Hin).
    unfold clashesWith. repeat split; try assumption; try congruence; lia.
Qed.

Lemma getCourtAvailability_misses_earlier_start_witness :
  getCourtAvailability 0 6 (Some 86400000) Overnight.booked = success [] 200
  /\ createBooking None 2000 Overnight.early Overnight.booked
     = (errorResponse TimeSlotAlreadyBooked 409, Overnight.booked).
Proof.
  assert (Hrows : exists booking, bookings Overnight.booked = [booking]
                                  /\ Booking.courtId booking = 6
                                  /\ Booking.bookingStatus booking = BkPENDING
                                  /\ Booking.startTime booking = 82800000
                                  /\ Booking.endTime booking = 90000000).
  { eexists. vm_compute. repeat split. }
  destruct Hrows as (booking & Hrows & Hc & Hs & Hstart & Hend).
  apply (getCourtAvailability_misses_earlier_start 0 2000 6 (Some 86400000)
           Overnight.booked booking None Overnight.early Sample.courtA).
  - rewrite Hrows. now left.
  - exact Hc.
  - rewrite Hs. discriminate.
  - rewrite Hstart. reflexivity.
  - intros other Hin _. rewrite Hrows in Hin.
    destruct Hin as [<-|[]]. reflexivity.
  - vm_compute. reflexivity.
  - reflexivity.
  - rewrite Hend. vm_compute. split; [discriminate | reflexivity].
  - vm_compute. reflexivity.
  - reflexivity.
Defined.

(** ** createOrderRequest *)









(** ** validateTableQr *)

Lemma findActiveTable_none (code : string) (s : Store) :
  findActiveTable code s = None
  <-> forall table, In table (tables s) -> Table.code table = code ->
                    Table.isActive table = false.
Proof.
  unfold findActiveTable. split.
  - intros Hnone table Hin Hcode.
    pose proof (find_none _ _ Hnone table Hin) as H. simpl in H.
    rewrite Hcode, String.eqb_refl in H. exact H.
  - intros Hall.
    destruct (find _ (tables s)) as [table|] eqn:Hfind; [|reflexivity].
    apply find_some in Hfind. destruct Hfind as [Hin H].
    apply andb_true_iff in H. destruct H as [Hcode Hactive].
    apply String.eqb_eq in Hcode. rewrite (Hall table Hin Hcode) in Hactive.
    discriminate.
Qed.

(** X13. [validateTableQr] refuses only the empty code.  The table it
    returns is a table of the store with that code that is active; it
    returns none exactly when every table with that code is inactive,
    and those are exactly the codes for which [createOrderRequest]
    refuses a well-formed request as naming no valid table.  Whether
    the table is EMPTY or OCCUPIED plays no part. *)
Theorem validateTableQr_agrees_with_createOrderRequest :
  forall (code : string) (s : Store),
    (validateTableQr code s = refused OrderValidationError 400
     <-> code = EmptyString)
    /\ (forall table,
          validateTableQr code s = replied (Some table) 200 ->
          In table (tables s) /\ Table.code table = code
          /\ Table.isActive table = true)
    /\ (code <> EmptyString ->
        (validateTableQr code s = replied None 200
         <-> forall table, In table (tables s) -> Table.code table = code ->
                           Table.isActive table = false))
    /\ (forall now b,
          createOrderRequestSchema b = true ->
          CreateOrderBody.tableCode b = code ->
          (fst (createOrderRequest now b s) = refused InvalidTableCode 400
           <-> validateTableQr code s = replied None 200)).
Proof.
  intros code s. unfold validateTableQr.
  split; [|split; [|split]].
  - destruct code; simpl; split; congruence.
  - intros table. destruct code; simpl; [discriminate|].
    intros H. injection H as H. unfold findActiveTable in H.
    apply find_some in H. destruct H as [Hin H].
    apply andb_true_iff in H. destruct H as [Hcode Hactive].
    apply String.eqb_eq in Hcode. auto.
  - intros Hcode. destruct code; [now contradiction Hcode|]. simpl.
    rewrite <- findActiveTable_none. split; congruence.
  - intros now b Hschema Hcode. unfold createOrderRequest.
    rewrite Hschema, Hcode. simpl.
    assert (Hne : nonEmpty code = true).
    { unfold createOrderRequestSchema in Hschema.
      rewrite !andb_true_iff in Hschema. rewrite <- Hcode. tauto. }
    rewrite Hne. simpl.
    destruct (findActiveTable code s) as [table|].
    + destruct (negb (Nat.eqb _ _)); simpl; split; discriminate.
    + simpl. split; reflexivity.
Qed.

Lemma validateTableQr_agrees_with_createOrderRequest_witness :
  In Sample.table1 (tables Sample.store)
  /\ Table.code Sample.table1 = "T1"%string
  /\ Table.isActive Sample.table1 = true.
Proof.
  edestruct (validateTableQr_agrees_with_createOrderRequest "T1" Sample.store)
    as (_ & H & _).
  apply H. vm_compute. reflexivity.
Defined.

(** ** What a request can write *)

Section Keeps.
Context {A : Type} (proj : Store -> A).

Lemma keeps_ret {B} (b : B) : keeps proj (ret b).
Proof. intros s. reflexivity. Qed.

Lemma keeps_throw {B} (e : Message) : keeps proj (@throw B e).
Proof. intros s. reflexivity. Qed.

Lemma keeps_query {B} (f : Store -> B) : keeps proj (query f).
Proof. intros s. reflexivity. Qed.

Lemma keeps_exec (f : Store -> Store) :
  (forall s, proj (f s) = proj s) -> keeps proj (exec f).
Proof. intros H s. apply H. Qed.

Lemma keeps_bind {B C} (m : Tx B) (k : B -> Tx C) :
  keeps proj m -> (forall b, keeps proj (k b)) -> keeps proj (bind m k).
Proof.
  intros Hm Hk s. unfold bind. specialize (Hm s).
  destruct (m s) as [[b|e] s1]; simpl in Hm |- *; [|exact Hm].
  now rewrite (Hk b s1).
Qed.

Lemma keeps_forEach {B} (xs : list B) (body : B -> Tx unit) :
  (forall x, keeps proj (body x)) -> keeps proj (forEach xs body).
Proof.
  intros Hbody. induction xs as [|x xs IH]; simpl.
  - apply keeps_ret.
  - apply keeps_bind; [apply Hbody | intros _; exact IH].
Qed.

Lemma keeps_db_transaction {B} (body : Tx B) (s : Store) :
  keeps proj body -> proj (snd (db_transaction body s)) = proj s.
Proof.
  intros H. unfold db_transaction. specialize (H s).
  destruct (body s) as [[b|e] s1]; simpl in *; [exact H | reflexivity].
Qed.

Hypothesis Hkeys : keyless proj.

Lemma keeps_fresh : keeps proj fresh.
Proof. intros s. apply Hkeys. Qed.

Hypothesis Hproducts : apart proj ProductsTable.
Hypothesis Hmenus : apart proj MenusTable.
Hypothesis Htables : apart proj TablesTable.
Hypothesis Htransactions : apart proj TransactionsTable.
Hypothesis HtransactionItems : apart proj TransactionItemsTable.
Hypothesis HsellRecords : apart proj ProductSellRecordsTable.
Hypothesis HrentRecords : apart proj ProductRentRecordsTable.
Hypothesis Hbookings : apart proj BookingsTable.
Hypothesis HorderRequests : apart proj OrderRequestsTable.
Hypothesis HorderRequestItems : apart proj OrderRequestItemsTable.
Hypothesis Hinventories : apart proj InventoriesTable.
Hypothesis HinventoryAdjustments : apart proj InventoryAdjustmentsTable.
Hypothesis Hnotifications : apart proj NotificationsTable.

Ltac keeps_step :=
  first
    [ apply keeps_ret | apply keeps_throw | apply keeps_query
    | apply keeps_fresh
    | apply keeps_bind; [|intros]
    | apply keeps_forEach; intros
    | apply keeps_exec; intros;
      first [ apply Hproducts | apply Hmenus | apply Htables
            | apply Htransactions | apply HtransactionItems
            | apply HsellRecords | apply HrentRecords | apply Hbookings
            | apply HorderRequests | apply HorderRequestItems
            | apply Hinventories | apply HinventoryAdjustments
            | apply Hnotifications ]
    | match goal with
      | |- keeps _ (match ?x with _ => _ end) => destruct x
      | |- keeps _ (if ?x then _ else _) => destruct x
      end ].

Lemma processItems_keeps (type : TransactionType) (now : Timestamp)
    (items : list ItemInput.t) (acc : Locals.t) :
  keeps proj (processItems type now items acc).
Proof.
  revert acc. induction items as [|item items IH]; intros acc; simpl.
  - apply keeps_ret.
  - apply keeps_bind; [|intros acc'; apply IH].
    unfold processItem, setProductStock, setMenuStock.
    repeat keeps_step.
Qed.

Lemma insertItems_keeps (transactionId : Id) (items : list ProcessedItem.t) :
  keeps proj (insertItems transactionId items).
Proof.
  induction items as [|item items IH]; simpl.
  - apply keeps_ret.
  - apply keeps_bind; [apply keeps_fresh | intros id].
    apply keeps_bind; [repeat keeps_step | intros _].
    apply keeps_bind; [exact IH | intros rows; apply keeps_ret].
Qed.

Lemma createNotification_keeps (type : NotificationType) (subject : Id)
    (s : Store) :
  proj (createNotification type subject s) = proj s.
Proof.
  unfold createNotification. destruct Hkeys as [Hbump _].
  rewrite Hbump. apply Hnotifications.
Qed.

Lemma createTransaction_keeps (user : Id) (now : Timestamp)
    (b : CreateTransactionBody.t) (s : Store) :
  proj (snd (createTransaction user now b s)) = proj s.
Proof.
  unfold createTransaction.
  destruct (negb (createTransactionSchema b)); [reflexivity|].
  destruct (validateTable _ s) as [[message code]|]; [reflexivity|].
  assert (Hunit : keeps proj (createTransactionUnit user now s b)).
  { unfold createTransactionUnit.
    apply keeps_bind; [apply processItems_keeps | intros acc].
    unfold persistTransaction.
    destruct (_ <? 0); [apply keeps_throw|].
    apply keeps_bind; [apply keeps_fresh | intros id].
    apply keeps_bind; [repeat keeps_step | intros _].
    apply keeps_bind; [apply insertItems_keeps | intros rows].
    repeat keeps_step. }
  pose proof (keeps_db_transaction _ s Hunit) as Hrun.
  destruct (db_transaction _ s) as [[result|e] s']; simpl in Hrun |- *;
    [|exact Hrun].
  now rewrite createNotification_keeps.
Qed.

Lemma cancelTransaction_keeps (now : Timestamp) (id : Id) (s : Store) :
  proj (snd (cancelTransaction now id s)) = proj s.
Proof.
  unfold cancelTransaction.
  destruct (findTransaction id s) as [transaction|]; [|reflexivity].
  destruct (TransactionStatus_beq _ _); [reflexivity|].
  assert (Hunit : keeps proj (cancelTransactionUnit now id transaction
                                (itemsOf id s))).
  { unfold cancelTransactionUnit, restoreItem, clearTable,
      setProductStock, setMenuStock.
    repeat keeps_step. }
  pose proof (keeps_db_transaction _ s Hunit) as Hrun.
  destruct (db_transaction _ s) as [[result|e] s']; exact Hrun.
Qed.

Lemma completeTransaction_keeps (now : Timestamp) (id : Id) (s : Store) :
  proj (snd (completeTransaction now id s)) = proj s.
Proof.
  unfold completeTransaction.
  destruct (findTransaction id s) as [transaction|]; [|reflexivity].
  destruct (negb _); [reflexivity|].
  destruct (TransactionStatus_beq _ TxCOMPLETED); [reflexivity|].
  destruct (TransactionStatus_beq _ TxCANCELLED); [reflexivity|].
  assert (Hunit : keeps proj (completeTransactionUnit now id transaction)).
  { unfold completeTransactionUnit, returnItem, clearTable, setProductStock.
    repeat keeps_step. }
  pose proof (keeps_db_transaction _ s Hunit) as Hrun.
  destruct (db_transaction _ s) as [[result|e] s']; exact Hrun.
Qed.

Lemma payTransaction_keeps (now : Timestamp) (id : Id)
    (paymentMethod : PaymentMethod) (paidAmount : Money) (s : Store) :
  proj (snd (payTransaction now id paymentMethod paidAmount s)) = proj s.
Proof.
  unfold payTransaction.
  destruct (negb _); [reflexivity|].
  destruct (findTransaction id s) as [transaction|]; [|reflexivity].
  destruct (TransactionStatus_beq _ TxPAID); [reflexivity|].
  destruct (TransactionStatus_beq _ TxCANCELLED); [reflexivity|].
  destruct (_ <? 0); [reflexivity|]. apply Htransactions.
Qed.

Lemma createBooking_keeps (user : option Id) (now : Timestamp)
    (b : CreateBookingBody.t) (s : Store) :
  proj (snd (createBooking user now b s)) = proj s.
Proof.
  unfold createBooking.
  destruct (negb (createBookingSchema b)); [reflexivity|].
  destruct (findCourt _ s) as [court|]; [|reflexivity].
  destruct (negb (CourtStatus_beq _ _)); [reflexivity|].
  destruct (find _ (bookings s)); [reflexivity|].
  match goal with
  | |- context [db_transaction ?body s] =>
      assert (Hunit : keeps proj body)
  end.
  { unfold createBookingUnit. repeat keeps_step. }
  pose proof (keeps_db_transaction _ s Hunit) as Hrun.
  destruct (db_transaction _ s) as [[result|e] s']; simpl in Hrun |- *;
    [|exact Hrun].
  now rewrite createNotification_keeps.
Qed.

Lemma cancelBooking_keeps (now : Timestamp) (id : Id) (s : Store) :
  proj (snd (cancelBooking now id s)) = proj s.
Proof.
  unfold cancelBooking.
  destruct (findBooking id s) as [booking|]; [|reflexivity].
  destruct (BookingStatus_beq _ _); [reflexivity|].
  cbv zeta.
  match goal with
  | |- context [db_transaction ?body s] =>
      assert (Hunit : keeps proj body)
  end.
  { repeat keeps_step. }
  pose proof (keeps_db_transaction _ s Hunit) as Hrun.
  destruct (db_transaction _ s) as [[result|e] s']; exact Hrun.
Qed.

Lemma completeBooking_keeps (now : Timestamp) (id : Id) (s : Store) :
  proj (snd (completeBooking now id s)) = proj s.
Proof.
  unfold completeBooking. cbv zeta.
  destruct (findBooking id _); simpl; apply Hbookings.
Qed.

Lemma createOrderRequest_keeps (now : Timestamp) (b : CreateOrderBody.t)
    (s : Store) :
  proj (snd (createOrderRequest now b s)) = proj s.
Proof.
  unfold createOrderRequest.
  destruct (negb (createOrderRequestSchema b)); [reflexivity|].
  destruct (findActiveTable _ s) as [table|]; [|reflexivity].
  destruct (negb (Nat.eqb _ _)); [reflexivity|]. cbn [snd].
  rewrite createNotification_keeps.
  destruct Hkeys as [Hbump Htake].
  now rewrite Htake, HorderRequestItems, HorderRequests, Hbump.
Qed.

Lemma updateOrderRequestStatus_keeps (user : option Id) (now : Timestamp)
    (id : Id) (b : UpdateStatusBody.t) (s : Store) :
  proj (snd (updateOrderRequestStatus user now id b s)) = proj s.
Proof.
  unfold updateOrderRequestStatus.
  destruct (negb (updateOrderRequestStatusSchema b)); [reflexivity|].
  destruct user as [userId|]; [|reflexivity].
  destruct (findOrderRequest id s) as [existing|]; [|reflexivity].
  destruct (negb (includes _ _)); [reflexivity|].
  assert (Hunit : keeps proj
            (updateOrderRequestStatusUnit userId now s id existing
               (orderItemsOf id s) b)).
  { unfold updateOrderRequestStatusUnit, serveItem, setMenuStock.
    repeat keeps_step. }
  pose proof (keeps_db_transaction _ s Hunit) as Hrun.
  destruct (db_transaction _ s) as [[result|e] s']; exact Hrun.
Qed.

Lemma returnRentRecord_keeps (now : Timestamp) (id : Id)
    (b : ReturnRentBody.t) (s : Store) :
  proj (snd (returnRentRecord now id b s)) = proj s.
Proof.
  unfold returnRentRecord.
  destruct (findRentRecord id s) as [record|]; [|reflexivity].
  destruct (ProductRentRecord.status record); try reflexivity.
  cbv zeta. cbn [snd].
  destruct (findProduct _ s); [rewrite Hproducts|]; apply HrentRecords.
Qed.

Lemma adjustInventoryStock_keeps (user : Id) (now : Timestamp) (id : Id)
    (b : AdjustmentBody.t) (s : Store) :
  proj (snd (adjustInventoryStock user now id b s)) = proj s.
Proof.
  unfold adjustInventoryStock.
  destruct (negb (inventoryAdjustmentSchema b)); [reflexivity|].
  destruct (findInventory id s) as [inventory|]; [|reflexivity].
  cbv zeta.
  match goal with
  | |- context [match ?c with inl _ => _ | inr _ => _ end] =>
      destruct c as [quantityAfter|message]
  end; [|reflexivity].
  match goal with
  | |- context [db_transaction ?body s] =>
      assert (Hunit : keeps proj body)
  end.
  { unfold adjustInventoryUnit. repeat keeps_step. }
  pose proof (keeps_db_transaction _ s Hunit) as Hrun.
  destruct (db_transaction _ s) as [[result|e] s']; exact Hrun.
Qed.

End Keeps.

Lemma route_keeps {A} (proj : Store -> A) (bearer : option JWTPayload.t)
    (now : Timestamp) (request : Request) (s : Store) :
  keyless proj ->
  (forall table, In table (writes request) -> apart proj table) ->
  proj (snd (route bearer now request s)) = proj s.
Proof.
  intros Hkeys Hapart.
  unfold route, verifyTokenMiddleware, requireRole, handled.
  destruct request; simpl in Hapart;
    try (destruct bearer as [payload|]; [|reflexivity];
         destruct (negb (existsb _ _)); [reflexivity|]);
    cbn [snd fst].
  - apply createTransaction_keeps; try assumption; apply Hapart; tauto.
  - apply cancelTransaction_keeps; apply Hapart; tauto.
  - apply completeTransaction_keeps; apply Hapart; tauto.
  - apply payTransaction_keeps; apply Hapart; tauto.
  - apply createBooking_keeps; try assumption; apply Hapart; tauto.
  - apply cancelBooking_keeps; apply Hapart; tauto.
  - apply completeBooking_keeps; apply Hapart; tauto.
  - apply createOrderRequest_keeps; try assumption; apply Hapart; tauto.
  - apply updateOrderRequestStatus_keeps; try assumption; apply Hapart; tauto.
  - apply returnRentRecord_keeps; apply Hapart; tauto.
  - apply adjustInventoryStock_keeps; try assumption; apply Hapart; tauto.
Qed.

(** X14. Whatever a request asks and whoever sends it, and whether it
    is answered with success or refused, served or rolled back, the
    route leaves every table outside its handler's statements as it
    was: the transaction routes never touch bookings, orders or
    inventories, the booking routes never touch stock, orders are
    placed without touching menus or transactions, and product stock
    is written only by the transaction create, cancel and complete
    routes and by the rent return. *)
Theorem route_writes_only_its_tables :
  forall (bearer : option JWTPayload.t) (now : Timestamp) (request : Request)
         (s : Store),
    unwritten (writes request) s (snd (route bearer now request s)).
Proof.
  intros bearer now request s.
  unfold unwritten.
  repeat split; intros Hnot;
    (apply route_keeps;
     [ split; reflexivity
     | intros table Hin; destruct table; simpl;
       first [exact I | intros; reflexivity | contradiction] ]).
Qed.

Lemma route_writes_only_its_tables_witness :
  bookings (snd (route (Some Staff.owner) 3000 (PatchTransactionCancel 100)
                   Rental.created))
  = bookings Rental.created.
Proof.
  apply (route_writes_only_its_tables (Some Staff.owner) 3000
           (PatchTransactionCancel 100) Rental.created).
  simpl. intuition discriminate.
Defined.

(** ** Who may ask *)

(** X15. The routers' guards.  Without a valid bearer token every route
    but the two public ones, POST /bookings and POST /order-requests,
    answers 401; a KASIR is answered 403 on the five routes kept for
    owners and admins (cancel and complete a transaction, cancel a
    booking, return a rental, adjust an inventory) and is let through
    everywhere else; owners and admins are let through everywhere.  A
    request that is not let through leaves the store as it was.  The
    public booking route runs [createBooking] without a user even for a
    caller who presents a valid token. *)
Theorem route_guards :
  forall (bearer : option JWTPayload.t) (now : Timestamp) (request : Request)
         (s : Store),
    let r := route bearer now request s in
    (isHandled (fst r) = false -> snd r = s)
    /\ (publicRoute request = true -> isHandled (fst r) = true)
    /\ (publicRoute request = false -> bearer = None -> fst r = Denied 401)
    /\ (forall payload,
          bearer = Some payload -> publicRoute request = false ->
          match JWTPayload.role payload with
          | KASIR =>
              if ownerAdminOnly request then fst r = Denied 403
              else isHandled (fst r) = true
          | OWNER | ADMIN => isHandled (fst r) = true
          end)
    /\ (forall body,
          request = PostBooking body ->
          r = (Handled (BookingCreated (fst (createBooking None now body s))),
               snd (createBooking None now body s))).
Proof.
  intros bearer now request s r. subst r.
  unfold route, verifyTokenMiddleware, requireRole, handled.
  repeat split.
  - destruct request; try discriminate;
      (destruct bearer as [payload|]; [|reflexivity]);
      (destruct (negb (existsb _ _)); [reflexivity | discriminate]).
  - destruct request; try discriminate; reflexivity.
  - intros Hpublic ->. destruct request; try discriminate; reflexivity.
  - intros payload -> Hpublic.
    destruct (JWTPayload.role payload) eqn:Hrole;
      destruct request; try discriminate; simpl; try rewrite Hrole;
      reflexivity.
  - intros body ->. reflexivity.
Qed.

Lemma route_guards_witness :
  fst (route (Some Staff.kasir) 3000 (PatchTransactionCancel 100)
         Rental.created) = Denied 403.
Proof.
  edestruct (route_guards (Some Staff.kasir) 3000 (PatchTransactionCancel 100)
               Rental.created) as (_ & _ & _ & H & _).
  exact (H Staff.kasir eq_refl eq_refl).
Defined.

(** ** Requests served one after the other *)

Lemma serve_cons (c : Call.t) (calls : list Call.t) (s : Store) :
  serve (c :: calls) s
  = serve calls (snd (route (Call.bearer c) (Call.now c) (Call.request c) s)).
Proof. reflexivity. Qed.

Lemma bookings_kept (bearer : option JWTPayload.t) (now : Timestamp)
    (request : Request) (s : Store) :
  ~ In BookingsTable (writes request) ->
  bookings (snd (route bearer now request s)) = bookings s.
Proof.
  intros Hnot. apply route_keeps; [split; reflexivity|].
  intros table Hin. destruct table; simpl;
    first [exact I | intros; reflexivity | contradiction].
Qed.

Lemma noDoubleBooking_bookings (s s' : Store) :
  bookings s' = bookings s -> noDoubleBooking s -> noDoubleBooking s'.
Proof. unfold noDoubleBooking. intros ->. auto. Qed.

(** X16. Through the routers, only [completeBooking] can bring a double
    booking about.  Over any sequence of requests to the routes above,
    from any callers, in which no request asks to complete a booking, a
    bookings table free of double bookings stays free of them: no two
    bookings of one court, neither cancelled, over intersecting
    intervals. *)
Theorem serve_keeps_courts_free_of_double_bookings :
  forall (calls : list Call.t) (s : Store),
    (forall c id, In c calls -> Call.request c <> PatchBookingComplete id) ->
    noDoubleBooking s ->
    noDoubleBooking (serve calls s).
Proof.
  induction calls as [|c calls IH]; intros s Hnone Hinv; [exact Hinv|].
  rewrite serve_cons. apply IH.
  { intros c' id Hin. apply Hnone. now right. }
  pose proof (fun id => Hnone c id (or_introl eq_refl)) as Hc.
  destruct c as [bearer now request]. simpl in Hc |- *.
  destruct request;
    try (apply (noDoubleBooking_bookings s); [|exact Hinv];
         apply bookings_kept; simpl; intuition discriminate).
  - unfold route, handled. cbn [snd].
    now apply createBooking_preserves_noDoubleBooking.
  - unfold route, verifyTokenMiddleware, requireRole, handled.
    destruct bearer as [payload|]; [|exact Hinv].
    destruct (negb (existsb _ _)); [exact Hinv|]. cbn [snd].
    now apply cancelBooking_preserves_noDoubleBooking.
  - now contradiction (Hc id).
Qed.

Lemma serve_keeps_courts_free_of_double_bookings_witness :
  noDoubleBooking
    (serve [Call.mk None 1000 (PostBooking Scenario.first);
            Call.mk (Some Staff.owner) 2000 (PatchBookingCancel 101);
            Call.mk None 3000 (PostBooking Scenario.second)]
       Sample.store).
Proof.
  apply serve_keeps_courts_free_of_double_bookings.
  - intros c id [<-|[<-|[<-|[]]]]; discriminate.
  - intros i j a b _ Hi. destruct i; discriminate.
Defined.

(** ** Orders that only advance *)

Lemma orderAdvanced_refl (o : OrderRequest.t) : orderAdvanced o o.
Proof. unfold orderAdvanced. repeat split; lia. Qed.

Lemma orderAdvanced_trans (o1 o2 o3 : OrderRequest.t) :
  orderAdvanced o1 o2 -> orderAdvanced o2 o3 -> orderAdvanced o1 o3.
Proof.
  intros (Hi & Ht & Hc & Ha & Hr & Hend) (Hi' & Ht' & Hc' & Ha' & Hr' & Hend').
  unfold orderAdvanced. repeat split; try congruence; try lia.
  intros Hover. specialize (Hend Hover). subst o2. auto.
Qed.

Lemma orderRequests_kept (bearer : option JWTPayload.t) (now : Timestamp)
    (request : Request) (s : Store) :
  ~ In OrderRequestsTable (writes request) ->
  orderRequests (snd (route bearer now request s)) = orderRequests s.
Proof.
  intros Hnot. apply route_keeps; [split; reflexivity|].
  intros table Hin. destruct table; simpl;
    first [exact I | intros; reflexivity | contradiction].
Qed.

Lemma bind_keeps_cases {A B C} (proj : Store -> A) (m : Tx B)
    (k : B -> Tx C) (s : Store) :
  keeps proj m ->
  (exists e s1, bind m k s = (Throw e, s1))
  \/ (exists b s1,
        m s = (Return b, s1) /\ proj s1 = proj s /\ bind m k s = k b s1).
Proof.
  intros Hkeeps. unfold bind. specialize (Hkeeps s).
  destruct (m s) as [[b|e] s1]; simpl in Hkeeps; [right | left]; eauto.
Qed.

(** What a call of [updateOrderRequestStatus] can do to the orders. *)
Lemma updateOrderRequestStatus_rows (user : option Id) (now : Timestamp)
    (id : Id) (b : UpdateStatusBody.t) (s : Store) :
  let s' := snd (updateOrderRequestStatus user now id b s) in
  orderRequests s' = orderRequests s
  \/ exists existing userId transactionId,
       findOrderRequest id s = Some existing
       /\ includes (validTransitions (OrderRequest.status existing))
            (UpdateStatusBody.status b) = true
       /\ orderRequests s'
          = update_where (fun r => OrderRequest.id r =? id)
              (applyUpdateValues (UpdateStatusBody.status b) now userId
                 (UpdateStatusBody.rejectedReason b) transactionId)
              (orderRequests s).
Proof.
  unfold updateOrderRequestStatus.
  destruct (negb (updateOrderRequestStatusSchema b)); [now left|].
  destruct user as [userId|]; [|now left].
  destruct (findOrderRequest id s) as [existing|] eqn:Hfind; [|now left].
  destruct (includes _ _) eqn:Hallowed; [|now left]. simpl negb. cbv iota.
  unfold db_transaction, updateOrderRequestStatusUnit. cbv zeta.
  match goal with
  | |- context [bind ?m ?k s] =>
      assert (Hkeeps : keeps orderRequests m);
        [|destruct (bind_keeps_cases orderRequests m k s Hkeeps)
            as [(e & s1 & Hrun) | (created & s1 & _ & Hsame & Hrun)];
          rewrite Hrun; [now left|]]
  end.
  { destruct (UpdateStatusBody.status b); try apply keeps_ret.
    apply keeps_bind; [apply keeps_fresh; split; reflexivity | intros tid].
    apply keeps_bind; [apply keeps_exec; reflexivity | intros _].
    apply keeps_bind; [|intros _; apply keeps_ret].
    apply keeps_forEach. intros item. unfold serveItem, setMenuStock.
    apply keeps_bind; [apply keeps_query | intros found].
    apply keeps_bind; [|intros _].
    - destruct found as [menu|]; [|apply keeps_ret].
      destruct (Menu.stock menu) as [stock|]; [|apply keeps_ret].
      destruct (stock <? _); [apply keeps_throw|].
      apply keeps_exec. reflexivity.
    - apply keeps_bind; [apply keeps_fresh; split; reflexivity | intros iid].
      apply keeps_exec. reflexivity. }
  right. exists existing, userId, (option_map Transaction.id created).
  split; [reflexivity|]. split; [exact Hallowed|].
  rewrite bind_exec, bind_query. unfold ret. cbn [snd].
  simpl. now rewrite Hsame.
Qed.

Lemma includes_advances (current requested : OrderRequestStatus) :
  includes (validTransitions current) requested = true ->
  orderRank current < orderRank requested
  /\ validTransitions current <> [].
Proof.
  destruct current, requested; simpl; intros H;
    try discriminate; split; (lia || discriminate).
Qed.

Lemma find_first_kept {A} (p : A -> bool) (rows later : list A) (x : A) :
  find p rows = Some x -> find p (rows ++ later) = Some x.
Proof.
  induction rows as [|r rows IH]; simpl; [discriminate|].
  destruct (p r); [trivial | exact IH].
Qed.

(** One request, seen from one order. *)
Lemma route_advances_order (bearer : option JWTPayload.t) (now : Timestamp)
    (request : Request) (s : Store) (id : Id) (o : OrderRequest.t) :
  findOrderRequest id s = Some o ->
  exists o',
    findOrderRequest id (snd (route bearer now request s)) = Some o'
    /\ orderAdvanced o o'.
Proof.
  intros Hfind.
  assert (Hsame : forall s', orderRequests s' = orderRequests s ->
            exists o', findOrderRequest id s' = Some o' /\ orderAdvanced o o').
  { intros s' Hrows. exists o. unfold findOrderRequest in *.
    rewrite Hrows. split; [exact Hfind | apply orderAdvanced_refl]. }
  destruct request;
    try (apply Hsame; apply orderRequests_kept; simpl; intuition discriminate).
  - (* an order placed *)
    unfold route, handled. cbn [snd]. unfold createOrderRequest.
    destruct (negb (createOrderRequestSchema body)); [now apply Hsame|].
    destruct (findActiveTable _ s); [|now apply Hsame].
    destruct (negb (Nat.eqb _ _)); [now apply Hsame|]. cbn [snd].
    exists o. split; [|apply orderAdvanced_refl].
    unfold findOrderRequest in *. simpl. unfold insert_row.
    now apply find_first_kept.
  - (* a status asked for *)
    unfold route, verifyTokenMiddleware, requireRole, handled.
    destruct bearer as [payload|]; [|now apply Hsame].
    destruct (negb (existsb _ _)); [now apply Hsame|]. cbn [snd].
    destruct (updateOrderRequestStatus_rows
                (Some (JWTPayload.userId payload)) now id0 body s)
      as [Hrows | (existing & userId & tid & Hexisting & Hallowed & Hrows)];
      [now apply Hsame|].
    unfold findOrderRequest in *. rewrite Hrows.
    rewrite (find_update_where_key OrderRequest.id) by reflexivity.
    rewrite Hfind. simpl.
    destruct (OrderRequest.id o =? id0) eqn:Hid;
      [|exists o; split; [reflexivity | apply orderAdvanced_refl]].
    apply Z.eqb_eq in Hid.
    rewrite (find_some_key OrderRequest.id id _ _ Hfind) in Hid. subst id0.
    assert (existing = o) by congruence. subst existing.
    apply includes_advances in Hallowed. destruct Hallowed as [Hrank Hopen].
    eexists. split; [reflexivity|].
    unfold orderAdvanced. simpl. repeat split; try lia.
    intros Hover. now contradiction Hopen.
Qed.

(** X17. An order request only moves forward.  Over any sequence of
    requests to the routes above, from any callers, an order that is in
    the store stays in it with its table, customer and total; its
    status never goes back along PENDING, APPROVED, PREPARING, end; and
    once it is SERVED, REJECTED or CANCELLED its row never changes
    again, so an order is served, and gets its transaction, at most
    once. *)
Theorem serve_orders_only_advance :
  forall (calls : list Call.t) (s : Store) (id : Id) (o : OrderRequest.t),
    findOrderRequest id s = Some o ->
    exists o',
      findOrderRequest id (serve calls s) = Some o' /\ orderAdvanced o o'.
Proof.
  induction calls as [|c calls IH]; intros s id o Hfind.
  - exists o. split; [exact Hfind | apply orderAdvanced_refl].
  - rewrite serve_cons.
    destruct (route_advances_order (Call.bearer c) (Call.now c)
                (Call.request c) s id o Hfind) as (o1 & Hfind1 & Hadv1).
    destruct (IH _ id o1 Hfind1) as (o2 & Hfind2 & Hadv2).
    exists o2. split; [exact Hfind2|].
    exact (orderAdvanced_trans _ _ _ Hadv1 Hadv2).
Qed.

Lemma serve_orders_only_advance_witness :
  exists o',
    findOrderRequest 11
      (serve [Call.mk (Some Staff.kasir) 1000
                (PatchOrderRequestStatus 11 (UpdateStatusBody.mk CANCELLED None));
              Call.mk (Some Staff.kasir) 2000
                (PatchOrderRequestStatus 8 (UpdateStatusBody.mk SERVED None))]
         Sample.store) = Some o'
    /\ orderAdvanced Sample.order2 o'.
Proof.
  apply serve_orders_only_advance. vm_compute. reflexivity.
Defined.

(** ** Stock that is never overdrawn *)

Section Preserves.
Context (I : Store -> Prop).

Lemma preserves_ret {B} (b : B) : preserves I (ret b).
Proof. intros s Hs. exact Hs. Qed.

Lemma preserves_throw {B} (e : Message) : preserves I (@throw B e).
Proof. intros s Hs. exact Hs. Qed.

Lemma preserves_query {B} (f : Store -> B) : preserves I (query f).
Proof. intros s Hs. exact Hs. Qed.

Lemma preserves_exec (f : Store -> Store) :
  (forall s, I s -> I (f s)) -> preserves I (exec f).
Proof. intros H s Hs. now apply H. Qed.

(** The continuation may rely on what the first part establishes of the
    value it returns. *)
Lemma preserves_bind_post {B C} (Q : B -> Prop) (m : Tx B) (k : B -> Tx C) :
  preserves I m ->
  (forall s b s', I s -> m s = (Return b, s') -> Q b) ->
  (forall b, Q b -> preserves I (k b)) ->
  preserves I (bind m k).
Proof.
  intros Hm Hpost Hk s Hs. unfold bind.
  pose proof (Hm s Hs) as H1. pose proof (Hpost s) as H2.
  destruct (m s) as [[b|e] s1]; simpl in H1 |- *; [|exact H1].
  apply Hk; [|exact H1]. now apply (H2 b s1).
Qed.

Lemma preserves_bind {B C} (m : Tx B) (k : B -> Tx C) :
  preserves I m -> (forall b, preserves I (k b)) -> preserves I (bind m k).
Proof.
  intros Hm Hk.
  apply (preserves_bind_post (fun _ => True)); auto.
Qed.

(** The continuation may rely on the store the query read. *)
Lemma preserves_query_bind {B C} (f : Store -> B) (k : B -> Tx C) :
  (forall s, I s -> I (snd (k (f s) s))) -> preserves I (bind (query f) k).
Proof. intros H s Hs. rewrite bind_query. now apply H. Qed.

Lemma preserves_forEach {B} (xs : list B) (body : B -> Tx unit) :
  (forall x, In x xs -> preserves I (body x)) ->
  preserves I (forEach xs body).
Proof.
  induction xs as [|x xs IH]; intros Hbody; simpl.
  - apply preserves_ret.
  - apply preserves_bind.
    + apply Hbody. now left.
    + intros _. apply IH. intros y Hy. apply Hbody. now right.
Qed.

Lemma preserves_db_transaction {B} (body : Tx B) (s : Store) :
  preserves I body -> I s -> I (snd (db_transaction body s)).
Proof.
  intros H Hs. unfold db_transaction. specialize (H s Hs).
  destruct (body s) as [[b|e] s1]; simpl in *; assumption.
Qed.

End Preserves.

Lemma stockSound_same (s s' : Store) :
  products s' = products s -> menus s' = menus s ->
  transactionItems s' = transactionItems s ->
  productRentRecords s' = productRentRecords s ->
  orderRequestItems s' = orderRequestItems s ->
  stockSound s -> stockSound s'.
Proof.
  unfold stockSound, stockNonNegative, quantitiesNonNegative.
  intros -> -> -> -> ->. trivial.
Qed.

Lemma stockSound_setProduct (q : Product.t -> bool) (stock : Z)
    (now : Timestamp) (s : Store) :
  0 <= stock -> stockSound s ->
  stockSound (on_products (update_where q (Product.set_stock stock now)) s).
Proof.
  intros Hstock [[Hp Hm] Hq]. split; [split; [|exact Hm] | exact Hq]. simpl.
  apply Forall_update_where; [exact Hp|]. intros r _ _. exact Hstock.
Qed.

Lemma stockSound_setMenu (q : Menu.t -> bool) (stock : Z)
    (now : Timestamp) (s : Store) :
  0 <= stock -> stockSound s ->
  stockSound (on_menus (update_where q (Menu.set_stock stock now)) s).
Proof.
  intros Hstock [[Hp Hm] Hq]. split; [split; [exact Hp|] | exact Hq]. simpl.
  apply Forall_update_where; [exact Hm|].
  intros r _ _ k Hk. simpl in Hk. congruence.
Qed.

Lemma stockSound_transactionItem (row : TransactionItem.t) (s : Store) :
  0 <= TransactionItem.quantity row -> stockSound s ->
  stockSound (on_transactionItems (insert_row row) s).
Proof.
  intros Hrow [Hstock (Hi & Hr & Ho)]. split; [exact Hstock|].
  split; [|split; assumption]. simpl. unfold insert_row.
  apply Forall_app. split; [exact Hi | now constructor].
Qed.

Lemma stockSound_rentRecord (row : ProductRentRecord.t) (s : Store) :
  0 <= ProductRentRecord.quantity row -> stockSound s ->
  stockSound (on_productRentRecords (insert_row row) s).
Proof.
  intros Hrow [Hstock (Hi & Hr & Ho)]. split; [exact Hstock|].
  split; [exact Hi|]. split; [|exact Ho]. simpl. unfold insert_row.
  apply Forall_app. split; [exact Hr | now constructor].
Qed.

Lemma stockSound_rentRecords (q : ProductRentRecord.t -> bool)
    (f : ProductRentRecord.t -> ProductRentRecord.t) (s : Store) :
  (forall r, ProductRentRecord.quantity (f r) = ProductRentRecord.quantity r) ->
  stockSound s ->
  stockSound (on_productRentRecords (update_where q f) s).
Proof.
  intros Hf [Hstock (Hi & Hr & Ho)]. split; [exact Hstock|].
  split; [exact Hi|]. split; [|exact Ho]. simpl.
  apply Forall_update_where; [exact Hr|].
  intros r Hin _. rewrite Hf.
  exact (proj1 (Forall_forall _ _) Hr r Hin).
Qed.

Ltac sound_same :=
  intros ? ?; eapply stockSound_same; [| | | | |eassumption]; reflexivity.

Lemma fresh_sound : preserves stockSound fresh.
Proof. sound_same. Qed.

(** *** createTransaction *)

Lemma processItem_sound (type : TransactionType) (now : Timestamp)
    (item : ItemInput.t) (acc : Locals.t) :
  preserves stockSound (processItem type now item acc).
Proof.
  unfold processItem, setProductStock, setMenuStock.
  destruct (ItemInput.itemType item).
  - apply preserves_bind; [apply preserves_query | intros found].
    destruct found as [product|]; [|apply preserves_throw].
    destruct (negb _); [apply preserves_throw|].
    apply preserves_bind; [|intros _; apply preserves_ret].
    destruct (_ || _); [|apply preserves_ret].
    destruct (Product.stock product <? ItemInput.quantity item) eqn:Hlt;
      [apply preserves_throw|].
    apply preserves_exec. intros s Hs. apply Z.ltb_ge in Hlt.
    apply stockSound_setProduct; [lia | exact Hs].
  - apply preserves_bind; [apply preserves_query | intros found].
    destruct found as [menu|]; [|apply preserves_throw].
    destruct (negb _); [apply preserves_throw|].
    apply preserves_bind; [|intros _; apply preserves_ret].
    destruct (Menu.stock menu) as [stock|]; [|apply preserves_ret].
    destruct (stock <? ItemInput.quantity item) eqn:Hlt;
      [apply preserves_throw|].
    apply preserves_exec. intros s Hs. apply Z.ltb_ge in Hlt.
    apply stockSound_setMenu; [lia | exact Hs].
  - apply preserves_ret.
Qed.

Lemma processItems_sound (type : TransactionType) (now : Timestamp)
    (items : list ItemInput.t) (acc : Locals.t) :
  preserves stockSound (processItems type now items acc).
Proof.
  revert acc. induction items as [|item items IH]; intros acc; simpl.
  - apply preserves_ret.
  - apply preserves_bind; [apply processItem_sound | intros acc'; apply IH].
Qed.

Lemma processItems_quantities (type : TransactionType) (now : Timestamp)
    (items : list ItemInput.t) :
  forall (acc acc' : Locals.t) (s s' : Store),
    forallb transactionItemSchema items = true ->
    nonNegativeLocals acc ->
    processItems type now items acc s = (Return acc', s') ->
    nonNegativeLocals acc'.
Proof.
  induction items as [|item items IH]; intros acc acc' s s' Hschema Hacc H;
    simpl in H.
  - unfold ret in H. injection H as <- _. exact Hacc.
  - simpl in Hschema. apply andb_prop in Hschema.
    destruct Hschema as [Hitem Hrest]. unfold bind in H.
    destruct (processItem type now item acc s) as [[acc1|e] s1] eqn:Hturn;
      [|discriminate].
    apply (IH acc1 acc' s1 s' Hrest); [|exact H].
    assert (Hq : 0 <= ItemInput.quantity item).
    { unfold transactionItemSchema in Hitem.
      destruct (ItemInput.itemType item); try discriminate;
        apply Z.ltb_lt in Hitem; lia. }
    destruct Hacc as [Hprocessed Hrent].
    apply processItem_return in Hturn.
    destruct Hturn as [(p & _ & _ & _ & -> & _)
                      |[(m & _ & _ & _ & -> & _) | (_ & -> & _)]].
    + split; simpl.
      * apply Forall_app. split; [exact Hprocessed | now constructor].
      * destruct (Product.type p); [exact Hrent|].
        apply Forall_app. split; [exact Hrent | now constructor].
    + split; simpl; [|exact Hrent].
      apply Forall_app. split; [exact Hprocessed | now constructor].
    + now split.
Qed.

Lemma insertItems_sound (transactionId : Id) (items : list ProcessedItem.t) :
  Forall (fun i => 0 <= ProcessedItem.quantity i) items ->
  preserves stockSound (insertItems transactionId items).
Proof.
  induction items as [|item items IH]; intros Hq; simpl.
  - apply preserves_ret.
  - inversion Hq as [|? ? Hitem Hrest]; subst.
    apply preserves_bind; [apply fresh_sound | intros id].
    apply preserves_bind.
    + apply preserves_exec. intros s Hs.
      now apply stockSound_transactionItem.
    + intros _. apply preserves_bind; [now apply IH | intros rows].
      apply preserves_ret.
Qed.

Lemma persistTransaction_sound (user : Id) (now : Timestamp)
    (committed : Store) (b : CreateTransactionBody.t) (acc : Locals.t) :
  nonNegativeLocals acc ->
  preserves stockSound (persistTransaction user now committed b acc).
Proof.
  intros [Hprocessed Hrent]. unfold persistTransaction.
  destruct (_ <? 0); [apply preserves_throw|].
  apply preserves_bind; [apply fresh_sound | intros id].
  apply preserves_bind; [apply preserves_exec; sound_same | intros _].
  apply preserves_bind; [now apply insertItems_sound | intros rows].
  apply preserves_bind.
  { apply preserves_forEach. intros sellItem _.
    apply preserves_bind; [apply fresh_sound | intros rid].
    apply preserves_exec. sound_same. }
  intros _. apply preserves_bind.
  { apply preserves_forEach. intros rentItem Hin.
    apply preserves_bind; [apply fresh_sound | intros rid].
    apply preserves_exec. intros s Hs. apply stockSound_rentRecord; [|exact Hs].
    exact (proj1 (Forall_forall _ _) Hrent rentItem Hin). }
  intros _. apply preserves_bind; [|intros _; apply preserves_ret].
  destruct (CreateTransactionBody.tableId b); [|apply preserves_ret].
  apply preserves_exec. sound_same.
Qed.

Lemma createNotification_sound (type : NotificationType) (subject : Id)
    (s : Store) :
  stockSound s -> stockSound (createNotification type subject s).
Proof.
  intros Hs. eapply stockSound_same; [| | | | |exact Hs]; reflexivity.
Qed.

Lemma createTransaction_sound (user : Id) (now : Timestamp)
    (b : CreateTransactionBody.t) (s : Store) :
  stockSound s -> stockSound (snd (createTransaction user now b s)).
Proof.
  intros Hs. unfold createTransaction.
  destruct (createTransactionSchema b) eqn:Hschema; [|exact Hs]. simpl.
  destruct (validateTable _ s) as [[message code]|]; [exact Hs|].
  assert (Hitems : forallb transactionItemSchema (CreateTransactionBody.items b)
                   = true).
  { unfold createTransactionSchema in Hschema.
    rewrite !andb_true_iff in Hschema. tauto. }
  assert (Hunit : preserves stockSound (createTransactionUnit user now s b)).
  { unfold createTransactionUnit.
    apply (preserves_bind_post stockSound nonNegativeLocals).
    - apply processItems_sound.
    - intros s0 acc s1 _ Hloop.
      apply (processItems_quantities _ _ _ _ _ _ _ Hitems) in Hloop;
        [exact Hloop|].
      split; constructor.
    - intros acc Hacc. now apply persistTransaction_sound. }
  pose proof (preserves_db_transaction stockSound _ s Hunit Hs) as Hrun.
  destruct (db_transaction _ s) as [[result|e] s']; simpl in Hrun |- *;
    [|exact Hrun].
  now apply createNotification_sound.
Qed.

(** *** cancelTransaction and completeTransaction *)

Lemma itemsOf_quantities (id : Id) (s : Store) (item : TransactionItem.t) :
  stockSound s -> In item (itemsOf id s) -> 0 <= TransactionItem.quantity item.
Proof.
  intros [_ (Hi & _)] Hin. unfold itemsOf in Hin. apply filter_In in Hin.
  exact (proj1 (Forall_forall _ _) Hi item (proj1 Hin)).
Qed.

Lemma restoreItem_sound (now : Timestamp) (item : TransactionItem.t) :
  0 <= TransactionItem.quantity item ->
  preserves stockSound (restoreItem now item).
Proof.
  intros Hq. unfold restoreItem, setProductStock, setMenuStock.
  destruct (TransactionItem.itemType item).
  - destruct (TransactionItem.productId item) as [productId|];
      [|apply preserves_ret].
    apply preserves_query_bind. intros s Hs.
    destruct (findProduct productId s) as [p|] eqn:Hfind; [|exact Hs].
    apply stockSound_setProduct; [|exact Hs].
    pose proof (stockNonNegative_product s _ p (proj1 Hs) Hfind). lia.
  - assert (Hmenu : forall menuId,
              preserves stockSound
                (found <- query (findMenu menuId) ;;
                 match found with
                 | Some menu =>
                     match Menu.stock menu with
                     | Some stock =>
                         exec (on_menus
                           (update_where (fun m => Menu.id m =? menuId)
                              (Menu.set_stock
                                 (stock + TransactionItem.quantity item) now)))
                     | None => ret tt
                     end
                 | None => ret tt
                 end)).
    { intros menuId. apply preserves_query_bind. intros s Hs.
      destruct (findMenu menuId s) as [m|] eqn:Hfind; [|exact Hs].
      destruct (Menu.stock m) as [stock|] eqn:Hstock; [|exact Hs].
      apply stockSound_setMenu; [|exact Hs].
      pose proof (stockNonNegative_menu s _ m stock (proj1 Hs) Hfind Hstock).
      lia. }
    destruct (TransactionItem.productId item),
             (TransactionItem.menuId item);
      first [apply Hmenu | apply preserves_ret].
  - destruct (TransactionItem.productId item),
             (TransactionItem.menuId item); apply preserves_ret.
Qed.

Lemma returnItem_sound (now : Timestamp) (item : TransactionItem.t) :
  0 <= TransactionItem.quantity item ->
  preserves stockSound (returnItem now item).
Proof.
  intros Hq. unfold returnItem, setProductStock.
  destruct (TransactionItem.itemType item); try apply preserves_ret.
  destruct (TransactionItem.productId item) as [productId|];
    [|apply preserves_ret].
  apply preserves_query_bind. intros s Hs.
  destruct (findProduct productId s) as [p|] eqn:Hfind; [|exact Hs].
  destruct (Product.type p); [exact Hs|].
  apply stockSound_setProduct; [|exact Hs].
  pose proof (stockNonNegative_product s _ p (proj1 Hs) Hfind). lia.
Qed.

Lemma clearTable_sound (tableId : option Id) (now : Timestamp) :
  preserves stockSound (clearTable tableId now).
Proof.
  unfold clearTable. destruct tableId; [|apply preserves_ret].
  apply preserves_exec. sound_same.
Qed.

Lemma cancelTransaction_sound (now : Timestamp) (id : Id) (s : Store) :
  stockSound s -> stockSound (snd (cancelTransaction now id s)).
Proof.
  intros Hs. unfold cancelTransaction.
  destruct (findTransaction id s) as [transaction|]; [|exact Hs].
  destruct (TransactionStatus_beq _ _); [exact Hs|].
  assert (Hunit : preserves stockSound
                    (cancelTransactionUnit now id transaction (itemsOf id s))).
  { unfold cancelTransactionUnit.
    apply preserves_bind.
    { apply preserves_forEach. intros item Hin.
      apply restoreItem_sound. exact (itemsOf_quantities id s item Hs Hin). }
    intros _. apply preserves_bind; [apply preserves_exec; sound_same|].
    intros _. apply preserves_bind.
    { apply preserves_exec. intros s0 Hs0.
      now apply stockSound_rentRecords. }
    intros _. apply preserves_bind; [apply preserves_exec; sound_same|].
    intros _. apply clearTable_sound. }
  pose proof (preserves_db_transaction stockSound _ s Hunit Hs) as Hrun.
  destruct (db_transaction _ s) as [[result|e] s']; exact Hrun.
Qed.

Lemma completeTransaction_sound (now : Timestamp) (id : Id) (s : Store) :
  stockSound s -> stockSound (snd (completeTransaction now id s)).
Proof.
  intros Hs. unfold completeTransaction.
  destruct (findTransaction id s) as [transaction|]; [|exact Hs].
  destruct (negb _); [exact Hs|].
  destruct (TransactionStatus_beq _ TxCOMPLETED); [exact Hs|].
  destruct (TransactionStatus_beq _ TxCANCELLED); [exact Hs|].
  assert (Hunit : preserves stockSound
                    (completeTransactionUnit now id transaction)).
  { unfold completeTransactionUnit.
    apply preserves_query_bind. intros s0 Hs0.
    assert (Hrest : preserves stockSound
              (forEach (itemsOf id s0) (returnItem now) ;;;
               exec (on_productRentRecords
                 (update_where
                    (fun r => ProductRentRecord.transactionId r =? id)
                    (ProductRentRecord.set_returned now))) ;;;
               exec (on_transactions
                 (update_where (fun r => Transaction.id r =? id)
                    (Transaction.set_status TxCOMPLETED now))) ;;;
               clearTable (Transaction.tableId transaction) now)).
    { apply preserves_bind.
      { apply preserves_forEach. intros item Hin.
        apply returnItem_sound. exact (itemsOf_quantities id s0 item Hs0 Hin). }
      intros _. apply preserves_bind.
      { apply preserves_exec. intros s1 Hs1.
        now apply stockSound_rentRecords. }
      intros _. apply preserves_bind; [apply preserves_exec; sound_same|].
      intros _. apply clearTable_sound. }
    exact (Hrest s0 Hs0). }
  pose proof (preserves_db_transaction stockSound _ s Hunit Hs) as Hrun.
  destruct (db_transaction _ s) as [[result|e] s']; exact Hrun.
Qed.

(** *** The other handlers *)

Lemma createBooking_sound (user : option Id) (now : Timestamp)
    (b : CreateBookingBody.t) (s : Store) :
  stockSound s -> stockSound (snd (createBooking user now b s)).
Proof.
  intros Hs. unfold createBooking.
  destruct (negb (createBookingSchema b)); [exact Hs|].
  destruct (findCourt _ s) as [court|]; [|exact Hs].
  destruct (negb (CourtStatus_beq _ _)); [exact Hs|].
  destruct (find _ (bookings s)); [exact Hs|].
  match goal with
  | |- context [db_transaction ?body s] =>
      assert (Hunit : preserves stockSound body)
  end.
  { unfold createBookingUnit.
    apply preserves_bind; [apply fresh_sound | intros tid].
    apply preserves_bind; [apply preserves_exec; sound_same | intros _].
    apply preserves_bind; [apply fresh_sound | intros bid].
    apply preserves_bind; [apply preserves_exec; sound_same | intros _].
    apply preserves_bind; [apply fresh_sound | intros iid].
    apply preserves_bind; [|intros _; apply preserves_ret].
    apply preserves_exec. intros s0 Hs0.
    apply stockSound_transactionItem; [simpl; lia | exact Hs0]. }
  pose proof (preserves_db_transaction stockSound _ s Hunit Hs) as Hrun.
  destruct (db_transaction _ s) as [[result|e] s']; simpl in Hrun |- *;
    [|exact Hrun].
  now apply createNotification_sound.
Qed.

Lemma orderItemRows_quantities (next orderRequestId : Id)
    (items : list OrderItemInput.t) :
  forallb orderRequestItemSchema items = true ->
  Forall (fun i => 0 <= OrderRequestItem.quantity i)
    (orderItemRows next orderRequestId items).
Proof.
  revert next. induction items as [|i items IH]; intros next Hschema; simpl;
    [constructor|].
  simpl in Hschema. apply andb_prop in Hschema. destruct Hschema as [Hi Hrest].
  constructor; [|now apply IH].
  unfold orderRequestItemSchema in Hi. rewrite !andb_true_iff in Hi.
  destruct Hi as [[Hq _] _]. apply Z.ltb_lt in Hq. simpl. lia.
Qed.

Lemma createOrderRequest_sound (now : Timestamp) (b : CreateOrderBody.t)
    (s : Store) :
  stockSound s -> stockSound (snd (createOrderRequest now b s)).
Proof.
  intros Hs. unfold createOrderRequest.
  destruct (createOrderRequestSchema b) eqn:Hschema; [|exact Hs]. simpl.
  destruct (findActiveTable _ s) as [table|]; [|exact Hs].
  destruct (negb (Nat.eqb _ _)); [exact Hs|]. cbn [snd].
  apply createNotification_sound.
  destruct Hs as [Hstock (Hi & Hr & Ho)].
  split; [exact Hstock|]. split; [exact Hi|]. split; [exact Hr|]. simpl.
  apply Forall_app. split; [exact Ho|].
  apply orderItemRows_quantities.
  unfold createOrderRequestSchema in Hschema.
  rewrite !andb_true_iff in Hschema. tauto.
Qed.

Lemma serveItem_sound (now : Timestamp) (transactionId : Id)
    (item : OrderRequestItem.t) :
  0 <= OrderRequestItem.quantity item ->
  preserves stockSound (serveItem now transactionId item).
Proof.
  intros Hq. unfold serveItem, setMenuStock.
  apply preserves_bind; [apply preserves_query | intros found].
  apply preserves_bind.
  - destruct found as [menu|]; [|apply preserves_ret].
    destruct (Menu.stock menu) as [stock|]; [|apply preserves_ret].
    destruct (stock <? OrderRequestItem.quantity item) eqn:Hlt;
      [apply preserves_throw|].
    apply preserves_exec. intros s Hs. apply Z.ltb_ge in Hlt.
    apply stockSound_setMenu; [lia | exact Hs].
  - intros _. apply preserves_bind; [apply fresh_sound | intros iid].
    apply preserves_exec. intros s Hs.
    now apply stockSound_transactionItem.
Qed.

Lemma updateOrderRequestStatus_sound (user : option Id) (now : Timestamp)
    (id : Id) (b : UpdateStatusBody.t) (s : Store) :
  stockSound s ->
  stockSound (snd (updateOrderRequestStatus user now id b s)).
Proof.
  intros Hs. unfold updateOrderRequestStatus.
  destruct (negb (updateOrderRequestStatusSchema b)); [exact Hs|].
  destruct user as [userId|]; [|exact Hs].
  destruct (findOrderRequest id s) as [existing|]; [|exact Hs].
  destruct (negb (includes _ _)); [exact Hs|].
  assert (Hitems : forall item, In item (orderItemsOf id s) ->
                                0 <= OrderRequestItem.quantity item).
  { intros item Hin. unfold orderItemsOf in Hin. apply filter_In in Hin.
    destruct Hs as [_ (_ & _ & Ho)].
    exact (proj1 (Forall_forall _ _) Ho item (proj1 Hin)). }
  assert (Hunit : preserves stockSound
            (updateOrderRequestStatusUnit userId now s id existing
               (orderItemsOf id s) b)).
  { unfold updateOrderRequestStatusUnit.
    apply preserves_bind.
    - destruct (UpdateStatusBody.status b); try apply preserves_ret.
      apply preserves_bind; [apply fresh_sound | intros tid].
      apply preserves_bind; [apply preserves_exec; sound_same | intros _].
      apply preserves_bind; [|intros _; apply preserves_ret].
      apply preserves_forEach. intros item Hin.
      apply serveItem_sound. now apply Hitems.
    - intros created.
      apply preserves_bind; [apply preserves_exec; sound_same | intros _].
      apply preserves_bind; [apply preserves_query | intros updated].
      apply preserves_ret. }
  pose proof (preserves_db_transaction stockSound _ s Hunit Hs) as Hrun.
  destruct (db_transaction _ s) as [[result|e] s']; exact Hrun.
Qed.

Lemma returnRentRecord_sound (now : Timestamp) (id : Id)
    (b : ReturnRentBody.t) (s : Store) :
  stockSound s -> stockSound (snd (returnRentRecord now id b s)).
Proof.
  intros Hs. unfold returnRentRecord.
  destruct (findRentRecord id s) as [record|] eqn:Hfind; [|exact Hs].
  destruct (ProductRentRecord.status record); try exact Hs.
  cbv zeta. cbn [snd].
  assert (Hq : 0 <= ProductRentRecord.quantity record).
  { unfold findRentRecord in Hfind. apply find_some in Hfind.
    destruct Hs as [_ (_ & Hr & _)].
    exact (proj1 (Forall_forall _ _) Hr record (proj1 Hfind)). }
  assert (Hs1 : stockSound
            (on_productRentRecords
               (update_where (fun r => ProductRentRecord.id r =? id)
                  (ProductRentRecord.set_returned
                     match ReturnRentBody.returnedAt b with
                     | Some t => t
                     | None => now
                     end)) s))
    by now apply stockSound_rentRecords.
  destruct (findProduct (ProductRentRecord.productId record) s) as [p|]
    eqn:Hp; [|exact Hs1].
  apply stockSound_setProduct; [|exact Hs1].
  pose proof (stockNonNegative_product s _ p (proj1 Hs) Hp). lia.
Qed.

(** A request whose handler writes none of the five tables. *)
Lemma route_sound_apart (bearer : option JWTPayload.t) (now : Timestamp)
    (request : Request) (s : Store) :
  (forall table, In table (writes request) ->
     table <> ProductsTable /\ table <> MenusTable
     /\ table <> TransactionItemsTable /\ table <> ProductRentRecordsTable
     /\ table <> OrderRequestItemsTable) ->
  stockSound s -> stockSound (snd (route bearer now request s)).
Proof.
  intros Hwrites Hs.
  eapply stockSound_same; [| | | | |exact Hs];
    (apply route_keeps; [split; reflexivity|];
     intros table Hin; specialize (Hwrites table Hin);
     destruct table; simpl; first [exact I | intros; reflexivity | tauto]).
Qed.

Lemma route_sound (bearer : option JWTPayload.t) (now : Timestamp)
    (request : Request) (s : Store) :
  stockSound s -> stockSound (snd (route bearer now request s)).
Proof.
  intros Hs.
  destruct request;
    try (apply route_sound_apart; [|exact Hs];
         simpl; intros table Hin;
         repeat (destruct Hin as [<-|Hin]; [repeat split; discriminate|]);
         now destruct Hin);
    unfold route, verifyTokenMiddleware, requireRole, handled;
    try (destruct bearer as [payload|]; [|exact Hs];
         destruct (negb (existsb _ _)); [exact Hs|]);
    cbn [snd].
  - now apply createTransaction_sound.
  - now apply cancelTransaction_sound.
  - now apply completeTransaction_sound.
  - now apply createBooking_sound.
  - now apply createOrderRequest_sound.
  - now apply updateOrderRequestStatus_sound.
  - now apply returnRentRecord_sound.
Qed.

(** X18. Stock is never overdrawn.  Over any sequence of requests to
    the routes above, from any callers, served or refused: if no
    product and no tracked menu has negative stock and no quantity on
    record is negative, the same holds afterwards.  In particular, from
    a store whose stock is not negative and that holds no transaction
    item, rent record or order item yet, no sequence of requests
    drives the stock of a product or of a menu below zero. *)
Theorem serve_never_overdraws_stock :
  (forall (calls : list Call.t) (s : Store),
      stockSound s -> stockSound (serve calls s))
  /\ (forall (calls : list Call.t) (s : Store),
        stockNonNegative s ->
        transactionItems s = [] -> productRentRecords s = [] ->
        orderRequestItems s = [] ->
        stockNonNegative (serve calls s)).
Proof.
  assert (Hseq : forall (calls : list Call.t) (s : Store),
             stockSound s -> stockSound (serve calls s)).
  { induction calls as [|c calls IH]; intros s Hs; [exact Hs|].
    rewrite serve_cons. apply IH. now apply route_sound. }
  split; [exact Hseq|].
  intros calls s Hstock Hi Hr Ho. apply Hseq.
  split; [exact Hstock|]. unfold quantitiesNonNegative.
  rewrite Hi, Hr, Ho. repeat split; constructor.
Qed.

Lemma serve_never_overdraws_stock_witness :
  stockSound
    (serve [Call.mk (Some Staff.kasir) 1000 (PostTransaction Rental.request);
            Call.mk (Some Staff.owner) 2000 (PatchTransactionComplete 100);
            Call.mk (Some Staff.owner) 3000 (PatchTransactionCancel 100)]
       Sample.store).
Proof.
  apply (proj1 serve_never_overdraws_stock).
  split; [split|split; [|split]]; simpl.
  - repeat (constructor; [simpl; lia|]). constructor.
  - constructor; [intros stock H; injection H as <-; lia|].
    constructor; [intros stock H; discriminate|]. constructor.
  - constructor.
  - constructor.
  - repeat (constructor; [simpl; lia|]). constructor.
Defined.

(** ** The inventory ledger *)





(** ** Numbers that do not collide *)

Section Numbering.
Context {A : Type} (createdAt : A -> Timestamp) (number : A -> InvoiceNumber.t).










End Numbering.

Section NumberedSteps.
Context {A : Type} (createdAt : A -> Timestamp) (number : A -> InvoiceNumber.t).





End NumberedSteps.

Lemma bind_assoc {A B C} (m : Tx A) (k1 : A -> Tx B) (k2 : B -> Tx C)
    (s : Store) :
  bind (bind m k1) k2 s = bind m (fun a => bind (k1 a) k2) s.
Proof. unfold bind. destruct (m s) as [[a|e] s1]; reflexivity. Qed.

Lemma createTransaction_refused (user : Id) (now : Timestamp)
    (b : CreateTransactionBody.t) (s s' : Store) (message : Message)
    (code : Z) :
  createTransaction user now b s = (errorResponse message code, s') -> s' = s.
Proof.
  unfold createTransaction.
  destruct (negb (createTransactionSchema b)); [congruence|].
  destruct (validateTable _ s) as [[m c]|]; [congruence|].
  destruct (db_transaction _ s) as [[result|e] s2] eqn:Hrun; [discriminate|].
  intros H. injection H as _ _ <-.
  exact (db_transaction_throw _ _ _ _ Hrun).
Qed.

(** What a call of [updateOrderRequestStatus] can do to the
    transactions. *)
Lemma updateOrderRequestStatus_transactions (user : option Id)
    (now : Timestamp) (id : Id) (b : UpdateStatusBody.t) (s : Store) :
  let s' := snd (updateOrderRequestStatus user now id b s) in
  transactions s' = transactions s
  \/ exists userId existing,
       transactions s'
       = transactions s
         ++ [servedTransaction (nextId s) (generateInvoiceNumber now s)
               existing userId now].
Proof.
  unfold updateOrderRequestStatus.
  destruct (negb (updateOrderRequestStatusSchema b)); [now left|].
  destruct user as [userId|]; [|now left].
  destruct (findOrderRequest id s) as [existing|]; [|now left].
  destruct (negb (includes _ _)); [now left|].
  unfold db_transaction, updateOrderRequestStatusUnit. cbv zeta.
  destruct (UpdateStatusBody.status b);
    try (unfold bind, ret, exec, query; cbn [snd]; now left).
  repeat (rewrite bind_assoc || rewrite bind_fresh || rewrite bind_exec).
  match goal with
  | |- context [bind (forEach ?xs ?body) ?k ?s0] =>
      assert (Hkeeps : keeps transactions (forEach xs body));
        [|destruct (bind_keeps_cases transactions (forEach xs body) k s0
                      Hkeeps)
            as [(e & s1 & Hrun) | (u & s1 & _ & Hsame1 & Hrun)]]
  end.
  - apply keeps_forEach. intros item. unfold serveItem, setMenuStock.
    apply keeps_bind; [apply keeps_query | intros found].
    apply keeps_bind; [|intros _].
    + destruct found as [menu|]; [|apply keeps_ret].
      destruct (Menu.stock menu) as [stock|]; [|apply keeps_ret].
      destruct (stock <? _); [apply keeps_throw|].
      apply keeps_exec. reflexivity.
    + apply keeps_bind; [apply keeps_fresh; split; reflexivity | intros iid].
      apply keeps_exec. reflexivity.
  - rewrite Hrun. now left.
  - rewrite Hrun. unfold bind, ret, exec, query. cbn [snd]. simpl.
    rewrite Hsame1. simpl. unfold insert_row. right. eauto.
Qed.





(** ** createTransaction: sell and rent records *)

Lemma soldAs_after (type : TransactionType) (l : list ItemInput.t)
    (s s' : Store) (kind : ProductType) (i : ItemInput.t) :
  productsAfter type l s s' -> soldAs kind s' i = soldAs kind s i.
Proof.
  intros Hp. unfold soldAs. destruct (ItemInput.itemType i); try reflexivity.
  specialize (Hp (ItemInput.id i)).
  destruct (findProduct (ItemInput.id i) s) as [p|].
  - destruct Hp as (p' & -> & (_ & _ & _ & Htype & _) & _). now rewrite Htype.
  - now rewrite Hp.
Qed.

Lemma Forall2_filter_after {X} (type : TransactionType) (item : ItemInput.t)
    (s s1 : Store) (kind : ProductType) (items : list ItemInput.t)
    (found : list X) (R : Store -> ItemInput.t -> X -> Prop) :
  productsAfter type [item] s s1 ->
  (forall i x, R s1 i x -> R s i x) ->
  Forall2 (R s1) (filter (soldAs kind s1) items) found ->
  Forall2 (R s) (filter (soldAs kind s) items) found.
Proof.
  intros Hp HR H.
  assert (Hsame : filter (soldAs kind s1) items = filter (soldAs kind s) items).
  { apply filter_ext. intros i. exact (soldAs_after type [item] s s1 kind i Hp). }
  rewrite Hsame in H. clear Hsame.
  induction H; constructor; auto.
Qed.

(** The entries the item loop keeps for the sell and the rent records:
    one per item that names a SELL product, a RENT product, in the
    order of the request. *)
Lemma processItems_movements (type : TransactionType) (now : Timestamp)
    (items : list ItemInput.t) :
  forall (acc acc' : Locals.t) (s s' : Store),
    processItems type now items acc s = (Return acc', s') ->
    exists sells rents,
      Locals.productSellItems acc' = Locals.productSellItems acc ++ sells
      /\ Locals.productRentItems acc' = Locals.productRentItems acc ++ rents
      /\ Forall2 (movementOf s) (filter (soldAs SELL s) items) sells
      /\ Forall2 (movementOf s) (filter (soldAs RENT s) items) rents.
Proof.
  induction items as [|item items IH]; intros acc acc' s s' H; simpl in H.
  - unfold ret in H. injection H as <- _. exists [], [].
    rewrite !app_nil_r. repeat split; constructor.
  - unfold bind in H.
    destruct (processItem type now item acc s) as [[acc1|e] s1] eqn:Hturn;
      [|discriminate].
    destruct (processItem_catalog type now _ _ _ _ _ Hturn) as [Hp Hm].
    destruct (IH acc1 acc' s1 s' H) as (sells & rents & Hs & Hr & Hsells & Hrents).
    assert (Hback : forall i x, movementOf s1 i x -> movementOf s i x).
    { intros i x (H1 & H2 & H3 & H4). repeat split; try tauto.
      now rewrite <- (catalogPrice_after type [item] s s1 i Hp Hm). }
    apply (Forall2_filter_after type item s s1 SELL items sells movementOf Hp
             Hback) in Hsells.
    apply (Forall2_filter_after type item s s1 RENT items rents movementOf Hp
             Hback) in Hrents.
    apply processItem_return in Hturn.
    destruct Hturn as [(p & Htype & Hfind & _ & -> & _)
                      |[(m & Htype & Hfind & _ & -> & _) | (Htype & -> & _)]].
    + simpl in Hs, Hr. simpl filter.
      assert (Hk : forall kind,
                soldAs kind s item = ProductType_beq (Product.type p) kind)
        by (intros kind; unfold soldAs; now rewrite Htype, Hfind).
      rewrite !Hk.
      assert (Hmove : movementOf s item
                (MovementItem.mk (ItemInput.id item) (ItemInput.quantity item)
                   (Product.price p)
                   (Product.price p * ItemInput.quantity item)
                   (ItemInput.expectedReturnAt item) (ItemInput.notes item))).
      { unfold movementOf, catalogPrice. rewrite Htype, Hfind. simpl.
        repeat split. }
      destruct (Product.type p); simpl.
      * eexists (_ :: sells), rents. rewrite Hs, Hr, <- app_assoc. simpl.
        repeat split; [constructor; assumption | assumption].
      * eexists sells, (_ :: rents). rewrite Hs, Hr, <- app_assoc. simpl.
        repeat split; [assumption | constructor; assumption].
    + simpl in Hs, Hr. simpl filter.
      assert (Hk : forall kind, soldAs kind s item = false)
        by (intros kind; unfold soldAs; now rewrite Htype).
      rewrite !Hk. exists sells, rents. repeat split; assumption.
    + simpl filter.
      assert (Hk : forall kind, soldAs kind s item = false)
        by (intros kind; unfold soldAs; now rewrite Htype).
      rewrite !Hk. exists sells, rents. repeat split; assumption.
Qed.

(** A loop that appends one keyed row per element. *)
Lemma forEach_appends {X Row} (proj : Store -> list Row)
    (step : X -> Tx unit) (row : Id -> X -> Row) :
  (forall x s, exists s',
      step x s = (Return tt, s') /\ proj s' = proj s ++ [row (nextId s) x]) ->
  forall xs s, exists rows s',
    forEach xs step s = (Return tt, s')
    /\ proj s' = proj s ++ rows
    /\ Forall2 (fun x r => exists rid, r = row rid x) xs rows.
Proof.
  intros Hstep. induction xs as [|x xs IH]; intros s; simpl.
  - exists [], s. rewrite app_nil_r. repeat split. constructor.
  - destruct (Hstep x s) as (s1 & Hx & H1).
    destruct (IH s1) as (rows & s2 & Hxs & H2 & Hall).
    exists (row (nextId s) x :: rows), s2.
    rewrite (bind_return _ _ _ _ _ Hx). split; [exact Hxs|]. split.
    + rewrite H2, H1, <- app_assoc. reflexivity.
    + constructor; [eexists; reflexivity | exact Hall].
Qed.

(** The records [persistTransaction] inserts. *)
Lemma persistTransaction_records (user : Id) (now : Timestamp)
    (committed : Store) (b : CreateTransactionBody.t) (acc : Locals.t)
    (s s' : Store) (result : Transaction.t * list TransactionItem.t) :
  persistTransaction user now committed b acc s = (Return result, s') ->
  exists sells rents,
    productSellRecords s' = productSellRecords s ++ sells
    /\ productRentRecords s' = productRentRecords s ++ rents
    /\ Forall2
         (fun m r => exists rid,
            r = ProductSellRecord.mk rid (nextId s) (MovementItem.productId m)
                  (MovementItem.quantity m) (MovementItem.unitPrice m)
                  (MovementItem.subtotal m) SellACTIVE)
         (Locals.productSellItems acc) sells
    /\ Forall2
         (fun m r => exists rid,
            r = ProductRentRecord.mk rid (nextId s) (MovementItem.productId m)
                  (MovementItem.quantity m) (MovementItem.unitPrice m)
                  (MovementItem.subtotal m) RentACTIVE
                  (MovementItem.expectedReturnAt m) None (MovementItem.notes m))
         (Locals.productRentItems acc) rents.
Proof.
  unfold persistTransaction.
  destruct (_ <? 0); [discriminate|].
  rewrite bind_fresh, bind_exec.
  match goal with
  | |- context [bind (insertItems ?t ?l) ?k ?s0] =>
      pose proof (insertItems_keeps productSellRecords
                    (conj (fun _ => eq_refl) (fun _ _ => eq_refl))
                    (fun _ _ => eq_refl) t l s0) as Hsell0;
      pose proof (insertItems_keeps productRentRecords
                    (conj (fun _ => eq_refl) (fun _ _ => eq_refl))
                    (fun _ _ => eq_refl) t l s0) as Hrent0;
      unfold bind at 1;
      destruct (insertItems t l s0) as [[inserted|e] s1]; [|discriminate]
  end.
  simpl in Hsell0, Hrent0.
  match goal with
  | |- context [bind (forEach ?xs ?step) _ s1] =>
      destruct (forEach_appends productSellRecords step
                  (fun rid m =>
                     ProductSellRecord.mk rid (nextId s)
                       (MovementItem.productId m) (MovementItem.quantity m)
                       (MovementItem.unitPrice m) (MovementItem.subtotal m)
                       SellACTIVE)
                  ltac:(intros x s0; eexists; split; reflexivity) xs s1)
        as (sells & s2 & Hsells & Hsell2 & Hsellrows);
      pose proof (keeps_forEach productRentRecords xs step
                    ltac:(intros x s0; reflexivity) s1) as Hrent2
  end.
  rewrite (bind_return _ _ _ _ _ Hsells). rewrite Hsells in Hrent2.
  simpl in Hrent2.
  match goal with
  | |- context [bind (forEach ?xs ?step) _ s2] =>
      destruct (forEach_appends productRentRecords step
                  (fun rid m =>
                     ProductRentRecord.mk rid (nextId s)
                       (MovementItem.productId m) (MovementItem.quantity m)
                       (MovementItem.unitPrice m) (MovementItem.subtotal m)
                       RentACTIVE (MovementItem.expectedReturnAt m) None
                       (MovementItem.notes m))
                  ltac:(intros x s0; eexists; split; reflexivity) xs s2)
        as (rents & s3 & Hrents & Hrent3 & Hrentrows);
      pose proof (keeps_forEach productSellRecords xs step
                    ltac:(intros x s0; reflexivity) s2) as Hsell3
  end.
  rewrite (bind_return _ _ _ _ _ Hrents). rewrite Hrents in Hsell3.
  simpl in Hsell3.
  intros Hrest. exists sells, rents.
  assert (Hend : productSellRecords s' = productSellRecords s3
                 /\ productRentRecords s' = productRentRecords s3).
  { destruct (CreateTransactionBody.tableId b).
    - rewrite bind_exec in Hrest. unfold ret in Hrest.
      injection Hrest as _ <-. split; reflexivity.
    - unfold bind, ret in Hrest. injection Hrest as _ <-. split; reflexivity. }
  destruct Hend as [-> ->].
  rewrite Hsell3, Hsell2, Hsell0, Hrent3, Hrent2, Hrent0. simpl.
  repeat split; assumption.
Qed.

Lemma Forall2_through {X Y Z} (R : X -> Z -> Prop) (first : X -> Y -> Prop)
    (second : Y -> Z -> Prop) (xs : list X) :
  (forall x y z, first x y -> second y z -> R x z) ->
  forall ys zs, Forall2 first xs ys -> Forall2 second ys zs -> Forall2 R xs zs.
Proof.
  intros Hstep. induction xs as [|x xs IH]; intros ys zs H1 H2.
  - inversion H1; subst. inversion H2; subst. constructor.
  - inversion H1 as [|? y ? ys' Hxy Hrest1]; subst.
    inversion H2 as [|? z ? zs' Hyz Hrest2]; subst.
    constructor; [exact (Hstep x y z Hxy Hyz) | exact (IH ys' zs' Hrest1 Hrest2)].
Qed.

Lemma createTransaction_records (user : Id) (now : Timestamp)
    (b : CreateTransactionBody.t) (s s' : Store)
    (result : Transaction.t * list TransactionItem.t) (code : Z) :
  createTransaction user now b s = (success result code, s') ->
  exists (s1 : Store) sells rents,
    productsAfter (CreateTransactionBody.type b)
      (CreateTransactionBody.items b) s s1
    /\ products s' = products s1
    /\ productSellRecords s' = productSellRecords s ++ sells
    /\ productRentRecords s' = productRentRecords s ++ rents
    /\ Forall2 (sellRecordOf s (Transaction.id (fst result)))
         (filter (soldAs SELL s) (CreateTransactionBody.items b)) sells
    /\ Forall2 (rentRecordOf s (Transaction.id (fst result)))
         (filter (soldAs RENT s) (CreateTransactionBody.items b)) rents.
Proof.
  intros Hrun. apply createTransaction_success in Hrun.
  destruct Hrun as (_ & acc & s1 & s2 & Hloop & Hpersist & ->).
  pose proof (processItems_keeps productSellRecords
                (fun _ _ => eq_refl) (fun _ _ => eq_refl)
                (CreateTransactionBody.type b) now
                (CreateTransactionBody.items b) Locals.init s) as Hsell1.
  pose proof (processItems_keeps productRentRecords
                (fun _ _ => eq_refl) (fun _ _ => eq_refl)
                (CreateTransactionBody.type b) now
                (CreateTransactionBody.items b) Locals.init s) as Hrent1.
  rewrite Hloop in Hsell1, Hrent1. simpl in Hsell1, Hrent1.
  destruct (processItems_catalog _ _ _ _ _ _ _ Hloop) as [Hp _].
  pose proof (processItems_frame _ _ _ _ _ _ _ Hloop) as (_ & _ & _ & Hnext).
  destruct (processItems_movements _ _ _ _ _ _ _ Hloop)
    as (sells0 & rents0 & Hs0 & Hr0 & Hsells0 & Hrents0).
  simpl in Hs0, Hr0.
  destruct (persistTransaction_records _ _ _ _ _ _ _ _ Hpersist)
    as (sells & rents & Hsell2 & Hrent2 & Hsells & Hrents).
  destruct result as [transaction rows].
  apply persistTransaction_return in Hpersist.
  destruct Hpersist as (_ & -> & Hproducts & _).
  rewrite Hs0 in Hsells. rewrite Hr0 in Hrents.
  exists s1, sells, rents. simpl.
  split; [exact Hp|]. split; [exact Hproducts|].
  split; [now rewrite Hsell2, Hsell1|]. split; [now rewrite Hrent2, Hrent1|].
  split.
  - refine (Forall2_through _ _ _ _ _ _ _ Hsells0 Hsells).
    intros i m r (H1 & H2 & H3 & H4 & _) (rid & ->).
    unfold sellRecordOf. simpl. repeat split; congruence.
  - refine (Forall2_through _ _ _ _ _ _ _ Hrents0 Hrents).
    intros i m r (H1 & H2 & H3 & H4 & H5 & _) (rid & ->).
    unfold rentRecordOf. simpl. repeat split; congruence.
Qed.

(** X21. A created transaction leaves one ACTIVE sell record per item
    that names a SELL product and one ACTIVE rent record per item that
    names a RENT product, in the order of the request and after the
    records there were; each carries the new transaction, the item's
    product and quantity, the catalog price and their product.  The
    kind of the product decides, not the type of the transaction: a
    RENT product on a POS transaction leaves a rent record, a SELL
    product on a RENTAL transaction a sell record. *)
Theorem createTransaction_sell_and_rent_records :
  forall (user : Id) (now : Timestamp) (b : CreateTransactionBody.t)
         (s s' : Store) (result : Transaction.t * list TransactionItem.t)
         (code : Z),
    createTransaction user now b s = (success result code, s') ->
    exists sells rents,
      productSellRecords s' = productSellRecords s ++ sells
      /\ productRentRecords s' = productRentRecords s ++ rents
      /\ Forall2 (sellRecordOf s (Transaction.id (fst result)))
           (filter (soldAs SELL s) (CreateTransactionBody.items b)) sells
      /\ Forall2 (rentRecordOf s (Transaction.id (fst result)))
           (filter (soldAs RENT s) (CreateTransactionBody.items b)) rents.
Proof.
  intros user now b s s' result code Hrun.
  destruct (createTransaction_records user now b s s' result code Hrun)
    as (s1 & sells & rents & _ & _ & H).
  exists sells, rents. exact H.
Qed.

Lemma createTransaction_sell_and_rent_records_witness :
  exists sells rents,
    productSellRecords Counter.created
    = productSellRecords Sample.store ++ sells
    /\ productRentRecords Counter.created
       = productRentRecords Sample.store ++ rents
    /\ Forall2 (sellRecordOf Sample.store 100)
         (filter (soldAs SELL Sample.store)
            (CreateTransactionBody.items Counter.request)) sells
    /\ Forall2 (rentRecordOf Sample.store 100)
         (filter (soldAs RENT Sample.store)
            (CreateTransactionBody.items Counter.request)) rents.
Proof.
  assert (Hrun : exists result,
             createTransaction Sample.user 1000 Counter.request Sample.store
             = (success result 201, Counter.created)
             /\ Transaction.id (fst result) = 100).
  { eexists. split; vm_compute; reflexivity. }
  destruct Hrun as (result & Hrun & Hid). rewrite <- Hid.
  exact (createTransaction_sell_and_rent_records _ _ _ _ _ _ _ Hrun).
Defined.

Lemma Forall2_found {X Y} (R : X -> Y -> Prop) (xs : list X) (ys : list Y)
    (y : Y) :
  Forall2 R xs ys -> In y ys -> exists x, In x xs /\ R x y.
Proof.
  intros H. induction H as [|x y0 xs ys Hxy _ IH]; intros Hin;
    [destruct Hin|].
  destruct Hin as [<-|Hin].
  - exists x. split; [now left | exact Hxy].
  - destruct (IH Hin) as (x' & Hx' & HR). exists x'. split; [now right|exact HR].
Qed.

(** X22. A RENT product put on a POS transaction.  [createTransaction]
    takes no stock for it, the stock rule not applying, and yet leaves
    an ACTIVE rent record; [returnRentRecord] accepts that record and
    adds its quantity to the stock, which ends above where it was
    before the sale. *)
Theorem returnRentRecord_after_counter_sale :
  forall (user : Id) (now later : Timestamp) (b : CreateTransactionBody.t)
         (s s' : Store) (result : Transaction.t * list TransactionItem.t)
         (code : Z) (rid : Id) (record : ProductRentRecord.t)
         (body : ReturnRentBody.t),
    createTransaction user now b s = (success result code, s') ->
    CreateTransactionBody.type b = POS ->
    findRentRecord rid s = None ->
    findRentRecord rid s' = Some record ->
    let productId := ProductRentRecord.productId record in
    exists p,
      findProduct productId s = Some p
      /\ Product.type p = RENT
      /\ 0 < ProductRentRecord.quantity record
      /\ productStock productId s' = Some (Product.stock p)
      /\ is_replied (fst (returnRentRecord later rid body s')) = true
      /\ productStock productId (snd (returnRentRecord later rid body s'))
         = Some (Product.stock p + ProductRentRecord.quantity record).
Proof.
  intros user now later b s s' result code rid record body Hrun Hpos Hnew
         Hfind productId.
  destruct (createTransaction_records user now b s s' result code Hrun)
    as (s1 & sells & rents & Hp & Hproducts & _ & Hrent & _ & Hrents).
  apply createTransaction_success in Hrun. destruct Hrun as (Hschema & _).
  assert (Hin : In record rents).
  { pose proof Hfind as Hsome. unfold findRentRecord in Hsome.
    apply find_some in Hsome. destruct Hsome as [Hin Hid].
    rewrite Hrent in Hin. apply in_app_or in Hin.
    destruct Hin as [Hold|Hin]; [|exact Hin].
    unfold findRentRecord in Hnew.
    pose proof (find_none _ _ Hnew record Hold) as Hno. simpl in Hno, Hid.
    congruence. }
  destruct (Forall2_found _ _ _ _ Hrents Hin) as (item & Hitem & Hrecord).
  apply filter_In in Hitem. destruct Hitem as [Hitem Hkind].
  destruct Hrecord as (_ & Hpid & Hq & _ & _ & Hactive & _).
  unfold soldAs in Hkind.
  destruct (ItemInput.itemType item) eqn:Htype; try discriminate.
  destruct (findProduct (ItemInput.id item) s) as [p|] eqn:Hproduct;
    [|discriminate].
  assert (Hrentp : Product.type p = RENT)
    by (destruct (Product.type p); [discriminate | reflexivity]).
  assert (Hquantity : 0 < ItemInput.quantity item).
  { unfold createTransactionSchema in Hschema.
    rewrite !andb_true_iff in Hschema. destruct Hschema as [[_ Hall] _].
    rewrite forallb_forall in Hall. specialize (Hall item Hitem).
    unfold transactionItemSchema in Hall. rewrite Htype in Hall.
    now apply Z.ltb_lt. }
  subst productId. rewrite Hpid.
  pose proof (Hp (ItemInput.id item)) as Hafter. rewrite Hproduct in Hafter.
  destruct Hafter as (p1 & Hfind1 & Hsame1 & Hstock1).
  assert (Hunchecked : stockChecked (CreateTransactionBody.type b) p = false).
  { unfold stockChecked. now rewrite Hrentp, Hpos. }
  rewrite Hunchecked in Hstock1. cbv iota in Hstock1.
  rewrite Z.sub_0_r in Hstock1.
  assert (Hfind' : findProduct (ItemInput.id item) s' = Some p1).
  { unfold findProduct in *. now rewrite Hproducts. }
  destruct (returnRentRecord_run later rid body s' record Hfind Hactive)
    as (s2 & Hreturn & _ & Hproducts2 & _).
  rewrite Hpid, Hfind' in Hproducts2.
  exists p. split; [exact Hproduct|]. split; [exact Hrentp|].
  split; [lia|]. split.
  { unfold productStock. rewrite Hfind'. simpl. now rewrite Hstock1. }
  rewrite Hreturn. cbn [fst snd]. split; [reflexivity|].
  unfold productStock, findProduct in *. rewrite Hproducts2.
  rewrite (find_update_where_key Product.id) by reflexivity.
  rewrite Hfind'. simpl.
  rewrite (find_some_key Product.id _ _ _ Hfind'), Z.eqb_refl. simpl.
  f_equal. lia.
Qed.

Lemma returnRentRecord_after_counter_sale_witness :
  productStock 1 Sample.store = Some 5
  /\ productStock 1
       (snd (returnRentRecord 5000 102 (ReturnRentBody.mk None)
               Counter.created)) = Some 7.
Proof.
  split; [vm_compute; reflexivity|].
  assert (Hrun : exists result,
             createTransaction Sample.user 1000 Counter.request Sample.store
             = (success result 201, Counter.created)).
  { eexists. vm_compute. reflexivity. }
  destruct Hrun as (result & Hrun).
  assert (Hrecord : exists record,
             findRentRecord 102 Counter.created = Some record
             /\ ProductRentRecord.productId record = 1
             /\ ProductRentRecord.quantity record = 2).
  { eexists. vm_compute. repeat split. }
  destruct Hrecord as (record & Hrecord & Hpid & Hq).
  destruct (returnRentRecord_after_counter_sale Sample.user 1000 5000
              Counter.request Sample.store Counter.created result 201 102
              record (ReturnRentBody.mk None) Hrun eq_refl eq_refl Hrecord)
    as (p & Hp & _ & _ & _ & _ & Hstock).
  rewrite Hpid in Hp, Hstock. rewrite Hq in Hstock.
  assert (Hfive : Product.stock p = 5).
  { vm_compute in Hp. injection Hp as <-. reflexivity. }
  rewrite Hstock, Hfive. reflexivity.
Defined.

(** ** Transactions that stay *)

Lemma transactionKept_refl (t : Transaction.t) : transactionKept t t.
Proof. unfold transactionKept. intuition. Qed.

Lemma transactionKept_trans (t1 t2 t3 : Transaction.t) :
  transactionKept t1 t2 -> transactionKept t2 t3 -> transactionKept t1 t3.
Proof.
  intros (A1 & A2 & A3 & A4 & A5 & A6 & A7 & A8 & A9)
         (B1 & B2 & B3 & B4 & B5 & B6 & B7 & B8 & B9).
  unfold transactionKept. repeat split; try congruence;
    destruct (A9 H) as (C1 & C2 & C3 & C4);
    destruct (B9 C1) as (D1 & D2 & D3 & D4); congruence.
Qed.

Section KeptTransaction.
Variables (s s' : Store) (id : Id) (t : Transaction.t).
Hypothesis Hfind : findTransaction id s = Some t.

Lemma transaction_kept_same :
  transactions s' = transactions s ->
  exists t', findTransaction id s' = Some t' /\ transactionKept t t'.
Proof.
  intros Hrows. exists t. unfold findTransaction in *. rewrite Hrows.
  split; [exact Hfind | apply transactionKept_refl].
Qed.

Lemma transaction_kept_insert (new : Transaction.t) :
  transactions s' = transactions s ++ [new] ->
  exists t', findTransaction id s' = Some t' /\ transactionKept t t'.
Proof.
  intros Hrows. exists t. unfold findTransaction in *. rewrite Hrows.
  split; [now apply find_first_kept | apply transactionKept_refl].
Qed.

Lemma transaction_kept_update (key : Id) (f : Transaction.t -> Transaction.t) :
  transactions s'
  = update_where (fun r => Transaction.id r =? key) f (transactions s) ->
  (forall r, Transaction.id (f r) = Transaction.id r) ->
  (forall existing, findTransaction key s = Some existing ->
                    transactionKept existing (f existing)) ->
  exists t', findTransaction id s' = Some t' /\ transactionKept t t'.
Proof.
  intros Hrows Hid Hkept. unfold findTransaction in *. rewrite Hrows.
  rewrite (find_update_where_key Transaction.id) by exact Hid.
  rewrite Hfind. simpl.
  destruct (Transaction.id t =? key) eqn:Hkey.
  - eexists. split; [reflexivity|]. apply Hkept.
    apply Z.eqb_eq in Hkey.
    rewrite (find_some_key Transaction.id id _ _ Hfind) in Hkey.
    now subst key.
  - exists t. split; [reflexivity | apply transactionKept_refl].
Qed.

End KeptTransaction.

Lemma set_cancelled_kept (now : Timestamp) (r : Transaction.t) :
  transactionKept r (Transaction.set_status TxCANCELLED now r).
Proof. unfold transactionKept. simpl. intuition. Qed.

(** One request, seen from one transaction. *)
Lemma route_keeps_transaction (bearer : option JWTPayload.t) (now : Timestamp)
    (request : Request) (s : Store) (id : Id) (t : Transaction.t) :
  findTransaction id s = Some t ->
  exists t',
    findTransaction id (snd (route bearer now request s)) = Some t'
    /\ transactionKept t t'.
Proof.
  intros Hfind.
  pose proof (transaction_kept_same s) as Hsame.
  destruct request;
    try (apply (Hsame _ id t Hfind);
         apply route_keeps; [split; reflexivity|];
         intros table Hin; simpl in Hin;
         destruct table; simpl;
         first [exact I | intros; reflexivity
               | exfalso; intuition discriminate]);
    unfold route, verifyTokenMiddleware, requireRole, handled;
    try (destruct bearer as [payload|]; [|now apply (Hsame s id t)];
         destruct (negb (existsb _ _)); [now apply (Hsame s id t)|]);
    cbn [snd].
  - (* createTransaction *)
    destruct (createTransaction (JWTPayload.userId payload) now body s)
      as [[result code|message code] s'] eqn:Hrun; cbn [snd].
    + apply createTransaction_success in Hrun.
      destruct Hrun as (_ & acc & s1 & s2 & Hloop & Hpersist & ->).
      apply processItems_frame in Hloop. destruct Hloop as (Ht1 & _).
      destruct result as [transaction rows].
      apply persistTransaction_return in Hpersist.
      destruct Hpersist as (_ & _ & _ & _ & Ht2 & _).
      apply (transaction_kept_insert s _ id t Hfind transaction).
      simpl. now rewrite Ht2, Ht1.
    + apply createTransaction_refused in Hrun. subst s'.
      now apply (Hsame s id t).
  - (* cancelTransaction *)
    destruct (findTransaction id0 s) as [transaction|] eqn:Hfound;
      [|unfold cancelTransaction; rewrite Hfound; now apply (Hsame s id t)].
    destruct (TransactionStatus_beq (Transaction.status transaction)
                TxCANCELLED) eqn:Hbeq;
      [unfold cancelTransaction; rewrite Hfound, Hbeq;
       now apply (Hsame s id t)|].
    assert (Hstatus : Transaction.status transaction <> TxCANCELLED)
      by (intros H; rewrite H in Hbeq; discriminate).
    destruct (cancelTransaction_run now id0 s transaction Hfound Hstatus)
      as (s1 & s' & _ & Hrun & _ & _ & _ & Htx & _).
    rewrite Hrun. cbn [snd].
    apply (transaction_kept_update s s' id t Hfind id0 _ Htx);
      [reflexivity | intros existing _; apply set_cancelled_kept].
  - (* completeTransaction *)
    destruct (is_success (fst (completeTransaction now id0 s))) eqn:Hok.
    + unfold completeTransaction in Hok.
      destruct (findTransaction id0 s) as [transaction|] eqn:Hfound;
        [|discriminate].
      destruct (TransactionType_beq (Transaction.type transaction) RENTAL)
        eqn:Htype; [|discriminate]. simpl in Hok.
      destruct (TransactionStatus_beq (Transaction.status transaction)
                  TxCOMPLETED) eqn:Hcompleted; [discriminate|].
      destruct (TransactionStatus_beq (Transaction.status transaction)
                  TxCANCELLED) eqn:Hcancelled; [discriminate|].
      assert (Hrental : Transaction.type transaction = RENTAL)
        by (destruct (Transaction.type transaction); try discriminate;
            reflexivity).
      assert (H1 : Transaction.status transaction <> TxCOMPLETED)
        by (intros H; rewrite H in Hcompleted; discriminate).
      assert (H2 : Transaction.status transaction <> TxCANCELLED)
        by (intros H; rewrite H in Hcancelled; discriminate).
      destruct (completeTransaction_run now id0 s transaction Hfound Hrental
                  H1 H2) as (s1 & s' & _ & Hrun & _ & _ & _ & Htx & _).
      rewrite Hrun. cbn [snd].
      apply (transaction_kept_update s s' id t Hfind id0 _ Htx);
        [reflexivity|].
      intros existing Hexisting.
      assert (existing = transaction) by congruence. subst existing.
      unfold transactionKept. simpl. repeat split; now contradiction H2.
    + apply (Hsame _ id t Hfind). f_equal.
      unfold completeTransaction in Hok |- *.
      destruct (findTransaction id0 s) as [transaction|]; [|reflexivity].
      destruct (negb _); [reflexivity|].
      destruct (TransactionStatus_beq _ TxCOMPLETED); [reflexivity|].
      destruct (TransactionStatus_beq _ TxCANCELLED); [reflexivity|].
      destruct (db_transaction _ s) as [[u|e] s'] eqn:Hrun; simpl in Hok;
        [discriminate|].
      exact (db_transaction_throw _ _ _ _ Hrun).
  - (* payTransaction *)
    unfold payTransaction.
    destruct (negb _); [now apply (Hsame s id t)|].
    destruct (findTransaction id0 s) as [transaction|] eqn:Hfound;
      [|now apply (Hsame s id t)].
    destruct (TransactionStatus_beq _ TxPAID); [now apply (Hsame s id t)|].
    destruct (TransactionStatus_beq (Transaction.status transaction)
                TxCANCELLED) eqn:Hcancelled; [now apply (Hsame s id t)|].
    destruct (_ <? 0); [now apply (Hsame s id t)|]. cbn [snd].
    assert (H2 : Transaction.status transaction <> TxCANCELLED)
      by (intros H; rewrite H in Hcancelled; discriminate).
    eapply (transaction_kept_update s _ id t Hfind id0);
      [reflexivity | reflexivity|].
    intros existing Hexisting.
    assert (existing = transaction) by congruence. subst existing.
    unfold transactionKept. simpl. repeat split; now contradiction H2.
  - (* createBooking *)
    unfold createBooking.
    destruct (negb (createBookingSchema body)); [now apply (Hsame s id t)|].
    destruct (findCourt _ s) as [court|]; [|now apply (Hsame s id t)].
    destruct (negb (CourtStatus_beq _ _)); [now apply (Hsame s id t)|].
    destruct (find _ (bookings s)); [now apply (Hsame s id t)|].
    unfold db_transaction, createBookingUnit, bind, fresh, exec, ret.
    cbn [snd fst].
    eapply (transaction_kept_insert s _ id t Hfind). reflexivity.
  - (* cancelBooking *)
    destruct (findBooking id0 s) as [booking|] eqn:Hfound;
      [|unfold cancelBooking; rewrite Hfound; now apply (Hsame s id t)].
    destruct (BookingStatus_beq (Booking.bookingStatus booking) BkCANCELLED)
      eqn:Hbeq;
      [unfold cancelBooking; rewrite Hfound, Hbeq; now apply (Hsame s id t)|].
    assert (Hstatus : Booking.bookingStatus booking <> BkCANCELLED)
      by (intros H; rewrite H in Hbeq; discriminate).
    destruct (cancelBooking_run now id0 s booking Hfound Hstatus)
      as (s' & Hrun & _ & Htx & _).
    rewrite Hrun. cbn [snd].
    destruct (Booking.transactionId booking) as [tid|];
      [|now apply (Hsame s' id t)].
    apply (transaction_kept_update s s' id t Hfind tid _ Htx);
      [reflexivity | intros existing _; apply set_cancelled_kept].
  - (* updateOrderRequestStatus *)
    destruct (updateOrderRequestStatus_transactions
                (Some (JWTPayload.userId payload)) now id0 body s)
      as [Hrows | (userId & existing & Hrows)].
    + now apply (Hsame _ id t).
    + now apply (transaction_kept_insert s _ id t Hfind _ Hrows).
Qed.

(** X23. A transaction stays.  Over any sequence of requests to the
    routes above, from any callers, a transaction that is in the store
    is never removed and keeps its invoice number, type, table,
    customer, total, author and time of creation; once CANCELLED it
    stays CANCELLED, with the payment it had: no later request pays,
    completes or revives it. *)
Theorem serve_keeps_transactions :
  forall (calls : list Call.t) (s : Store) (id : Id) (t : Transaction.t),
    findTransaction id s = Some t ->
    exists t',
      findTransaction id (serve calls s) = Some t' /\ transactionKept t t'.
Proof.
  induction calls as [|c calls IH]; intros s id t Hfind.
  - exists t. split; [exact Hfind | apply transactionKept_refl].
  - rewrite serve_cons.
    destruct (route_keeps_transaction (Call.bearer c) (Call.now c)
                (Call.request c) s id t Hfind) as (t1 & Hfind1 & Hkept1).
    destruct (IH _ id t1 Hfind1) as (t2 & Hfind2 & Hkept2).
    exists t2. split; [exact Hfind2|].
    exact (transactionKept_trans _ _ _ Hkept1 Hkept2).
Qed.

Lemma serve_keeps_transactions_witness :
  exists t',
    findTransaction 100
      (serve [Call.mk (Some Staff.kasir) 4000 (PatchTransactionPay 100 CASH 10000000);
              Call.mk (Some Staff.owner) 5000 (PatchTransactionComplete 100)]
         Rental.cancelledAtOnce) = Some t'
    /\ Transaction.status t' = TxCANCELLED.
Proof.
  assert (Hfind : exists t, findTransaction 100 Rental.cancelledAtOnce = Some t
                            /\ Transaction.status t = TxCANCELLED).
  { eexists. split; vm_compute; reflexivity. }
  destruct Hfind as (t & Hfind & Hstatus).
  edestruct (serve_keeps_transactions
               [Call.mk (Some Staff.kasir) 4000
                  (PatchTransactionPay 100 CASH 10000000);
                Call.mk (Some Staff.owner) 5000 (PatchTransactionComplete 100)]
               Rental.cancelledAtOnce 100 t Hfind) as (t' & Hfind' & Hkept).
  exists t'. split; [exact Hfind'|]. apply Hkept. exact Hstatus.
Defined.

(** ** Tables that only grow *)

Section Extends.
Context {A : Type} (proj : Store -> list A).

Lemma extends_keeps {B} (m : Tx B) : keeps proj m -> extends proj m.
Proof. intros H s. exists []. now rewrite app_nil_r. Qed.

Lemma extends_exec (f : Store -> Store) :
  (forall s, exists added, proj (f s) = proj s ++ added) ->
  extends proj (exec f).
Proof. intros H s. apply H. Qed.

Lemma extends_bind {B C} (m : Tx B) (k : B -> Tx C) :
  extends proj m -> (forall b, extends proj (k b)) -> extends proj (bind m k).
Proof.
  intros Hm Hk s. unfold bind. destruct (Hm s) as (first & Hfirst).
  destruct (m s) as [[b|e] s1]; simpl in Hfirst |- *; [|eauto].
  destruct (Hk b s1) as (rest & Hrest). exists (first ++ rest).
  now rewrite Hrest, Hfirst, app_assoc.
Qed.

Lemma extends_forEach {B} (xs : list B) (body : B -> Tx unit) :
  (forall x, extends proj (body x)) -> extends proj (forEach xs body).
Proof.
  intros Hbody. induction xs as [|x xs IH]; simpl.
  - apply extends_keeps. intros s. reflexivity.
  - apply extends_bind; [apply Hbody | intros _; exact IH].
Qed.

Lemma extends_db_transaction {B} (body : Tx B) (s : Store) :
  extends proj body ->
  exists added, proj (snd (db_transaction body s)) = proj s ++ added.
Proof.
  intros H. unfold db_transaction. destruct (H s) as (added & Hadded).
  destruct (body s) as [[b|e] s1]; simpl in *; [eauto|].
  exists []. now rewrite app_nil_r.
Qed.

End Extends.

Lemma insertItems_extends (transactionId : Id) (items : list ProcessedItem.t) :
  extends transactionItems (insertItems transactionId items).
Proof.
  induction items as [|item items IH]; simpl.
  - apply extends_keeps. intros s. reflexivity.
  - apply extends_bind; [apply extends_keeps; intros s; reflexivity|].
    intros id. apply extends_bind.
    + apply extends_exec. intros s. eexists. reflexivity.
    + intros _. apply extends_bind; [exact IH|].
      intros rows. apply extends_keeps. intros s. reflexivity.
Qed.

Lemma createTransaction_extends (user : Id) (now : Timestamp)
    (b : CreateTransactionBody.t) (s : Store) :
  exists added,
    transactionItems (snd (createTransaction user now b s))
    = transactionItems s ++ added.
Proof.
  unfold createTransaction.
  destruct (negb (createTransactionSchema b));
    [exists []; now rewrite app_nil_r|].
  destruct (validateTable _ s) as [[message code]|];
    [exists []; now rewrite app_nil_r|].
  assert (Hunit : extends transactionItems (createTransactionUnit user now s b)).
  { unfold createTransactionUnit.
    apply extends_bind.
    { apply extends_keeps. apply processItems_keeps; intros f s0; reflexivity. }
    intros acc. unfold persistTransaction.
    destruct (_ <? 0); [apply extends_keeps; intros s0; reflexivity|].
    apply extends_bind; [apply extends_keeps; intros s0; reflexivity|].
    intros id. apply extends_bind;
      [apply extends_keeps; intros s0; reflexivity|].
    intros _. apply extends_bind; [apply insertItems_extends|].
    intros rows. apply extends_keeps.
    apply keeps_bind.
    { apply keeps_forEach. intros x.
      apply keeps_bind; [apply keeps_fresh; split; reflexivity|].
      intros rid. apply keeps_exec. reflexivity. }
    intros _. apply keeps_bind.
    { apply keeps_forEach. intros x.
      apply keeps_bind; [apply keeps_fresh; split; reflexivity|].
      intros rid. apply keeps_exec. reflexivity. }
    intros _. apply keeps_bind; [|intros _; apply keeps_ret].
    destruct (CreateTransactionBody.tableId b); [|apply keeps_ret].
    apply keeps_exec. reflexivity. }
  destruct (extends_db_transaction transactionItems _ s Hunit)
    as (added & Hadded).
  exists added.
  destruct (db_transaction _ s) as [[result|e] s']; exact Hadded.
Qed.

Lemma updateOrderRequestStatus_extends (user : option Id) (now : Timestamp)
    (id : Id) (b : UpdateStatusBody.t) (s : Store) :
  exists added,
    transactionItems (snd (updateOrderRequestStatus user now id b s))
    = transactionItems s ++ added.
Proof.
  unfold updateOrderRequestStatus.
  destruct (negb (updateOrderRequestStatusSchema b));
    [exists []; now rewrite app_nil_r|].
  destruct user as [userId|]; [|exists []; now rewrite app_nil_r].
  destruct (findOrderRequest id s) as [existing|];
    [|exists []; now rewrite app_nil_r].
  destruct (negb (includes _ _)); [exists []; now rewrite app_nil_r|].
  assert (Hunit : extends transactionItems
            (updateOrderRequestStatusUnit userId now s id existing
               (orderItemsOf id s) b)).
  { unfold updateOrderRequestStatusUnit.
    apply extends_bind.
    - destruct (UpdateStatusBody.status b);
        try (apply extends_keeps; intros s0; reflexivity).
      apply extends_bind; [apply extends_keeps; intros s0; reflexivity|].
      intros tid. apply extends_bind;
        [apply extends_keeps; intros s0; reflexivity|].
      intros _. apply extends_bind;
        [|intros _; apply extends_keeps; intros s0; reflexivity].
      apply extends_forEach. intros item. unfold serveItem, setMenuStock.
      apply extends_bind; [apply extends_keeps; intros s0; reflexivity|].
      intros found. apply extends_bind.
      + apply extends_keeps.
        destruct found as [menu|]; [|apply keeps_ret].
        destruct (Menu.stock menu) as [stock|]; [|apply keeps_ret].
        destruct (stock <? _); [apply keeps_throw|].
        apply keeps_exec. reflexivity.
      + intros _. apply extends_bind;
          [apply extends_keeps; intros s0; reflexivity|].
        intros iid. apply extends_exec. intros s0. eexists. reflexivity.
    - intros created. apply extends_keeps.
      apply keeps_bind; [apply keeps_exec; reflexivity | intros _].
      apply keeps_bind; [apply keeps_query | intros updated].
      apply keeps_ret. }
  destruct (extends_db_transaction transactionItems _ s Hunit)
    as (added & Hadded).
  exists added.
  destruct (db_transaction _ s) as [[result|e] s']; exact Hadded.
Qed.

Ltac route_kept :=
  apply route_keeps; [split; reflexivity|];
  let table := fresh "table" in
  let Hin := fresh "Hin" in
  intros table Hin; simpl in Hin; destruct table; simpl;
  first [exact I | intros; reflexivity | exfalso; intuition discriminate].

Ltac nothing_added := exists []; rewrite app_nil_r.

(** One request, seen from the three tables. *)
Lemma route_only_appends (bearer : option JWTPayload.t) (now : Timestamp)
    (request : Request) (s : Store) :
  onlyAppended s (snd (route bearer now request s)).
Proof.
  unfold onlyAppended.
  destruct request;
    repeat match goal with
           | |- _ /\ _ => split
           end;
    try (nothing_added; route_kept);
    unfold route, verifyTokenMiddleware, requireRole, handled;
    try (destruct bearer as [payload|];
         [|nothing_added; reflexivity];
         destruct (negb (existsb _ _)); [nothing_added; reflexivity|]);
    cbn [snd].
  - apply createTransaction_extends.
  - (* the notification of a created transaction *)
    unfold createTransaction.
    destruct (negb (createTransactionSchema body));
      [nothing_added; reflexivity|].
    destruct (validateTable _ s) as [[message code]|];
      [nothing_added; reflexivity|].
    match goal with
    | |- context [db_transaction ?body s] =>
        pose proof (keeps_db_transaction notifications body s) as Hkept
    end.
    destruct (db_transaction _ s) as [[result|e] s']; cbn [snd] in Hkept |- *.
    + eexists. simpl. unfold insert_row. f_equal. apply Hkept.
      unfold createTransactionUnit.
      apply keeps_bind;
        [apply processItems_keeps; intros f s0; reflexivity | intros acc].
      unfold persistTransaction.
      destruct (_ <? 0); [apply keeps_throw|].
      apply keeps_bind; [apply keeps_fresh; split; reflexivity | intros tid].
      apply keeps_bind; [apply keeps_exec; reflexivity | intros _].
      apply keeps_bind;
        [apply insertItems_keeps;
         [split; reflexivity | intros f s0; reflexivity] | intros rows].
      apply keeps_bind.
      { apply keeps_forEach. intros x.
        apply keeps_bind; [apply keeps_fresh; split; reflexivity|].
        intros rid. apply keeps_exec. reflexivity. }
      intros _. apply keeps_bind.
      { apply keeps_forEach. intros x.
        apply keeps_bind; [apply keeps_fresh; split; reflexivity|].
        intros rid. apply keeps_exec. reflexivity. }
      intros _. apply keeps_bind; [|intros _; apply keeps_ret].
      destruct (CreateTransactionBody.tableId body); [|apply keeps_ret].
      apply keeps_exec. reflexivity.
    + nothing_added. apply Hkept.
      unfold createTransactionUnit.
      apply keeps_bind;
        [apply processItems_keeps; intros f s0; reflexivity | intros acc].
      unfold persistTransaction.
      destruct (_ <? 0); [apply keeps_throw|].
      apply keeps_bind; [apply keeps_fresh; split; reflexivity | intros tid].
      apply keeps_bind; [apply keeps_exec; reflexivity | intros _].
      apply keeps_bind;
        [apply insertItems_keeps;
         [split; reflexivity | intros f s0; reflexivity] | intros rows].
      apply keeps_bind.
      { apply keeps_forEach. intros x.
        apply keeps_bind; [apply keeps_fresh; split; reflexivity|].
        intros rid. apply keeps_exec. reflexivity. }
      intros _. apply keeps_bind.
      { apply keeps_forEach. intros x.
        apply keeps_bind; [apply keeps_fresh; split; reflexivity|].
        intros rid. apply keeps_exec. reflexivity. }
      intros _. apply keeps_bind; [|intros _; apply keeps_ret].
      destruct (CreateTransactionBody.tableId body); [|apply keeps_ret].
      apply keeps_exec. reflexivity.
  - (* createBooking: transaction items *)
    unfold createBooking.
    destruct (negb (createBookingSchema body)); [nothing_added; reflexivity|].
    destruct (findCourt _ s) as [court|]; [|nothing_added; reflexivity].
    destruct (negb (CourtStatus_beq _ _)); [nothing_added; reflexivity|].
    destruct (find _ (bookings s)); [nothing_added; reflexivity|].
    unfold db_transaction, createBookingUnit, bind, fresh, exec, ret.
    cbn [snd fst]. eexists. reflexivity.
  - (* createBooking: notifications *)
    unfold createBooking.
    destruct (negb (createBookingSchema body)); [nothing_added; reflexivity|].
    destruct (findCourt _ s) as [court|]; [|nothing_added; reflexivity].
    destruct (negb (CourtStatus_beq _ _)); [nothing_added; reflexivity|].
    destruct (find _ (bookings s)); [nothing_added; reflexivity|].
    unfold db_transaction, createBookingUnit, bind, fresh, exec, ret.
    cbn [snd fst]. eexists. reflexivity.
  - (* createOrderRequest: order items *)
    unfold createOrderRequest.
    destruct (negb (createOrderRequestSchema body));
      [nothing_added; reflexivity|].
    destruct (findActiveTable _ s); [|nothing_added; reflexivity].
    destruct (negb (Nat.eqb _ _)); [nothing_added; reflexivity|].
    cbn [snd]. eexists. reflexivity.
  - (* createOrderRequest: notifications *)
    unfold createOrderRequest.
    destruct (negb (createOrderRequestSchema body));
      [nothing_added; reflexivity|].
    destruct (findActiveTable _ s); [|nothing_added; reflexivity].
    destruct (negb (Nat.eqb _ _)); [nothing_added; reflexivity|].
    cbn [snd]. eexists. reflexivity.
  - apply updateOrderRequestStatus_extends.
Qed.

Lemma onlyAppended_trans (s1 s2 s3 : Store) :
  onlyAppended s1 s2 -> onlyAppended s2 s3 -> onlyAppended s1 s3.
Proof.
  intros ((a1 & Ha1) & (b1 & Hb1) & (c1 & Hc1))
         ((a2 & Ha2) & (b2 & Hb2) & (c2 & Hc2)).
  repeat split.
  - exists (a1 ++ a2). now rewrite Ha2, Ha1, app_assoc.
  - exists (b1 ++ b2). now rewrite Hb2, Hb1, app_assoc.
  - exists (c1 ++ c2). now rewrite Hc2, Hc1, app_assoc.
Qed.

(** X24. Three tables only grow.  Over any sequence of requests to the
    routes above, from any callers, the lines of the transactions, the
    lines of the order requests and the notifications are never
    removed, changed or reordered: what the tables hold afterwards is
    what they held before, followed by the rows the requests added.  In
    particular cancelling a transaction keeps its lines. *)
Theorem serve_only_appends :
  forall (calls : list Call.t) (s : Store), onlyAppended s (serve calls s).
Proof.
  induction calls as [|c calls IH]; intros s.
  - repeat split; exists []; now rewrite app_nil_r.
  - rewrite serve_cons.
    exact (onlyAppended_trans _ _ _
             (route_only_appends (Call.bearer c) (Call.now c)
                (Call.request c) s)
             (IH _)).
Qed.
